(** * WebGraph: the interaction and state-history core of [src/WebGraph/index.ts]

    The development embeds the [WebGraph] class: its activation state, the
    mutation gateway ([mergeNodes], [dropNodes], [mergeEdges], [replaceEdges],
    the rendering toggles), the undo/redo engine and the hover highlight
    tracker.  Events emitted to the host and the pixels drawn by the renderer
    are not part of the state and are left out; everything the class keeps
    in its private fields is kept here. *)

From stdpp Require Import gmap strings pretty list fin_maps.

Set Default Proof Using "Type".
#[local] Set Warnings "-clear-no-such-hyp".

(** ** Thrown errors

    A method of the class either returns or throws.  [Throw] carries which
    error it was; the messages are those of the source. *)

Inductive Error :=
  | AlreadyRendering        (* 'Already rendering.' *)
  | RenderingInactive       (* 'This operation is not possible if rendering is inactive.' *)
  | HistoryDisabled         (* 'The history is not enabled. ...' *)
  | TypeError               (* 'edges.forEach is not a function' *)
  | NotFoundGraphError      (* graph store: key not in the graph *)
  | UsageGraphError.        (* graph store: inconsistent edge merge *)

Inductive result (A : Type) :=
  | Ok (a : A)
  | Throw (e : Error).
Arguments Ok {A} a.
Arguments Throw {A} e.

#[global] Instance result_bind : MBind result := λ A B k r,
  match r with
  | Ok a => k a
  | Throw e => Throw e
  end.

#[global] Instance result_ret : MRet result := λ A a, Ok a.

(** ** Attribute bags

    Node and edge attributes are JavaScript objects holding the data of a
    serialized graph: [null], booleans, numbers and strings.  Numbers are
    the integers and the three numbers JSON has no text for, [NaN],
    [Infinity] and [-Infinity].  A missing property reads as [undefined],
    which is [None] here; [VUndefined] is a property that is there and holds
    [undefined]. *)

Inductive value :=
  | VUndefined
  | VNull
  | VBool (b : bool)
  | VNum (n : Z)
  | VNaN
  | VInfinity (negative : bool)
  | VStr (s : string).

#[global] Instance value_eq_dec : EqDecision value.
Proof. solve_decision. Defined.

Abbreviation Attributes := (gmap string value).

(** JavaScript truthiness of a property read: [if (x)], [!x]. *)
Definition truthy (v : option value) : bool :=
  match v with
  | None => false
  | Some VUndefined => false
  | Some VNull => false
  | Some (VBool b) => b
  | Some (VNum n) => negb (Z.eqb n 0)
  | Some VNaN => false
  | Some (VInfinity _) => true
  | Some (VStr s) => negb (String.eqb s "")
  end.

(** [x === true] and [x === false]. *)
Definition is_true (v : option value) : bool :=
  match v with Some (VBool true) => true | _ => false end.

Definition is_false (v : option value) : bool :=
  match v with Some (VBool false) => true | _ => false end.

(** [Object.assign(target, source)]: the properties of [source] win. *)
Definition assign (target source : Attributes) : Attributes := source ∪ target.

(** ** The graph store (graphology)

    The store is an external library; the class only holds a reference to
    it.  Keys are strings (the store coerces numbers to strings).  A graph
    keeps its nodes, its directed edges by key, and whether parallel edges
    are allowed ([multi], a [MultiGraph]).  The store can hold undirected
    edges too; a [Graph] here has none, so everything below is about graphs
    whose edges are all directed.  The operations are the ones the class
    calls. *)

Abbreviation NodeKey := string.
Abbreviation EdgeKey := string.

Record EdgeData := mkEdgeData {
  source : string;
  target : string;
  attributes : Attributes;
}.

Record Graph := mkGraph {
  multi : bool;
  g_nodes : gmap string Attributes;
  g_edges : gmap string EdgeData;
}.

Module Graphology.

(** [hasNode(key)] is [g_nodes g !! key] being there, and
    [getNodeAttributes(key)] is what it holds; the loops below read the map
    directly. *)

Definition getEdgeAttributes (g : Graph) (e : string) : result Attributes :=
  match g_edges g !! e with
  | Some d => Ok (attributes d)
  | None => Throw NotFoundGraphError
  end.

(** [getNodeAttribute(node, name)]; [undefined] when the property is not
    set.  The callers below only pass keys they obtained from the graph. *)
Definition getNodeAttribute (g : Graph) (k name : string) : option value :=
  a ← g_nodes g !! k; a !! name.

Definition getEdgeAttribute (g : Graph) (e name : string) : option value :=
  d ← g_edges g !! e; attributes d !! name.

Definition is_between (s t : string) (d : EdgeData) : bool :=
  bool_decide (source d = s) && bool_decide (target d = t).

Definition is_incident (k : string) (d : EdgeData) : bool :=
  bool_decide (source d = k) || bool_decide (target d = k).

(** The keys of the edges from [s] to [t]: what [hasEdge(source, target)]
    and the store's own merge of an edge look for. *)
Definition edges_between (g : Graph) (s t : string) : list string :=
  (filter (λ p, is_between s t p.2 = true) (map_to_list (g_edges g))).*1.

(** The edges that touch [k], each once, with their end points and
    attributes.  [forEachEdge(node, callback)] and [neighbors(node)] go over
    these; the store's walk meets a self-loop twice, which makes no
    difference to a callback that sets an attribute or to a set of
    neighbours. *)
Definition incident (g : Graph) (k : string) : list (string * EdgeData) :=
  filter (λ p, is_incident k p.2 = true) (map_to_list (g_edges g)).

Definition edges_of (g : Graph) (k : string) : list string :=
  (incident g k).*1.

(** The arrays of the store.  [edges(node)] and [edges(source, target)] walk
    the in-edges of the (first) node and then its out-edges: an edge from
    the other end comes along with the edges to it, and a self-loop comes
    twice.  The store makes up for the self-loops by cutting the array
    short at its end by the number of self-loops of the node, whichever
    entries stand there.  Inside a walk the store keeps its insertion
    order, which the map does not record; the order of the map stands in
    for it.  For a node without self-loops nothing is cut and the order
    plays no part in what the class does with the array; the properties
    below that go through these arrays are stated for such nodes. *)
Definition in_edges (g : Graph) (k : string) : list (string * EdgeData) :=
  filter (λ p, target p.2 = k) (map_to_list (g_edges g)).

Definition out_edges (g : Graph) (k : string) : list (string * EdgeData) :=
  filter (λ p, source p.2 = k) (map_to_list (g_edges g)).

Definition self_loops (g : Graph) (k : string) : nat :=
  length (filter (λ p, source p.2 = k ∧ target p.2 = k) (map_to_list (g_edges g))).

Definition cut_loops {A} (g : Graph) (k : string) (l : list A) : list A :=
  take (length l - self_loops g k) l.

(** [edges(node)], each edge with the end points and attributes the store
    returns for its key. *)
Definition edges (g : Graph) (k : string) : list (string * EdgeData) :=
  cut_loops g k (in_edges g k ++ out_edges g k).

(** [edges(source, target)]. *)
Definition edges_path (g : Graph) (s t : string) : list string :=
  cut_loops g s
    ((filter (λ p, source p.2 = t) (in_edges g s)
        ++ filter (λ p, target p.2 = t) (out_edges g s)).*1).

Definition hasEdge (g : Graph) (s t : string) : bool :=
  match edges_between g s t with [] => false | _ :: _ => true end.

(** [neighbors(node)]: the other end points of the edges of [k]; a
    self-loop makes a node its own neighbour. *)
Definition other_end (k : string) (d : EdgeData) : string :=
  if bool_decide (source d = k) then target d else source d.

Definition neighbors (g : Graph) (k : string) : list string :=
  remove_dups ((λ p, other_end k p.2) <$> incident g k).

(** [mergeNode(key, attributes)]: create the node with a copy of the
    attributes, or merge them into the existing ones. *)
Definition mergeNode (k : string) (attrs : option Attributes) (g : Graph) : Graph :=
  let attrs := default ∅ attrs in
  match g_nodes g !! k with
  | Some old => mkGraph (multi g) (<[k := assign old attrs]> (g_nodes g)) (g_edges g)
  | None => mkGraph (multi g) (<[k := attrs]> (g_nodes g)) (g_edges g)
  end.

(** [dropNode(key)]: remove the node and every edge that touches it.  The
    store throws for a missing key; [dropNodes] checks [hasNode] first. *)
Definition dropNode (k : string) (g : Graph) : Graph :=
  mkGraph (multi g) (delete k (g_nodes g))
          (filter (λ p, is_incident k p.2 = false) (g_edges g)).

Definition clearEdges (g : Graph) : Graph :=
  mkGraph (multi g) (g_nodes g) ∅.

Definition setEdgeAttribute (e name : string) (v : value) (g : Graph) : Graph :=
  mkGraph (multi g) (g_nodes g)
          (alter (λ d, mkEdgeData (source d) (target d) (<[name := v]> (attributes d)))
                 e (g_edges g)).

(** End points that are not nodes yet are added with no attributes. *)
Definition ensureNode (k : string) (g : Graph) : Graph :=
  match g_nodes g !! k with
  | Some _ => g
  | None => mkGraph (multi g) (<[k := ∅]> (g_nodes g)) (g_edges g)
  end.

Definition assignEdge (e : string) (attrs : Attributes) (g : Graph) : Graph :=
  mkGraph (multi g) (g_nodes g)
          (alter (λ d, mkEdgeData (source d) (target d) (assign (attributes d) attrs))
                 e (g_edges g)).

(** The insertion of a new edge, for a key that no edge has: both merges
    below only get here with such a key. *)
Definition addEdge (e s t : string) (attrs : Attributes) (g : Graph) : Graph :=
  let g := ensureNode t (ensureNode s g) in
  mkGraph (multi g) (g_nodes g) (<[e := mkEdgeData s t attrs]> (g_edges g)).

(** In a graph without parallel edges an edge from [s] to [t] that is
    already there is the one a merge goes to, whatever key was given. *)
Definition collision (g : Graph) (s t : string) : option string :=
  if multi g then None else head (edges_between g s t).

(** [mergeEdgeWithKey(key, source, target, attributes)]. *)
Definition mergeEdgeWithKey (e s t : string) (attrs : option Attributes)
    (g : Graph) : result Graph :=
  let attrs := default ∅ attrs in
  match g_edges g !! e with
  | Some d =>
      if bool_decide (source d = s) && bool_decide (target d = t)
      then Ok (assignEdge e attrs g)
      else Throw UsageGraphError
  | None =>
      match collision g s t with
      | Some e' => Ok (assignEdge e' attrs g)
      | None => Ok (addEdge e s t attrs g)
      end
  end.

(** [mergeEdge(source, target, attributes)]: no key given; a new edge
    gets its key from the store's generator, and the store throws when an
    edge has that key already. *)
Definition mergeEdge (edgeKeyGenerator : Graph → string) (s t : string)
    (attrs : option Attributes) (g : Graph) : result Graph :=
  let attrs := default ∅ attrs in
  match collision g s t with
  | Some e' => Ok (assignEdge e' attrs g)
  | None =>
      match g_edges g !! edgeKeyGenerator g with
      | Some _ => Throw UsageGraphError
      | None => Ok (addEdge (edgeKeyGenerator g) s t attrs g)
      end
  end.

(** [setNodeAttribute(node, name, value)] and [setEdgeAttribute(edge, name,
    value)] on any key: the store throws for a key it does not hold. *)
Definition setNodeAttribute (k name : string) (v : value) (g : Graph) : result Graph :=
  match g_nodes g !! k with
  | Some a => Ok (mkGraph (multi g) (<[k := <[name := v]> a]> (g_nodes g)) (g_edges g))
  | None => Throw NotFoundGraphError
  end.

Definition setEdgeAttributeOrThrow (e name : string) (v : value) (g : Graph)
    : result Graph :=
  match g_edges g !! e with
  | Some _ => Ok (setEdgeAttribute e name v g)
  | None => Throw NotFoundGraphError
  end.

End Graphology.

(** ** Serialized nodes and edges (graphology-types) *)

Record SerializedNode := mkNode {
  node_key : NodeKey;
  node_attributes : option Attributes;
}.

Record SerializedEdge := mkEdge {
  edge_key : option EdgeKey;
  edge_source : NodeKey;
  edge_target : NodeKey;
  edge_attributes : option Attributes;
}.

(** [if (key)] on an optional edge key: [undefined] and the empty string
    are both falsy. *)
Definition key_given (k : option EdgeKey) : option EdgeKey :=
  match k with
  | Some e => if String.eqb e "" then None else Some e
  | None => None
  end.

(** [dropNodes] takes keys or whole nodes. *)
Inductive NodeRef :=
  | ByKey (k : NodeKey)
  | ByNode (n : SerializedNode).

(** The key [dropNodes] looks up: [node.toString()] for a key,
    [node.key.toString()] for a node. *)
Definition ref_key (r : NodeRef) : NodeKey :=
  match r with
  | ByKey k => k
  | ByNode n => node_key n
  end.

(** [node.toString()], which [dropNodes] stores in the history. *)
Definition ref_toString (r : NodeRef) : string :=
  match r with
  | ByKey k => k
  | ByNode _ => "[object Object]"
  end.

(** [JSON.parse(JSON.stringify(nodes))]: a copy through JSON text.  A
    property that holds [undefined] is left out, [NaN] and the infinities
    come back as [null], every other value comes back as it was. *)
Definition json_copy_value (v : value) : option value :=
  match v with
  | VUndefined => None
  | VNaN | VInfinity _ => Some VNull
  | VNull | VBool _ | VNum _ | VStr _ => Some v
  end.

Definition json_copy_attributes (a : Attributes) : Attributes :=
  omap json_copy_value a.

Definition json_copy_node (n : SerializedNode) : SerializedNode :=
  mkNode (node_key n) (json_copy_attributes <$> node_attributes n).

(** ** Configuration enums *)

Inductive AppState := INACTIVE | ACTIVE.
Inductive AppMode := DYNAMIC | STATIC.
Inductive NodeType := RING | CIRCLE | RECTANGLE | TRIANGLE.

#[global] Instance AppState_eq_dec : EqDecision AppState.
Proof. solve_decision. Defined.

(** ** The history log

    [ActionType] and the payload bags are used by the class as shown; the
    [HistoryManager] class itself lives in [src/WebGraph/History]. *)

Inductive ActionType :=
  | UPDATE_APP_MODE
  | UPDATE_OR_ADD_NODE
  | DROP_NODE
  | UPDATE_NODE_TYPE
  | REPLACE_EDGES
  | UPDATE_OR_ADD_EDGE
  | TOGGLE_EDGE_RENDERING
  | TOGGLE_IMPORTANT_EDGE_RENDERING
  | SET_LAYOUT.

Abbreviation LayoutMapping := (gmap string (Z * Z)).

(** A payload bag: every field may be missing ([undefined]). *)
Record HistoryData := mkData {
  d_appMode : option AppMode;
  d_nodes : option (list SerializedNode);
  d_edges : option (list SerializedEdge);
  d_nodeType : option NodeType;
  d_toggleEdgeRendering : option bool;
  d_layoutMapping : option LayoutMapping;
}.

Definition noData : HistoryData := mkData None None None None None None.

Record Action := mkAction {
  oldData : HistoryData;
  actionType : ActionType;
  newData : HistoryData;
  isReverted : bool;
}.

Module HistoryManager.

(** Modelled from the spec: the [HistoryManager] class is not among the
    sources.  The log is an ordered sequence of actions, oldest first, each
    with a [reverted] mark. *)
Abbreviation t := (list Action).

(** Modelled from the spec: [new HistoryManager()], a log without
    actions. *)
Definition empty : t := [].

(** Modelled from the spec: [addAction(oldData, actionType, newData)].  "The
    log is append-only on new actions; a new action after any revert
    implicitly invalidates redo availability beyond that point": the new
    action goes to the end, not reverted, and the reverted actions are
    dropped. *)
Definition addAction (old : HistoryData) (ty : ActionType) (new : HistoryData)
    (h : t) : t :=
  filter (λ a, isReverted a = false) h ++ [mkAction old ty new false].

(** Modelled from the spec: [getLatestAction()], "the most recent
    non-reverted action", [undefined] when there is none. *)
Definition getLatestAction (h : t) : option Action :=
  last (filter (λ a, isReverted a = false) h).

(** Modelled from the spec: [getLatestRevertedAction()], "the most recent
    reverted action"; undo and redo are LIFO, so this is the action that was
    reverted last, the first reverted one in log order. *)
Definition getLatestRevertedAction (h : t) : option Action :=
  head (filter (λ a, isReverted a = true) h).

(** Modelled from the spec: an action with its [reverted] mark set to
    [b]. *)
Definition setReverted (b : bool) (a : Action) : Action :=
  mkAction (oldData a) (actionType a) (newData a) b.

(** Modelled from the spec: mark the first action of [h] whose mark is
    not [b] with [b]. *)
Fixpoint markFirst (b : bool) (h : t) : t :=
  match h with
  | [] => []
  | a :: h' =>
      if Bool.eqb (isReverted a) b then a :: markFirst b h'
      else setReverted b a :: h'
  end.

(** Modelled from the spec: [markLatestActionAsReverted()], which marks the
    action [getLatestAction] returns. *)
Definition markLatestActionAsReverted (h : t) : t :=
  reverse (markFirst true (reverse h)).

(** Modelled from the spec: [markLatestRevertedActionAsNotReverted()], which
    marks the action [getLatestRevertedAction] returns. *)
Definition markLatestRevertedActionAsNotReverted (h : t) : t :=
  markFirst false h.

End HistoryManager.

(** ** The state of a [WebGraph] instance *)

(** The renderer settings the class reads and writes. *)
Record Settings := mkSettings {
  hideEdges : bool;
  renderJustImportantEdges : bool;
  renderNodeBackdrop : bool;
  s_defaultNodeType : NodeType;
}.

Record Configuration := mkConfiguration {
  c_appMode : AppMode;
  enableHistory : bool;
  defaultNodeType : NodeType;
  highlightSubGraphOnHover : bool;
  includeImportantNeighbors : bool;
  importantNeighborsBidirectional : bool;
  nodeInfoBox : bool;                     (* whether a node info box is configured *)
  sigmaSettings : Settings;
}.

(** The renderer is a black box with a settings object of its own. *)
Record WebGLRenderer := mkRenderer { settings : Settings }.

Record WebGraph := mkWebGraph {
  graphData : Graph;
  configuration : Configuration;
  appState : AppState;
  renderer : option WebGLRenderer;
  highlightedNodes : gset string;
  highlightedEdges : gset string;
  hoveredNode : option NodeKey;
  isNodeInfoBoxContainerVisible : bool;
  isNodeDragged : bool;
  isHistoryEnabled : bool;
  history : option HistoryManager.t;
  isEdgeRenderingDisabled : bool;
  isJustImportantEdgesEnabled : bool;
  isNodeBackdropRenderingEnabled : bool;
}.

(** The constructor: [new WebGraph(container, graphData, configuration)]. *)
Definition new_WebGraph (g : Graph) (c : Configuration) : WebGraph :=
  mkWebGraph g c INACTIVE None ∅ ∅ None false false false None false false false.

(** Field assignments. *)
Definition set_graphData (g : Graph) (w : WebGraph) : WebGraph :=
  mkWebGraph g (configuration w) (appState w) (renderer w) (highlightedNodes w)
    (highlightedEdges w) (hoveredNode w) (isNodeInfoBoxContainerVisible w)
    (isNodeDragged w) (isHistoryEnabled w) (history w) (isEdgeRenderingDisabled w)
    (isJustImportantEdgesEnabled w) (isNodeBackdropRenderingEnabled w).

Definition set_configuration (c : Configuration) (w : WebGraph) : WebGraph :=
  mkWebGraph (graphData w) c (appState w) (renderer w) (highlightedNodes w)
    (highlightedEdges w) (hoveredNode w) (isNodeInfoBoxContainerVisible w)
    (isNodeDragged w) (isHistoryEnabled w) (history w) (isEdgeRenderingDisabled w)
    (isJustImportantEdgesEnabled w) (isNodeBackdropRenderingEnabled w).

Definition set_appState (a : AppState) (w : WebGraph) : WebGraph :=
  mkWebGraph (graphData w) (configuration w) a (renderer w) (highlightedNodes w)
    (highlightedEdges w) (hoveredNode w) (isNodeInfoBoxContainerVisible w)
    (isNodeDragged w) (isHistoryEnabled w) (history w) (isEdgeRenderingDisabled w)
    (isJustImportantEdgesEnabled w) (isNodeBackdropRenderingEnabled w).

Definition set_renderer (r : option WebGLRenderer) (w : WebGraph) : WebGraph :=
  mkWebGraph (graphData w) (configuration w) (appState w) r (highlightedNodes w)
    (highlightedEdges w) (hoveredNode w) (isNodeInfoBoxContainerVisible w)
    (isNodeDragged w) (isHistoryEnabled w) (history w) (isEdgeRenderingDisabled w)
    (isJustImportantEdgesEnabled w) (isNodeBackdropRenderingEnabled w).

Definition set_highlightedNodes (x : gset string) (w : WebGraph) : WebGraph :=
  mkWebGraph (graphData w) (configuration w) (appState w) (renderer w) x
    (highlightedEdges w) (hoveredNode w) (isNodeInfoBoxContainerVisible w)
    (isNodeDragged w) (isHistoryEnabled w) (history w) (isEdgeRenderingDisabled w)
    (isJustImportantEdgesEnabled w) (isNodeBackdropRenderingEnabled w).

Definition set_highlightedEdges (x : gset string) (w : WebGraph) : WebGraph :=
  mkWebGraph (graphData w) (configuration w) (appState w) (renderer w)
    (highlightedNodes w) x (hoveredNode w) (isNodeInfoBoxContainerVisible w)
    (isNodeDragged w) (isHistoryEnabled w) (history w) (isEdgeRenderingDisabled w)
    (isJustImportantEdgesEnabled w) (isNodeBackdropRenderingEnabled w).

Definition set_hoveredNode (x : option NodeKey) (w : WebGraph) : WebGraph :=
  mkWebGraph (graphData w) (configuration w) (appState w) (renderer w)
    (highlightedNodes w) (highlightedEdges w) x (isNodeInfoBoxContainerVisible w)
    (isNodeDragged w) (isHistoryEnabled w) (history w) (isEdgeRenderingDisabled w)
    (isJustImportantEdgesEnabled w) (isNodeBackdropRenderingEnabled w).

Definition set_isNodeInfoBoxContainerVisible (x : bool) (w : WebGraph) : WebGraph :=
  mkWebGraph (graphData w) (configuration w) (appState w) (renderer w)
    (highlightedNodes w) (highlightedEdges w) (hoveredNode w) x
    (isNodeDragged w) (isHistoryEnabled w) (history w) (isEdgeRenderingDisabled w)
    (isJustImportantEdgesEnabled w) (isNodeBackdropRenderingEnabled w).

Definition set_isHistoryEnabled (x : bool) (w : WebGraph) : WebGraph :=
  mkWebGraph (graphData w) (configuration w) (appState w) (renderer w)
    (highlightedNodes w) (highlightedEdges w) (hoveredNode w)
    (isNodeInfoBoxContainerVisible w) (isNodeDragged w) x (history w)
    (isEdgeRenderingDisabled w) (isJustImportantEdgesEnabled w)
    (isNodeBackdropRenderingEnabled w).

Definition set_history (x : option HistoryManager.t) (w : WebGraph) : WebGraph :=
  mkWebGraph (graphData w) (configuration w) (appState w) (renderer w)
    (highlightedNodes w) (highlightedEdges w) (hoveredNode w)
    (isNodeInfoBoxContainerVisible w) (isNodeDragged w) (isHistoryEnabled w) x
    (isEdgeRenderingDisabled w) (isJustImportantEdgesEnabled w)
    (isNodeBackdropRenderingEnabled w).

Definition set_isEdgeRenderingDisabled (x : bool) (w : WebGraph) : WebGraph :=
  mkWebGraph (graphData w) (configuration w) (appState w) (renderer w)
    (highlightedNodes w) (highlightedEdges w) (hoveredNode w)
    (isNodeInfoBoxContainerVisible w) (isNodeDragged w) (isHistoryEnabled w)
    (history w) x (isJustImportantEdgesEnabled w)
    (isNodeBackdropRenderingEnabled w).

Definition set_isJustImportantEdgesEnabled (x : bool) (w : WebGraph) : WebGraph :=
  mkWebGraph (graphData w) (configuration w) (appState w) (renderer w)
    (highlightedNodes w) (highlightedEdges w) (hoveredNode w)
    (isNodeInfoBoxContainerVisible w) (isNodeDragged w) (isHistoryEnabled w)
    (history w) (isEdgeRenderingDisabled w) x
    (isNodeBackdropRenderingEnabled w).

Definition set_isNodeBackdropRenderingEnabled (x : bool) (w : WebGraph) : WebGraph :=
  mkWebGraph (graphData w) (configuration w) (appState w) (renderer w)
    (highlightedNodes w) (highlightedEdges w) (hoveredNode w)
    (isNodeInfoBoxContainerVisible w) (isNodeDragged w) (isHistoryEnabled w)
    (history w) (isEdgeRenderingDisabled w) (isJustImportantEdgesEnabled w) x.

(** Writes to the settings objects. *)
Definition with_hideEdges (b : bool) (x : Settings) : Settings :=
  mkSettings b (renderJustImportantEdges x) (renderNodeBackdrop x) (s_defaultNodeType x).

Definition with_renderJustImportantEdges (b : bool) (x : Settings) : Settings :=
  mkSettings (hideEdges x) b (renderNodeBackdrop x) (s_defaultNodeType x).

Definition with_renderNodeBackdrop (b : bool) (x : Settings) : Settings :=
  mkSettings (hideEdges x) (renderJustImportantEdges x) b (s_defaultNodeType x).

Definition with_defaultNodeType (n : NodeType) (x : Settings) : Settings :=
  mkSettings (hideEdges x) (renderJustImportantEdges x) (renderNodeBackdrop x) n.

Definition map_settings (f : Settings → Settings) (r : WebGLRenderer) : WebGLRenderer :=
  mkRenderer (f (settings r)).

Definition with_appMode (m : AppMode) (c : Configuration) : Configuration :=
  mkConfiguration m (enableHistory c) (defaultNodeType c) (highlightSubGraphOnHover c)
    (includeImportantNeighbors c) (importantNeighborsBidirectional c) (nodeInfoBox c)
    (sigmaSettings c).

Definition with_configDefaultNodeType (n : NodeType) (c : Configuration) : Configuration :=
  mkConfiguration (c_appMode c) (enableHistory c) n (highlightSubGraphOnHover c)
    (includeImportantNeighbors c) (importantNeighborsBidirectional c) (nodeInfoBox c)
    (sigmaSettings c).

Definition with_sigmaSettings (x : Settings) (c : Configuration) : Configuration :=
  mkConfiguration (c_appMode c) (enableHistory c) (defaultNodeType c)
    (highlightSubGraphOnHover c) (includeImportantNeighbors c)
    (importantNeighborsBidirectional c) (nodeInfoBox c) x.

(** [this.history?.addAction(old, type, new)]. *)
Definition history_addAction (old : HistoryData) (ty : ActionType) (new : HistoryData)
    (w : WebGraph) : WebGraph :=
  set_history (HistoryManager.addAction old ty new <$> history w) w.

(** ** The methods of the class *)

Section Methods.

(** The store's edge key generator, used when an edge is merged without a
    key.  The store numbers the keys it makes with a counter of its own; a
    function of the graph stands for it here, and what is proved below holds
    for every such function. *)
Context (edgeKeyGenerator : Graph → EdgeKey).

Definition isRenderingActive (w : WebGraph) : bool :=
  bool_decide (appState w = ACTIVE).

Definition appMode (w : WebGraph) : AppMode := c_appMode (configuration w).

(** [set appMode(appMode)]. *)
Definition set_appMode (m : AppMode) (w : WebGraph) : WebGraph :=
  let oldAppMode := appMode w in
  let w := set_configuration (with_appMode m (configuration w)) w in
  if isHistoryEnabled w
  then history_addAction (mkData (Some oldAppMode) None None None None None)
         UPDATE_APP_MODE (mkData (Some m) None None None None None) w
  else w.

(** [overwriteRenderSettings]: of what it injects into the sigma settings
    only [defaultNodeType] is state; the rest are callbacks. *)
Definition overwriteRenderSettings (c : Configuration) : Configuration :=
  with_sigmaSettings (with_defaultNodeType (defaultNodeType c) (sigmaSettings c)) c.

(** [render()].  The renderer starts from the configured sigma settings. *)
Definition render (w : WebGraph) : result WebGraph :=
  if isRenderingActive w then Throw AlreadyRendering
  else
    let w := set_appState ACTIVE w in
    let w := set_configuration (overwriteRenderSettings (configuration w)) w in
    let r := mkRenderer (sigmaSettings (configuration w)) in
    let w := set_renderer (Some r) w in
    let w := set_isHistoryEnabled (enableHistory (configuration w)) w in
    let w := if isHistoryEnabled w then set_history (Some HistoryManager.empty) w else w in
    let w := set_isEdgeRenderingDisabled (hideEdges (settings r)) w in
    let w := set_isJustImportantEdgesEnabled (renderJustImportantEdges (settings r)) w in
    let w := set_isNodeBackdropRenderingEnabled (renderNodeBackdrop (settings r)) w in
    Ok w.

(** [destroy()]. *)
Definition destroy (w : WebGraph) : WebGraph :=
  let w := set_renderer None w in
  let w := set_appState INACTIVE w in
  let w := set_highlightedNodes ∅ w in
  let w := set_highlightedEdges ∅ w in
  let w := set_hoveredNode None w in
  set_history None w.

(** [clearHistory()]. *)
Definition clearHistory (w : WebGraph) : bool * WebGraph :=
  (true, set_history (Some HistoryManager.empty) w).

(** [toggleEdgeRendering(hideEdges?, addToHistory = true)].  The renderer's
    own [toggleEdgeRendering] keeps the flag in its settings. *)
Definition toggleEdgeRendering (hide : option bool) (addToHistory : bool)
    (w : WebGraph) : WebGraph :=
  let oldValue := isEdgeRenderingDisabled w in
  let v := match hide with Some h => h | None => negb oldValue end in
  let w := set_isEdgeRenderingDisabled v w in
  let w := set_renderer (map_settings (with_hideEdges v) <$> renderer w) w in
  if isHistoryEnabled w && addToHistory
  then history_addAction (mkData None None None None (Some oldValue) None)
         TOGGLE_EDGE_RENDERING (mkData None None None None hide None) w
  else w.

(** [toggleJustImportantEdgeRendering(renderJustImportant?, addToHistory = true)].
    The inner call is [this.toggleEdgeRendering(false)]: its second
    argument takes the default, [true]. *)
Definition toggleJustImportantEdgeRendering (renderJustImportant : option bool)
    (addToHistory : bool) (w : WebGraph) : WebGraph :=
  let oldValue := isJustImportantEdgesEnabled w in
  let v := match renderJustImportant with Some b => b | None => negb oldValue end in
  let w := set_isJustImportantEdgesEnabled v w in
  let w := set_renderer (map_settings (with_renderJustImportantEdges v) <$> renderer w) w in
  let w := toggleEdgeRendering (Some false) true w in
  if isHistoryEnabled w && addToHistory
  then history_addAction (mkData None None None None (Some oldValue) None)
         TOGGLE_IMPORTANT_EDGE_RENDERING
         (mkData None None None None renderJustImportant None) w
  else w.

(** One round of the [forEach] of [mergeNodes]: snapshot the node when it
    is there and the call is recorded, then merge it. *)
Definition mergeNodes_step (rec : bool)
    (acc : Graph * list SerializedNode) (node : SerializedNode)
    : Graph * list SerializedNode :=
  let '(g, existingNodes) := acc in
  let existingNodes :=
    match g_nodes g !! node_key node with
    | Some a =>
        if rec then existingNodes ++ [mkNode (node_key node) (Some (assign ∅ a))]
        else existingNodes
    | None => existingNodes
    end in
  (Graphology.mergeNode (node_key node) (node_attributes node) g, existingNodes).

(** The replay loop of [mergeNodes]: every edge of every merged node gets
    [hidden = false]. *)
Definition unhideEdgesOf (g : Graph) (node : SerializedNode) : Graph :=
  foldl (λ g edge, Graphology.setEdgeAttribute edge "hidden" (VBool false) g)
        g (Graphology.edges_of g (node_key node)).

(** [mergeNodes(nodes, addToHistory = true)]. *)
Definition mergeNodes (nodes : list SerializedNode) (addToHistory : bool)
    (w : WebGraph) : bool * WebGraph :=
  match nodes with
  | [] => (false, w)
  | _ :: _ =>
      let rec := isHistoryEnabled w && addToHistory in
      let '(g, existingNodes) := foldl (mergeNodes_step rec) (graphData w, []) nodes in
      let w := set_graphData g w in
      let w :=
        if rec
        then history_addAction (mkData None (Some existingNodes) None None None None)
               UPDATE_OR_ADD_NODE (mkData None (Some nodes) None None None None) w
        else w in
      let w :=
        if negb addToHistory
        then set_graphData (foldl unhideEdgesOf (graphData w) nodes) w
        else w in
      (true, w)
  end.

(** [hideNodeInfoBoxContainer(rightClickNode?)]. *)
Definition hideNodeInfoBoxContainer (rightClickNode : bool) (w : WebGraph) : WebGraph :=
  if negb (isNodeInfoBoxContainerVisible w) then w
  else if negb rightClickNode
          && match hoveredNode w with Some k => negb (String.eqb k "") | None => false end
  then w
  else if negb (nodeInfoBox (configuration w)) then w
  else set_isNodeInfoBoxContainerVisible false w.

(** What [dropNodes] stores for an edge it is about to lose. *)
Definition edge_record (p : string * EdgeData) : SerializedEdge :=
  mkEdge (Some p.1) (source p.2) (target p.2) (Some (attributes p.2)).

(** One round of the [forEach] of [dropNodes]. *)
Definition dropNodes_step (rec : bool)
    (acc : WebGraph * list SerializedNode * list SerializedEdge) (node : NodeRef)
    : WebGraph * list SerializedNode * list SerializedEdge :=
  let '(w, nodeArrayForHistory, edgeSetForHistory) := acc in
  let key := ref_key node in
  match g_nodes (graphData w) !! key with
  | None => acc
  | Some attrs =>
      let w := set_highlightedNodes (highlightedNodes w ∖ {[key]}) w in
      let edges := Graphology.edges (graphData w) key in
      let w := set_highlightedEdges (highlightedEdges w ∖ list_to_set edges.*1) w in
      let edgeSetForHistory :=
        if rec then edgeSetForHistory ++ (edge_record <$> edges)
        else edgeSetForHistory in
      let w := hideNodeInfoBoxContainer false w in
      let nodeArrayForHistory :=
        if rec then nodeArrayForHistory ++ [mkNode (ref_toString node) (Some attrs)]
        else nodeArrayForHistory in
      let w := set_graphData (Graphology.dropNode key (graphData w)) w in
      (w, nodeArrayForHistory, edgeSetForHistory)
  end.

(** [dropNodes(nodes, addToHistory = true)]. *)
Definition dropNodes (nodes : list NodeRef) (addToHistory : bool)
    (w : WebGraph) : bool * WebGraph :=
  let rec := isHistoryEnabled w && addToHistory in
  let '(w, nodeArrayForHistory, edgeSetForHistory) :=
    foldl (dropNodes_step rec) (w, [], []) nodes in
  let w :=
    if rec
    then history_addAction
           (mkData None (Some nodeArrayForHistory) (Some edgeSetForHistory) None None None)
           DROP_NODE noData w
    else w in
  (true, w).

(** The [forEach] of [mergeEdges], which may stop on an error of the
    store. *)
Fixpoint mergeEdges_loop (rec : bool) (edges : list SerializedEdge)
    (g : Graph) (existingEdges : list SerializedEdge)
    : result (Graph * list SerializedEdge) :=
  match edges with
  | [] => Ok (g, existingEdges)
  | edge :: edges' =>
      let key := key_given (edge_key edge) in
      existingEdges ←
        (if rec && Graphology.hasEdge g (edge_source edge) (edge_target edge)
         then
           attrs ← match key with
                   | Some k => a ← Graphology.getEdgeAttributes g k; Ok (Some (assign ∅ a))
                   | None => Ok None
                   end;
           Ok (existingEdges ++
                 [mkEdge (edge_key edge) (edge_source edge) (edge_target edge) attrs])
         else Ok existingEdges);
      g ← match key with
          | Some k =>
              Graphology.mergeEdgeWithKey k (edge_source edge) (edge_target edge)
                (edge_attributes edge) g
          | None =>
              Graphology.mergeEdge edgeKeyGenerator (edge_source edge)
                (edge_target edge) (edge_attributes edge) g
          end;
      mergeEdges_loop rec edges' g existingEdges
  end.

(** [mergeEdges(edges, addToHistory = true)].  A JavaScript [Set] of edge
    objects keeps insertion order and never merges two objects, so it is a
    list here. *)
Definition mergeEdges (edges : list SerializedEdge) (addToHistory : bool)
    (w : WebGraph) : result (bool * WebGraph) :=
  match edges with
  | [] => Ok (false, w)
  | _ :: _ =>
      let rec := isHistoryEnabled w && addToHistory in
      '(g, existingEdges) ← mergeEdges_loop rec edges (graphData w) [];
      let w := set_graphData g w in
      let w :=
        if rec
        then history_addAction (mkData None None (Some existingEdges) None None None)
               UPDATE_OR_ADD_EDGE (mkData None None (Some edges) None None None) w
        else w in
      Ok (true, w)
  end.

(** [replaceEdges(edges, addToHistory = true)]. *)
Definition replaceEdges (edges : list SerializedEdge) (addToHistory : bool)
    (w : WebGraph) : result (bool * WebGraph) :=
  let w :=
    if isHistoryEnabled w && addToHistory
    then
      let existingEdges := edge_record <$> map_to_list (g_edges (graphData w)) in
      history_addAction (mkData None None (Some existingEdges) None None None)
        REPLACE_EDGES (mkData None None (Some edges) None None None) w
    else w in
  let w := set_graphData (Graphology.clearEdges (graphData w)) w in
  '(_, w) ← mergeEdges edges false w;
  Ok (true, w).

(** [setAndApplyDefaultNodeType(nodeType, addToHistory = true)]. *)
Definition setAndApplyDefaultNodeType (nodeType : NodeType) (addToHistory : bool)
    (w : WebGraph) : bool * WebGraph :=
  match renderer w with
  | None => (false, w)
  | Some r =>
      let oldNodeType := defaultNodeType (configuration w) in
      let c := with_configDefaultNodeType nodeType (configuration w) in
      let c := with_sigmaSettings (with_defaultNodeType nodeType (sigmaSettings c)) c in
      let w := set_configuration c w in
      let w := set_renderer (Some (map_settings (with_defaultNodeType nodeType) r)) w in
      let w :=
        if isHistoryEnabled w && addToHistory
        then history_addAction (mkData None None None (Some oldNodeType) None None)
               UPDATE_NODE_TYPE (mkData None None None (Some nodeType) None None) w
        else w in
      (true, w)
  end.

(** [exportGraph(excludeEdges = false)]: the serialized graph and the
    instance afterwards. *)
Definition export (g : Graph) : list SerializedNode * list SerializedEdge :=
  ((λ p, mkNode p.1 (Some p.2)) <$> map_to_list (g_nodes g),
   edge_record <$> map_to_list (g_edges g)).

Definition exportGraph (excludeEdges : bool) (w : WebGraph)
    : (list SerializedNode * list SerializedEdge) * WebGraph :=
  let w := if excludeEdges
           then set_graphData (Graphology.clearEdges (graphData w)) w
           else w in
  (export (graphData w), w).

End Methods.

(** ** Undo and redo *)

Section UndoRedo.

Context (edgeKeyGenerator : Graph → EdgeKey).

(** The [switch] of [undo()].  [Ok None] is an early [return false];
    [Ok (Some w)] falls through to the end of the method.  The members of
    [AppMode] and [NodeType] are non-empty strings, so [!x] only holds for
    a missing payload.  [animateGraph] only schedules an animation: when
    [undo] returns, no position has changed yet.

    [UPDATE_OR_ADD_EDGE] passes [JSON.parse(JSON.stringify(edges))] on,
    where [edges] is a [Set]: a [Set] serializes to an empty object, so
    [replaceEdges] clears the edges and the call of [mergeEdges] it makes
    ends in [edges.forEach is not a function]. *)
Definition undo_switch (a : Action) (w : WebGraph) : result (option WebGraph) :=
  match actionType a with
  | UPDATE_APP_MODE =>
      match d_appMode (oldData a) with
      | None => Ok None
      | Some m => Ok (Some (set_configuration (with_appMode m (configuration w)) w))
      end
  | UPDATE_OR_ADD_NODE =>
      match d_nodes (oldData a), d_nodes (newData a) with
      | Some oldNodes, Some newNodes =>
          let '(_, w) := dropNodes (ByNode <$> newNodes) false w in
          let '(_, w) := mergeNodes (json_copy_node <$> oldNodes) false w in
          Ok (Some w)
      | _, _ => Ok None
      end
  | DROP_NODE =>
      match d_nodes (oldData a), d_edges (oldData a) with
      | Some oldNodes, Some oldEdges =>
          let '(_, w) := mergeNodes oldNodes false w in
          '(_, w) ← mergeEdges edgeKeyGenerator oldEdges false w;
          Ok (Some w)
      | _, _ => Ok None
      end
  | UPDATE_NODE_TYPE =>
      match d_nodeType (oldData a) with
      | None => Ok None
      | Some t => Ok (Some (setAndApplyDefaultNodeType t false w).2)
      end
  | REPLACE_EDGES =>
      match d_edges (oldData a) with
      | None => Ok None
      | Some oldEdges =>
          '(_, w) ← replaceEdges edgeKeyGenerator oldEdges false w;
          Ok (Some w)
      end
  | UPDATE_OR_ADD_EDGE =>
      match d_edges (oldData a) with
      | None => Ok None
      | Some _ => Throw TypeError
      end
  | TOGGLE_EDGE_RENDERING =>
      match d_toggleEdgeRendering (oldData a) with
      | None => Ok None
      | Some b => Ok (Some (toggleEdgeRendering (Some b) false w))
      end
  | TOGGLE_IMPORTANT_EDGE_RENDERING =>
      match d_toggleEdgeRendering (oldData a) with
      | None => Ok None
      | Some b => Ok (Some (toggleJustImportantEdgeRendering (Some b) false w))
      end
  | SET_LAYOUT =>
      match d_layoutMapping (oldData a) with
      | None => Ok None
      | Some _ => Ok (Some w)
      end
  end.

(** [undo()]. *)
Definition undo (w : WebGraph) : result (bool * WebGraph) :=
  match renderer w with
  | None => Throw RenderingInactive
  | Some _ =>
      if negb (isRenderingActive w) then Throw RenderingInactive
      else if negb (isHistoryEnabled w) then Throw HistoryDisabled
      else
        match history w ≫= HistoryManager.getLatestAction with
        | None => Ok (false, w)
        | Some latestAction =>
            r ← undo_switch latestAction w;
            match r with
            | None => Ok (false, w)
            | Some w =>
                Ok (true,
                    set_history
                      (HistoryManager.markLatestActionAsReverted <$> history w) w)
            end
        end
  end.

(** The [switch] of [redo()]. *)
Definition redo_switch (a : Action) (w : WebGraph) : result (option WebGraph) :=
  match actionType a with
  | UPDATE_APP_MODE =>
      match d_appMode (newData a) with
      | None => Ok None
      | Some m => Ok (Some (set_configuration (with_appMode m (configuration w)) w))
      end
  | UPDATE_OR_ADD_NODE =>
      match d_nodes (newData a) with
      | None => Ok None
      | Some newNodes => Ok (Some (mergeNodes newNodes false w).2)
      end
  | DROP_NODE =>
      match d_nodes (oldData a) with
      | None => Ok None
      | Some oldNodes => Ok (Some (dropNodes (ByNode <$> oldNodes) false w).2)
      end
  | UPDATE_NODE_TYPE =>
      match d_nodeType (newData a) with
      | None => Ok None
      | Some t => Ok (Some (setAndApplyDefaultNodeType t false w).2)
      end
  | REPLACE_EDGES =>
      match d_edges (newData a) with
      | None => Ok None
      | Some newEdges =>
          '(_, w) ← replaceEdges edgeKeyGenerator newEdges false w;
          Ok (Some w)
      end
  | UPDATE_OR_ADD_EDGE =>
      match d_edges (newData a) with
      | None => Ok None
      | Some newEdges =>
          '(_, w) ← mergeEdges edgeKeyGenerator newEdges false w;
          Ok (Some w)
      end
  | TOGGLE_EDGE_RENDERING =>
      match d_toggleEdgeRendering (newData a) with
      | None => Ok None
      | Some b => Ok (Some (toggleEdgeRendering (Some b) false w))
      end
  | TOGGLE_IMPORTANT_EDGE_RENDERING =>
      match d_toggleEdgeRendering (newData a) with
      | None => Ok None
      | Some b => Ok (Some (toggleJustImportantEdgeRendering (Some b) false w))
      end
  | SET_LAYOUT =>
      match d_layoutMapping (newData a) with
      | None => Ok None
      | Some _ => Ok (Some w)
      end
  end.

(** [redo()]. *)
Definition redo (w : WebGraph) : result (bool * WebGraph) :=
  match renderer w with
  | None => Throw RenderingInactive
  | Some _ =>
      if negb (isRenderingActive w) then Throw RenderingInactive
      else if negb (isHistoryEnabled w) then Throw HistoryDisabled
      else
        match history w ≫= HistoryManager.getLatestRevertedAction with
        | None => Ok (false, w)
        | Some latestRevertedAction =>
            r ← redo_switch latestRevertedAction w;
            match r with
            | None => Ok (false, w)
            | Some w =>
                Ok (true,
                    set_history
                      (HistoryManager.markLatestRevertedActionAsNotReverted
                         <$> history w) w)
            end
        end
  end.

End UndoRedo.

(** ** The highlight tracker *)

Section Highlight.

Definition add_highlightedNode (k : NodeKey) (w : WebGraph) : WebGraph :=
  set_highlightedNodes ({[k]} ∪ highlightedNodes w) w.

Definition add_highlightedEdges (es : list EdgeKey) (w : WebGraph) : WebGraph :=
  set_highlightedEdges (list_to_set es ∪ highlightedEdges w) w.

(** The edges of the two [forEach] loops that carry [important === true]. *)
Definition important_edges (g : Graph) (a b : NodeKey) : list EdgeKey :=
  filter (λ e, is_true (Graphology.getEdgeAttribute g e "important") = true)
         (Graphology.edges_path g a b ++ Graphology.edges_path g b a).

(** The test that makes the second-order loops skip an edge. *)
Definition skipped (w : WebGraph) (e : EdgeKey) : bool :=
  match renderer w with
  | Some r => renderJustImportantEdges (settings r)
  | None => false
  end && is_false (Graphology.getEdgeAttribute (graphData w) e "important").

(** The body of the inner [for] loop: one important neighbour of a
    direct neighbour. *)
Definition highlightImportantNeighbor (neighbor : NodeKey) (w : WebGraph)
    (neighborsImportantNeighbor : NodeKey) : WebGraph :=
  let g := graphData w in
  let edgesOut :=
    filter (λ e, skipped w e = false)
           (Graphology.edges_path g neighbor neighborsImportantNeighbor) in
  let edgesIn :=
    if importantNeighborsBidirectional (configuration w)
    then filter (λ e, skipped w e = false)
                (Graphology.edges_path g neighborsImportantNeighbor neighbor)
    else [] in
  let w := add_highlightedEdges (edgesOut ++ edgesIn) w in
  match edgesOut ++ edgesIn with
  | [] => w
  | _ :: _ => add_highlightedNode neighborsImportantNeighbor w
  end.

(** The body of the outer [for] loop: one direct neighbour. *)
Definition highlightNeighbor (node : NodeKey) (w : WebGraph) (neighbor : NodeKey)
    : WebGraph :=
  let g := graphData w in
  if truthy (Graphology.getNodeAttribute g neighbor "hidden") then w
  else
    let '(w, isAtLeastOneEdgeVisible) :=
      if isJustImportantEdgesEnabled w
      then
        let es := important_edges g node neighbor in
        let w := add_highlightedEdges es w in
        match es with
        | [] => (w, false)
        | _ :: _ => (add_highlightedNode neighbor w, true)
        end
      else
        let w := add_highlightedNode neighbor w in
        let w := add_highlightedEdges
                   (Graphology.edges_path g node neighbor
                      ++ Graphology.edges_path g neighbor node) w in
        (w, true) in
    let importantNeighborsOfNeighbor :=
      if isAtLeastOneEdgeVisible && includeImportantNeighbors (configuration w)
      then filter (λ n, is_true (Graphology.getNodeAttribute g n "important")
                        && negb (truthy (Graphology.getNodeAttribute g n "hidden"))
                        = true)
                  (Graphology.neighbors g neighbor)
      else [] in
    foldl (highlightImportantNeighbor neighbor) w importantNeighborsOfNeighbor.

(** [highlightSubgraphOfNode(node)]. *)
Definition highlightSubgraphOfNode (node : NodeKey) (w : WebGraph) : WebGraph :=
  foldl (highlightNeighbor node) w (Graphology.neighbors (graphData w) node).

(** The [enterNode] listener that [render()] installs.  Without
    [highlightSubGraphOnHover] the listener only passes the event on to the
    host.  The option is read when the listeners are installed; nothing
    writes it afterwards. *)
Definition enterNode (node : NodeKey) (w : WebGraph) : WebGraph :=
  if negb (highlightSubGraphOnHover (configuration w)) then w
  else
    let w := set_hoveredNode (Some node) w in
    let w :=
      if negb (isEdgeRenderingDisabled w)
         && negb (truthy (Graphology.getNodeAttribute (graphData w) node "hidden"))
      then highlightSubgraphOfNode node w
      else w in
    add_highlightedNode node w.

End Highlight.

(** ** Leaving a node *)

(** The two [forEach] loops of the [leaveNode] listener: [z] goes back to 0
    on the highlighted nodes and edges. *)
Fixpoint resetNodesZ (ks : list NodeKey) (g : Graph) : result Graph :=
  match ks with
  | [] => Ok g
  | k :: ks' => g ← Graphology.setNodeAttribute k "z" (VNum 0) g; resetNodesZ ks' g
  end.

Fixpoint resetEdgesZ (es : list EdgeKey) (g : Graph) : result Graph :=
  match es with
  | [] => Ok g
  | e :: es' => g ← Graphology.setEdgeAttributeOrThrow e "z" (VNum 0) g; resetEdgesZ es' g
  end.

(** The [leaveNode] listener that [render()] installs.  Without
    [highlightSubGraphOnHover] it only hides the node info box; with it, the
    [match] is the [hasNode(node)] test around the first reset. *)
Definition leaveNode (node : NodeKey) (w : WebGraph) : result WebGraph :=
  if negb (highlightSubGraphOnHover (configuration w))
  then Ok (hideNodeInfoBoxContainer false w)
  else
    let w := set_hoveredNode None w in
    let g :=
      match Graphology.setNodeAttribute node "z" (VNum 0) (graphData w) with
      | Ok g => g
      | Throw _ => graphData w
      end in
    g ← resetNodesZ (elements (highlightedNodes w)) g;
    g ← resetEdgesZ (elements (highlightedEdges w)) g;
    let w := set_graphData g w in
    let w := set_highlightedNodes ∅ w in
    let w := set_highlightedEdges ∅ w in
    Ok (hideNodeInfoBoxContainer false w).

(** ** Notions used to state the properties *)

(** The invariants the store keeps: the end points of an edge are nodes,
    and a graph that is not [multi] has no two edges with the same source
    and target. *)
Definition no_parallel (m : gmap string EdgeData) : Prop :=
  ∀ e1 e2 d1 d2, m !! e1 = Some d1 → m !! e2 = Some d2 →
    source d1 = source d2 → target d1 = target d2 → e1 = e2.

Definition wf_graph (g : Graph) : Prop :=
  (∀ e d, g_edges g !! e = Some d →
     is_Some (g_nodes g !! source d) ∧ is_Some (g_nodes g !! target d)) ∧
  (multi g = false → no_parallel (g_edges g)).

(** No edge is a self-loop on one of the keys [ks], and no edge is a
    self-loop at all.  For a node without self-loops the store's arrays
    hold every edge once and nothing is cut. *)
Definition loop_free_at (ks : list NodeKey) (g : Graph) : Prop :=
  ∀ e d, g_edges g !! e = Some d → source d = target d → source d ∉ ks.

Definition loop_free (g : Graph) : Prop :=
  ∀ e d, g_edges g !! e = Some d → source d ≠ target d.

(** The attributes of the nodes of the graph are values that a copy through
    JSON text gives back unchanged. *)
Definition json_nodes (g : Graph) : Prop :=
  ∀ k a i v, g_nodes g !! k = Some a → a !! i = Some v → json_copy_value v = Some v.

(** An edge touches one of the keys [ks]. *)
Definition touches (ks : list NodeKey) (d : EdgeData) : Prop :=
  source d ∈ ks ∨ target d ∈ ks.

#[global] Instance touches_dec ks d : Decision (touches ks d).
Proof. unfold touches. apply _. Defined.

(** An edge with [hidden] set to [false], as the replay of [mergeNodes]
    leaves it. *)
Definition unhidden (d : EdgeData) : EdgeData :=
  mkEdgeData (source d) (target d) (<["hidden" := VBool false]> (attributes d)).

(** The highlight sets only hold keys of the graph. *)
Definition highlight_in_graph (w : WebGraph) : Prop :=
  (∀ k, k ∈ highlightedNodes w → is_Some (g_nodes (graphData w) !! k)) ∧
  (∀ e, e ∈ highlightedEdges w → is_Some (g_edges (graphData w) !! e)).

(** A node is shown: its [hidden] attribute is not truthy. *)
Definition visible (g : Graph) (k : NodeKey) : Prop :=
  truthy (Graphology.getNodeAttribute g k "hidden") = false.


(** A node with its attributes, as [dropNodes] and [mergeNodes] store it in
    the history. *)
Definition node_record (p : string * Attributes) : SerializedNode :=
  mkNode p.1 (Some p.2).

(** What the recorded loop of [mergeNodes] snapshots when the keys are
    pairwise distinct: the attributes the merged nodes had before the call. *)
Definition snapshot (g : Graph) (nodes : list SerializedNode)
    : list (string * Attributes) :=
  omap (λ n, (λ a, (node_key n, a)) <$> g_nodes g !! node_key n) nodes.

(** The fields that the loops over nodes and edges leave alone. *)
Definition same_frame (w w' : WebGraph) : Prop :=
  configuration w' = configuration w ∧ appState w' = appState w ∧
  renderer w' = renderer w ∧ isHistoryEnabled w' = isHistoryEnabled w ∧
  history w' = history w.

(** The payload the [switch] of [undo()] asks for, by action type. *)
Definition has_undo_payload (a : Action) : bool :=
  match actionType a with
  | UPDATE_APP_MODE => bool_decide (is_Some (d_appMode (oldData a)))
  | UPDATE_OR_ADD_NODE =>
      bool_decide (is_Some (d_nodes (oldData a)))
      && bool_decide (is_Some (d_nodes (newData a)))
  | DROP_NODE =>
      bool_decide (is_Some (d_nodes (oldData a)))
      && bool_decide (is_Some (d_edges (oldData a)))
  | UPDATE_NODE_TYPE => bool_decide (is_Some (d_nodeType (oldData a)))
  | REPLACE_EDGES | UPDATE_OR_ADD_EDGE => bool_decide (is_Some (d_edges (oldData a)))
  | TOGGLE_EDGE_RENDERING | TOGGLE_IMPORTANT_EDGE_RENDERING =>
      bool_decide (is_Some (d_toggleEdgeRendering (oldData a)))
  | SET_LAYOUT => bool_decide (is_Some (d_layoutMapping (oldData a)))
  end.

(** The payload the [switch] of [redo()] asks for. *)
Definition has_redo_payload (a : Action) : bool :=
  match actionType a with
  | UPDATE_APP_MODE => bool_decide (is_Some (d_appMode (newData a)))
  | UPDATE_OR_ADD_NODE => bool_decide (is_Some (d_nodes (newData a)))
  | DROP_NODE => bool_decide (is_Some (d_nodes (oldData a)))
  | UPDATE_NODE_TYPE => bool_decide (is_Some (d_nodeType (newData a)))
  | REPLACE_EDGES | UPDATE_OR_ADD_EDGE => bool_decide (is_Some (d_edges (newData a)))
  | TOGGLE_EDGE_RENDERING | TOGGLE_IMPORTANT_EDGE_RENDERING =>
      bool_decide (is_Some (d_toggleEdgeRendering (newData a)))
  | SET_LAYOUT => bool_decide (is_Some (d_layoutMapping (newData a)))
  end.

(** The replays that merge edges into the store, which may throw there. *)
Definition undo_merges_edges (a : Action) : bool :=
  match actionType a with
  | DROP_NODE | REPLACE_EDGES | UPDATE_OR_ADD_EDGE => true
  | _ => false
  end.

Definition redo_merges_edges (a : Action) : bool :=
  match actionType a with
  | REPLACE_EDGES | UPDATE_OR_ADD_EDGE => true
  | _ => false
  end.

(** What one merge of the store does to the nodes: none is lost or changed,
    and a new one is an end point with no attributes. *)
Definition nodes_grow (s t : NodeKey) (g g' : Graph) : Prop :=
  multi g' = multi g ∧
  (∀ k a, g_nodes g !! k = Some a → g_nodes g' !! k = Some a) ∧
  (∀ k a, g_nodes g' !! k = Some a →
     g_nodes g !! k = Some a ∨ (a = ∅ ∧ (k = s ∨ k = t))) ∧
  (∀ e d, g_edges g' !! e = Some d →
     (∃ d0, g_edges g !! e = Some d0 ∧ source d0 = source d ∧ target d0 = target d)
     ∨ (source d = s ∧ target d = t)) ∧
  (wf_graph g →
     wf_graph g' ∧ is_Some (g_nodes g' !! s) ∧ is_Some (g_nodes g' !! t)).

(** ** Sample instances *)

Module Sample.

(** A key generator in the style of the store: a prefix and a counter. *)
Definition keyGenerator (g : Graph) : EdgeKey :=
  "geid_" +:+ pretty (size (g_edges g)).

Definition sigma : Settings := mkSettings false false false RING.

(** History on, sub-graph highlighting on, important neighbours off. *)
Definition config : Configuration :=
  mkConfiguration STATIC true RING true false false false sigma.



(** Two nodes and one hidden edge between them. *)
Definition pair : Graph :=
  mkGraph true
    (<["n1" := {["x" := VNum 1]}]> (<["n2" := {["x" := VNum 2]}]> ∅))
    (<["e1" := mkEdgeData "n1" "n2" {["hidden" := VBool true]}]> ∅).

(** The same, but the edge has the empty string as its key. *)
Definition pair_empty_key : Graph :=
  mkGraph true
    (<["n1" := {["x" := VNum 1]}]> (<["n2" := {["x" := VNum 2]}]> ∅))
    (<["" := mkEdgeData "n1" "n2" {["hidden" := VBool true]}]> ∅).

(** A hovered node [h] with an important edge to [m] and an ordinary edge
    to [n]; [n] is an important node and [m] has an important edge to it. *)
Definition triangle : Graph :=
  mkGraph true
    (<["h" := ∅]> (<["m" := ∅]> (<["n" := {["important" := VBool true]}]> ∅)))
    (<["hm" := mkEdgeData "h" "m" {["important" := VBool true]}]>
       (<["hn" := mkEdgeData "h" "n" ∅]>
          (<["mn" := mkEdgeData "m" "n" {["important" := VBool true]}]> ∅))).

(** The instance after [new WebGraph(...)] and [render()]. *)
Definition rendered (g : Graph) (c : Configuration) : WebGraph :=
  match render (new_WebGraph g c) with
  | Ok w => w
  | Throw _ => new_WebGraph g c
  end.


(** [mergeNodes] with the same key twice. *)
Definition twice : list SerializedNode :=
  [mkNode "n1" (Some {["x" := VNum 10]}); mkNode "n1" (Some {["x" := VNum 20]})].

(** [mergeNodes(twice)] and then [undo()]. *)
Definition twice_undone : WebGraph :=
  match undo keyGenerator (mergeNodes twice true (rendered pair config)).2 with
  | Ok (_, w) => w
  | Throw _ => rendered pair config
  end.

(** [mergeNodes] with an existing and a new node. *)
Definition two_nodes : list SerializedNode :=
  [mkNode "n1" (Some {["x" := VNum 10]}); mkNode "n3" (Some ∅)].

(** [toggleEdgeRendering()] and then [undo()]. *)
Definition toggled_undone : WebGraph :=
  match undo keyGenerator (toggleEdgeRendering None true (rendered pair config)) with
  | Ok (_, w) => w
  | Throw _ => rendered pair config
  end.

(** An edge with a key and an edge without one, to a node [n3] that [pair]
    does not have. *)
Definition new_edges : list SerializedEdge :=
  [mkEdge (Some "e2") "n2" "n1" (Some {["weight" := VNum 3]}); mkEdge None "n1" "n3" None].

(** [mergeEdges(new_edges)] on the rendered [pair]. *)
Definition edges_merged : WebGraph :=
  match mergeEdges keyGenerator new_edges true (rendered pair config) with
  | Ok (_, w) => w
  | Throw _ => rendered pair config
  end.

(** [replaceEdges(new_edges)] on the rendered [pair]. *)
Definition edges_replaced : WebGraph :=
  match replaceEdges keyGenerator new_edges true (rendered pair config) with
  | Ok (_, w) => w
  | Throw _ => rendered pair config
  end.

(** The rendered [triangle] with the pointer on [h]. *)
Definition hovered : WebGraph := enterNode "h" (rendered triangle config).

End Sample.

(** * Properties *)

(** ** The activation state is only written by [render] and [destroy] *)

Section Activation.

Context (edgeKeyGenerator : Graph → EdgeKey).

Lemma appState_history_addAction old ty new w :
  appState (history_addAction old ty new w) = appState w.
Proof. reflexivity. Qed.

Lemma appState_toggleEdgeRendering hide b w :
  appState (toggleEdgeRendering hide b w) = appState w.
Proof. unfold toggleEdgeRendering. by case_match. Qed.

Lemma appState_toggleJustImportantEdgeRendering r b w :
  appState (toggleJustImportantEdgeRendering r b w) = appState w.
Proof.
  unfold toggleJustImportantEdgeRendering.
  case_match; rewrite ?appState_history_addAction, appState_toggleEdgeRendering; done.
Qed.

Lemma appState_hideNodeInfoBoxContainer b w :
  appState (hideNodeInfoBoxContainer b w) = appState w.
Proof. unfold hideNodeInfoBoxContainer. by repeat case_match. Qed.

Lemma appState_dropNodes_loop rec nodes acc :
  appState (foldl (dropNodes_step rec) acc nodes).1.1 = appState acc.1.1.
Proof.
  revert acc. induction nodes as [|n nodes IH]; intros acc; [done|].
  simpl. rewrite IH. destruct acc as [[w ns] es]. unfold dropNodes_step.
  case_match; [|done]. simpl. by rewrite appState_hideNodeInfoBoxContainer.
Qed.

Lemma appState_dropNodes nodes b w :
  appState (dropNodes nodes b w).2 = appState w.
Proof.
  unfold dropNodes.
  pose proof (appState_dropNodes_loop (isHistoryEnabled w && b) nodes (w, [], [])) as H.
  destruct (foldl _ _ nodes) as [[w' ns] es]. simpl in *.
  by case_match.
Qed.

Lemma appState_mergeNodes nodes b w :
  appState (mergeNodes nodes b w).2 = appState w.
Proof.
  unfold mergeNodes. destruct nodes as [|n nodes]; [done|].
  destruct (foldl _ _ _) as [g ex]. by repeat case_match.
Qed.

Lemma appState_mergeEdges edges b w r w' :
  mergeEdges edgeKeyGenerator edges b w = Ok (r, w') → appState w' = appState w.
Proof.
  unfold mergeEdges. destruct edges as [|e edges]; [naive_solver|].
  destruct (mergeEdges_loop _ _ _ _ _) as [[g ex]|]; simpl; [|done].
  intros [= <- <-]. by case_match.
Qed.

Lemma appState_replaceEdges edges b w r w' :
  replaceEdges edgeKeyGenerator edges b w = Ok (r, w') → appState w' = appState w.
Proof.
  unfold replaceEdges.
  destruct (mergeEdges _ _ _ _) as [[r1 w1]|] eqn:E; simpl; [|done].
  intros [= <- <-]. apply appState_mergeEdges in E. rewrite E. by case_match.
Qed.

Lemma appState_setAndApplyDefaultNodeType t b w :
  appState (setAndApplyDefaultNodeType t b w).2 = appState w.
Proof. unfold setAndApplyDefaultNodeType. by repeat case_match. Qed.

Lemma appState_undo_switch a w w' :
  undo_switch edgeKeyGenerator a w = Ok (Some w') → appState w' = appState w.
Proof.
  unfold undo_switch. intros H.
  destruct (actionType a); repeat case_match; simplify_eq/=; try done.
  - match goal with
    | H1 : dropNodes ?ns ?b ?w0 = (_, ?w1), H2 : mergeNodes ?ms ?c ?w1 = (_, ?w2) |- _ =>
        pose proof (appState_dropNodes ns b w0) as E1;
        pose proof (appState_mergeNodes ms c w1) as E2;
        rewrite H1 in E1; rewrite H2 in E2; simpl in *; congruence
    end.
  - match goal with
    | H1 : mergeNodes ?ms ?c ?w0 = (_, ?w1) |- _ =>
        pose proof (appState_mergeNodes ms c w0) as E1; rewrite H1 in E1;
        destruct (mergeEdges edgeKeyGenerator _ false w1) as [[r2 w2]|] eqn:E2;
        simplify_eq/=; apply appState_mergeEdges in E2; congruence
    end.
  - apply appState_setAndApplyDefaultNodeType.
  - destruct (replaceEdges _ _ _ _) as [[r2 w2]|] eqn:E2; simplify_eq/=.
    by apply appState_replaceEdges in E2.
  - apply appState_toggleEdgeRendering.
  - apply appState_toggleJustImportantEdgeRendering.
Qed.

Lemma appState_redo_switch a w w' :
  redo_switch edgeKeyGenerator a w = Ok (Some w') → appState w' = appState w.
Proof.
  unfold redo_switch. intros H.
  destruct (actionType a); repeat case_match; simplify_eq/=; try done.
  - apply appState_mergeNodes.
  - apply appState_dropNodes.
  - apply appState_setAndApplyDefaultNodeType.
  - destruct (replaceEdges _ _ _ _) as [[r2 w2]|] eqn:E2; simplify_eq/=.
    by apply appState_replaceEdges in E2.
  - destruct (mergeEdges _ _ _ _) as [[r2 w2]|] eqn:E2; simplify_eq/=.
    by apply appState_mergeEdges in E2.
  - apply appState_toggleEdgeRendering.
  - apply appState_toggleJustImportantEdgeRendering.
Qed.

Lemma appState_undo w r w' :
  undo edgeKeyGenerator w = Ok (r, w') → appState w' = appState w.
Proof.
  unfold undo. intros H. repeat case_match; simplify_eq/=; try done.
  destruct (undo_switch _ _ _) as [[w1|]|] eqn:E; simplify_eq/=; [|done].
  by apply appState_undo_switch in E.
Qed.

Lemma appState_redo w r w' :
  redo edgeKeyGenerator w = Ok (r, w') → appState w' = appState w.
Proof.
  unfold redo. intros H. repeat case_match; simplify_eq/=; try done.
  destruct (redo_switch _ _ _) as [[w1|]|] eqn:E; simplify_eq/=; [|done].
  by apply appState_redo_switch in E.
Qed.

Lemma appState_highlightImportantNeighbor n ns w :
  appState (foldl (highlightImportantNeighbor n) w ns) = appState w.
Proof.
  revert w. induction ns as [|x ns IH]; intros w; [done|].
  simpl. rewrite IH. unfold highlightImportantNeighbor. by case_match.
Qed.

Lemma appState_highlightNeighbor node w n :
  appState (highlightNeighbor node w n) = appState w.
Proof.
  unfold highlightNeighbor. case_match; [done|].
  case_match. rewrite appState_highlightImportantNeighbor.
  repeat case_match; by simplify_eq/=.
Qed.

Lemma appState_highlightSubgraphOfNode node w :
  appState (highlightSubgraphOfNode node w) = appState w.
Proof.
  unfold highlightSubgraphOfNode.
  generalize (Graphology.neighbors (graphData w) node). intros ns.
  revert w. induction ns as [|x ns IH]; intros w; [done|].
  simpl. by rewrite IH, appState_highlightNeighbor.
Qed.

Lemma appState_enterNode node w : appState (enterNode node w) = appState w.
Proof.
  unfold enterNode. case_match; [done|]. simpl. case_match; [|done].
  by rewrite appState_highlightSubgraphOfNode.
Qed.

End Activation.

(** ** Lifecycle, toggles and return values *)

Section Lifecycle.

Context (edgeKeyGenerator : Graph → EdgeKey).

Lemma render_inactive w :
  appState w = INACTIVE →
  ∃ w', render w = Ok w' ∧ appState w' = ACTIVE ∧ is_Some (renderer w').
Proof.
  intros H. unfold render, isRenderingActive. rewrite H. simpl.
  eexists. split; [done|]. split; [by case_match|].
  case_match; simpl; eauto.
Qed.

(** C6.  [render()] throws when the widget is ACTIVE, so a second
    [render()] right after a successful one fails; after [destroy()] the
    widget is INACTIVE and [render()] succeeds again.  [render] takes
    INACTIVE to ACTIVE, [destroy] ends in INACTIVE, and no other method
    writes the activation state. *)
Theorem render_destroy_lifecycle (w : WebGraph) :
  (appState w = ACTIVE → render w = Throw AlreadyRendering) ∧
  (∀ w', render w = Ok w' →
     appState w = INACTIVE ∧ appState w' = ACTIVE ∧
     render w' = Throw AlreadyRendering) ∧
  (appState (destroy w) = INACTIVE ∧
   ∃ w', render (destroy w) = Ok w' ∧ appState w' = ACTIVE) ∧
  (∀ nodes b, appState (mergeNodes nodes b w).2 = appState w) ∧
  (∀ nodes b, appState (dropNodes nodes b w).2 = appState w) ∧
  (∀ edges b r w', mergeEdges edgeKeyGenerator edges b w = Ok (r, w') →
     appState w' = appState w) ∧
  (∀ edges b r w', replaceEdges edgeKeyGenerator edges b w = Ok (r, w') →
     appState w' = appState w) ∧
  (∀ hide b, appState (toggleEdgeRendering hide b w) = appState w) ∧
  (∀ imp b, appState (toggleJustImportantEdgeRendering imp b w) = appState w) ∧
  (∀ t b, appState (setAndApplyDefaultNodeType t b w).2 = appState w) ∧
  (∀ m, appState (set_appMode m w) = appState w) ∧
  (∀ r w', undo edgeKeyGenerator w = Ok (r, w') → appState w' = appState w) ∧
  (∀ r w', redo edgeKeyGenerator w = Ok (r, w') → appState w' = appState w) ∧
  appState (clearHistory w).2 = appState w ∧
  (∀ x, appState (exportGraph x w).2 = appState w) ∧
  (∀ node, appState (enterNode node w) = appState w).
Proof.
  split_and!.
  - intros H. unfold render, isRenderingActive. by rewrite H.
  - intros w' H. destruct (appState w) eqn:E.
    + destruct (render_inactive w E) as (w1 & H1 & H2 & _).
      rewrite H1 in H. simplify_eq. split_and!; [done..|].
      unfold render, isRenderingActive. by rewrite H2.
    + unfold render, isRenderingActive in H. by rewrite E in H.
  - done.
  - destruct (render_inactive (destroy w) eq_refl) as (w1 & H1 & H2 & _). eauto.
  - intros. apply appState_mergeNodes.
  - intros. apply appState_dropNodes.
  - intros * H. by eapply appState_mergeEdges.
  - intros * H. by eapply appState_replaceEdges.
  - intros. apply appState_toggleEdgeRendering.
  - intros. apply appState_toggleJustImportantEdgeRendering.
  - intros. apply appState_setAndApplyDefaultNodeType.
  - intros. unfold set_appMode. by case_match.
  - intros * H. by eapply appState_undo.
  - intros * H. by eapply appState_redo.
  - done.
  - intros []; done.
  - intros. apply appState_enterNode.
Qed.

(** C7.  [toggleEdgeRendering()] without an argument negates the
    edge-rendering-disabled flag, and two such calls give the flag its
    first value back. *)
Theorem toggleEdgeRendering_involution (b1 b2 : bool) (w : WebGraph) :
  isEdgeRenderingDisabled (toggleEdgeRendering None b1 w)
    = negb (isEdgeRenderingDisabled w) ∧
  isEdgeRenderingDisabled (toggleEdgeRendering None b2 (toggleEdgeRendering None b1 w))
    = isEdgeRenderingDisabled w.
Proof.
  assert (∀ b w, isEdgeRenderingDisabled (toggleEdgeRendering None b w)
                 = negb (isEdgeRenderingDisabled w)) as H.
  { intros b w0. unfold toggleEdgeRendering. by case_match. }
  split; [apply H|]. rewrite !H. apply negb_involutive.
Qed.

(** C8.  [mergeNodes] returns [false] exactly for the empty array and
    [true] for every other input; [dropNodes] returns [true] for every
    input, the empty one and keys that are not in the graph included. *)
Theorem mergeNodes_dropNodes_return (nodes : list SerializedNode)
    (refs : list NodeRef) (b : bool) (w : WebGraph) :
  ((mergeNodes nodes b w).1 = false ↔ nodes = []) ∧
  ((mergeNodes nodes b w).1 = true ↔ nodes ≠ []) ∧
  (dropNodes refs b w).1 = true.
Proof.
  split_and!.
  - unfold mergeNodes. destruct nodes; [done|].
    destruct (foldl _ _ _). simpl. split; done.
  - unfold mergeNodes. destruct nodes; [done|].
    destruct (foldl _ _ _). simpl. split; done.
  - unfold dropNodes. by destruct (foldl _ _ _) as [[? ?] ?].
Qed.

(** C9.  [exportGraph(true)] clears the edges of the live graph before it
    exports: afterwards the graph of the instance has no edge (its nodes
    are untouched) and neither has the exported copy.  [exportGraph(false)]
    leaves the instance as it was. *)
Theorem exportGraph_clears_edges (w : WebGraph) :
  g_edges (graphData (exportGraph true w).2) = ∅ ∧
  g_nodes (graphData (exportGraph true w).2) = g_nodes (graphData w) ∧
  (exportGraph true w).1.2 = [] ∧
  (exportGraph false w).2 = w ∧
  (exportGraph false w).1 = export (graphData w).
Proof. by split_and!. Qed.

(** C10.  [destroy()] never throws; on a widget that is already INACTIVE,
    as after an earlier [destroy()], it ends INACTIVE with no renderer,
    empty highlight sets, no hovered node and no history, and a second
    [destroy()] changes nothing. *)
Theorem destroy_idempotent (w : WebGraph) :
  appState (destroy w) = INACTIVE ∧
  renderer (destroy w) = None ∧
  highlightedNodes (destroy w) = ∅ ∧
  highlightedEdges (destroy w) = ∅ ∧
  hoveredNode (destroy w) = None ∧
  history (destroy w) = None ∧
  destroy (destroy w) = destroy w.
Proof. by split_and!. Qed.

Lemma addAction_addAction old1 ty1 new1 old2 ty2 new2 (h : HistoryManager.t) :
  HistoryManager.addAction old2 ty2 new2 (HistoryManager.addAction old1 ty1 new1 h)
  = filter (λ a, isReverted a = false) h
      ++ [mkAction old1 ty1 new1 false; mkAction old2 ty2 new2 false].
Proof.
  unfold HistoryManager.addAction.
  rewrite filter_app, <- (assoc_L (++)). f_equal.
  rewrite list_filter_filter. apply list_filter_iff. intros a. tauto.
Qed.

(** C3.  With history enabled and [addToHistory = true],
    [toggleJustImportantEdgeRendering] turns general edge rendering on and
    appends two actions to the log: the one of its inner
    [toggleEdgeRendering(false)], then its own. *)
Theorem toggleJustImportantEdgeRendering_history
    (imp : option bool) (w : WebGraph) (h : HistoryManager.t) :
  isHistoryEnabled w = true →
  history w = Some h →
  let w' := toggleJustImportantEdgeRendering imp true w in
  isEdgeRenderingDisabled w' = false ∧
  history w' =
    Some (filter (λ a, isReverted a = false) h ++
          [ mkAction (mkData None None None None (Some (isEdgeRenderingDisabled w)) None)
              TOGGLE_EDGE_RENDERING
              (mkData None None None None (Some false) None) false;
            mkAction (mkData None None None None (Some (isJustImportantEdgesEnabled w)) None)
              TOGGLE_IMPORTANT_EDGE_RENDERING
              (mkData None None None None imp None) false ]).
Proof.
  intros He Hh w'. subst w'.
  unfold toggleJustImportantEdgeRendering, toggleEdgeRendering.
  simpl. rewrite He. simpl. unfold history_addAction. simpl. rewrite Hh, He. simpl.
  split; [done|]. by rewrite addAction_addAction.
Qed.

End Lifecycle.

(** ** What [undo] and [redo] return *)

Section Outcome.

Context (edgeKeyGenerator : Graph → EdgeKey).

Lemma getLatestAction_None (h : HistoryManager.t) :
  HistoryManager.getLatestAction h = None ↔ Forall (λ a, isReverted a = true) h.
Proof.
  unfold HistoryManager.getLatestAction. rewrite last_None.
  induction h as [|a h IH]; simpl.
  - split; [constructor|done].
  - destruct (isReverted a) eqn:E.
    + rewrite filter_cons_False by congruence.
      rewrite Forall_cons, IH. tauto.
    + rewrite filter_cons_True by done.
      rewrite Forall_cons. split; [done|]. intros [? _]. congruence.
Qed.

Lemma getLatestRevertedAction_None (h : HistoryManager.t) :
  HistoryManager.getLatestRevertedAction h = None
  ↔ Forall (λ a, isReverted a = false) h.
Proof.
  unfold HistoryManager.getLatestRevertedAction. rewrite head_None.
  induction h as [|a h IH]; simpl.
  - split; [constructor|done].
  - destruct (isReverted a) eqn:E.
    + rewrite filter_cons_True by done.
      rewrite Forall_cons. split; [done|]. intros [? _]. congruence.
    + rewrite filter_cons_False by congruence.
      rewrite Forall_cons, IH. tauto.
Qed.

Lemma undo_switch_payload a w :
  (has_undo_payload a = false → undo_switch edgeKeyGenerator a w = Ok None) ∧
  (has_undo_payload a = true →
     ∀ r, undo_switch edgeKeyGenerator a w = Ok r → is_Some r) ∧
  (has_undo_payload a = true → undo_merges_edges a = false →
     ∃ w', undo_switch edgeKeyGenerator a w = Ok (Some w')).
Proof.
  unfold has_undo_payload, undo_merges_edges, undo_switch.
  destruct a as [[m ns es t b l] ty [m' ns' es' t' b' l'] rv]; simpl.
  destruct ty; simpl; split_and!;
    rewrite ?andb_true_iff, ?andb_false_iff, ?bool_decide_eq_true,
      ?bool_decide_eq_false, <- ?eq_None_not_Some;
    intros; destruct_and?; destruct_or?; simplify_eq/=;
    repeat match goal with H : is_Some _ |- _ => destruct H as [? ->] end;
    repeat case_match; simplify_eq/=; eauto;
    repeat match goal with
      | H : context [mergeEdges ?g ?e ?b ?w] |- _ =>
          destruct (mergeEdges g e b w) as [[? ?]|]; simplify_eq/=
      | H : context [replaceEdges ?g ?e ?b ?w] |- _ =>
          destruct (replaceEdges g e b w) as [[? ?]|]; simplify_eq/=
      end; eauto.
Qed.

Lemma redo_switch_payload a w :
  (has_redo_payload a = false → redo_switch edgeKeyGenerator a w = Ok None) ∧
  (has_redo_payload a = true →
     ∀ r, redo_switch edgeKeyGenerator a w = Ok r → is_Some r) ∧
  (has_redo_payload a = true → redo_merges_edges a = false →
     ∃ w', redo_switch edgeKeyGenerator a w = Ok (Some w')).
Proof.
  unfold has_redo_payload, redo_merges_edges, redo_switch.
  destruct a as [[m ns es t b l] ty [m' ns' es' t' b' l'] rv]; simpl.
  destruct ty; simpl; split_and!;
    rewrite ?andb_true_iff, ?andb_false_iff, ?bool_decide_eq_true,
      ?bool_decide_eq_false, <- ?eq_None_not_Some;
    intros; destruct_and?; destruct_or?; simplify_eq/=;
    repeat match goal with H : is_Some _ |- _ => destruct H as [? ->] end;
    repeat case_match; simplify_eq/=; eauto;
    repeat match goal with
      | H : context [mergeEdges ?g ?e ?b ?w] |- _ =>
          destruct (mergeEdges g e b w) as [[? ?]|]; simplify_eq/=
      | H : context [replaceEdges ?g ?e ?b ?w] |- _ =>
          destruct (replaceEdges g e b w) as [[? ?]|]; simplify_eq/=
      end; eauto.
Qed.

(** C4 (amended).  [undo()] and [redo()] throw when rendering is inactive
    and when the history is disabled.  When rendering is active and the
    history is enabled, each returns [false] and changes nothing when no
    eligible action exists (no non-reverted action for [undo], no reverted
    one for [redo]) and also when the eligible action lacks the payload its
    type needs; with the payload there, a call that returns returns [true],
    and it does return unless the replay merges edges into the store, where
    the store may throw. *)
Theorem undo_redo_outcome (w : WebGraph) :
  (renderer w = None ∨ appState w = INACTIVE →
     undo edgeKeyGenerator w = Throw RenderingInactive ∧
     redo edgeKeyGenerator w = Throw RenderingInactive) ∧
  (is_Some (renderer w) → appState w = ACTIVE → isHistoryEnabled w = false →
     undo edgeKeyGenerator w = Throw HistoryDisabled ∧
     redo edgeKeyGenerator w = Throw HistoryDisabled) ∧
  (is_Some (renderer w) → appState w = ACTIVE → isHistoryEnabled w = true →
     (∀ h, history w = Some h →
        (history w ≫= HistoryManager.getLatestAction = None
           ↔ Forall (λ a, isReverted a = true) h) ∧
        (history w ≫= HistoryManager.getLatestRevertedAction = None
           ↔ Forall (λ a, isReverted a = false) h)) ∧
     (history w ≫= HistoryManager.getLatestAction = None →
        undo edgeKeyGenerator w = Ok (false, w)) ∧
     (history w ≫= HistoryManager.getLatestRevertedAction = None →
        redo edgeKeyGenerator w = Ok (false, w)) ∧
     (∀ a, history w ≫= HistoryManager.getLatestAction = Some a →
        (has_undo_payload a = false → undo edgeKeyGenerator w = Ok (false, w)) ∧
        (has_undo_payload a = true →
           (∀ r w', undo edgeKeyGenerator w = Ok (r, w') → r = true) ∧
           (undo_merges_edges a = false →
              ∃ w', undo edgeKeyGenerator w = Ok (true, w')))) ∧
     (∀ a, history w ≫= HistoryManager.getLatestRevertedAction = Some a →
        (has_redo_payload a = false → redo edgeKeyGenerator w = Ok (false, w)) ∧
        (has_redo_payload a = true →
           (∀ r w', redo edgeKeyGenerator w = Ok (r, w') → r = true) ∧
           (redo_merges_edges a = false →
              ∃ w', redo edgeKeyGenerator w = Ok (true, w'))))).
Proof.
  split_and!.
  - intros [H|H]; unfold undo, redo, isRenderingActive; rewrite H; [done|].
    by destruct (renderer w).
  - intros [r Hr] Ha He. unfold undo, redo, isRenderingActive.
    by rewrite Hr, Ha, He.
  - intros [r Hr] Ha He. split_and!.
    + intros h Hh. rewrite Hh. simpl. split.
      * apply getLatestAction_None.
      * apply getLatestRevertedAction_None.
    + intros Hn. unfold undo, isRenderingActive. by rewrite Hr, Ha, He, Hn.
    + intros Hn. unfold redo, isRenderingActive. by rewrite Hr, Ha, He, Hn.
    + intros a Hl.
      destruct (undo_switch_payload a w) as (P1 & P2 & P3).
      unfold undo, isRenderingActive. rewrite Hr, Ha, He, Hl. simpl.
      split_and!.
      * intros Hp. by rewrite (P1 Hp).
      * intros Hp. split.
        -- intros r0 w'. destruct (undo_switch _ _ _) as [o|] eqn:E; [|done].
           destruct (P2 Hp o eq_refl) as [w1 ->]. simpl. by intros [= <- _].
        -- intros Hm. destruct (P3 Hp Hm) as [w1 ->]. simpl. eauto.
    + intros a Hl.
      destruct (redo_switch_payload a w) as (P1 & P2 & P3).
      unfold redo, isRenderingActive. rewrite Hr, Ha, He, Hl. simpl.
      split_and!.
      * intros Hp. by rewrite (P1 Hp).
      * intros Hp. split.
        -- intros r0 w'. destruct (redo_switch _ _ _) as [o|] eqn:E; [|done].
           destruct (P2 Hp o eq_refl) as [w1 ->]. simpl. by intros [= <- _].
        -- intros Hm. destruct (P3 Hp Hm) as [w1 ->]. simpl. eauto.
Qed.

End Outcome.


(** After [render()], [toggleEdgeRendering()] and [undo()], the log holds a
    reverted action, yet [redo()] returns [false]: the action was stored
    with the argument of the call, which was [undefined]. *)
Lemma redo_false_with_reverted_action :
  undo Sample.keyGenerator
    (toggleEdgeRendering None true (Sample.rendered Sample.pair Sample.config))
  = Ok (true, Sample.toggled_undone) ∧
  appState Sample.toggled_undone = ACTIVE ∧
  is_Some (renderer Sample.toggled_undone) ∧
  isHistoryEnabled Sample.toggled_undone = true ∧
  is_Some (history Sample.toggled_undone ≫= HistoryManager.getLatestRevertedAction) ∧
  redo Sample.keyGenerator Sample.toggled_undone = Ok (false, Sample.toggled_undone).
Proof. vm_compute. split_and!; eauto. Qed.

(** On a freshly rendered instance the log is empty and [undo()] answers
    [false]. *)
Lemma undo_redo_outcome_witness :
  undo Sample.keyGenerator (Sample.rendered Sample.pair Sample.config)
  = Ok (false, Sample.rendered Sample.pair Sample.config).
Proof.
  destruct (undo_redo_outcome Sample.keyGenerator
              (Sample.rendered Sample.pair Sample.config)) as (_ & _ & H).
  destruct H as (_ & H & _).
  - vm_compute. eauto.
  - vm_compute. reflexivity.
  - vm_compute. reflexivity.
  - apply H. vm_compute. reflexivity.
Defined.

(** A rendered instance is ACTIVE, and [render()] on it throws. *)
Lemma render_destroy_lifecycle_witness :
  render (Sample.rendered Sample.pair Sample.config) = Throw AlreadyRendering.
Proof.
  destruct (render_destroy_lifecycle Sample.keyGenerator
              (Sample.rendered Sample.pair Sample.config)) as (H & _).
  apply H. vm_compute. reflexivity.
Defined.

(** The two actions the toggle appends to the empty log of a fresh
    instance. *)
Lemma toggleJustImportantEdgeRendering_history_witness :
  actionType <$>
    default [] (history (toggleJustImportantEdgeRendering (Some true) true
                           (Sample.rendered Sample.pair Sample.config)))
  = [TOGGLE_EDGE_RENDERING; TOGGLE_IMPORTANT_EDGE_RENDERING].
Proof.
  destruct (toggleJustImportantEdgeRendering_history (Some true)
              (Sample.rendered Sample.pair Sample.config) [])
    as [_ H].
  - vm_compute. reflexivity.
  - vm_compute. reflexivity.
  - rewrite H. reflexivity.
Defined.

(** ** The arrays of the store on nodes without self-loops *)

Section StoreArrays.

Lemma self_loops_0 g k :
  (∀ e d, g_edges g !! e = Some d → source d = target d → source d ≠ k) →
  Graphology.self_loops g k = 0.
Proof.
  intros H. unfold Graphology.self_loops.
  destruct (filter _ (map_to_list (g_edges g))) as [|[e d] l] eqn:E; [done|].
  assert ((e, d) ∈ filter (λ p : string * EdgeData, source p.2 = k ∧ target p.2 = k)
                     (map_to_list (g_edges g))) as Hin
    by (rewrite E; apply list_elem_of_here).
  apply list_elem_of_filter in Hin as [[Hs Ht] Hin]. simpl in Hs, Ht.
  apply elem_of_map_to_list in Hin. destruct (H e d Hin); congruence.
Qed.


Lemma self_loops_loop_free_at g ks k :
  loop_free_at ks g → k ∈ ks → Graphology.self_loops g k = 0.
Proof.
  intros H Hk. apply self_loops_0. intros e d Hd Hst Hk'.
  apply (H e d Hd Hst). by rewrite Hk'.
Qed.

Lemma cut_loops_id {A} g k (l : list A) :
  Graphology.self_loops g k = 0 → Graphology.cut_loops g k l = l.
Proof.
  intros H. unfold Graphology.cut_loops. rewrite H, Nat.sub_0_r. by apply take_ge.
Qed.





End StoreArrays.

(** ** The highlight tracker in important-only mode *)

Section ImportantOnly.

Lemma elem_of_edges_between g s t e :
  e ∈ Graphology.edges_between g s t
  ↔ ∃ d, g_edges g !! e = Some d ∧ source d = s ∧ target d = t.
Proof.
  unfold Graphology.edges_between, Graphology.is_between.
  rewrite list_elem_of_fmap. split.
  - intros ([e' d] & -> & H). apply list_elem_of_filter in H as [H1 H2].
    apply elem_of_map_to_list in H2. simpl in *.
    apply andb_true_iff in H1 as [?%bool_decide_eq_true ?%bool_decide_eq_true].
    eauto.
  - intros (d & H & Hs & Ht). exists (e, d). split; [done|].
    apply list_elem_of_filter. split.
    + simpl. by rewrite !bool_decide_eq_true_2.
    + by apply elem_of_map_to_list.
Qed.










End ImportantOnly.

Lemma loop_free_triangle : loop_free Sample.triangle.
Proof.
  change (map_Forall (λ (_ : string) d, source d ≠ target d) (g_edges Sample.triangle)).
  apply (bool_decide_unpack _). vm_compute. exact I.
Qed.





(** ** Replaying nodes: the round trip of [mergeNodes] and [undo] *)

Section Replay.

Context (edgeKeyGenerator : Graph → EdgeKey).

Lemma node_key_json_copy (ns : list SerializedNode) :
  node_key <$> (json_copy_node <$> ns) = node_key <$> ns.
Proof. rewrite <- list_fmap_compose. by apply list_fmap_ext. Qed.

Lemma same_frame_refl w : same_frame w w.
Proof. by repeat split. Qed.

Lemma same_frame_trans w1 w2 w3 :
  same_frame w1 w2 → same_frame w2 w3 → same_frame w1 w3.
Proof. unfold same_frame. intros (?&?&?&?&?) (?&?&?&?&?). split_and!; congruence. Qed.

Lemma same_frame_hideNodeInfoBoxContainer b w :
  same_frame w (hideNodeInfoBoxContainer b w).
Proof. unfold hideNodeInfoBoxContainer. repeat case_match; by repeat split. Qed.

Lemma graphData_hideNodeInfoBoxContainer b w :
  graphData (hideNodeInfoBoxContainer b w) = graphData w.
Proof. unfold hideNodeInfoBoxContainer. by repeat case_match. Qed.

(** A round of [dropNodes] on a node that is there. *)
Lemma dropNodes_step_Some rec w N E r a :
  g_nodes (graphData w) !! ref_key r = Some a →
  ∃ w', dropNodes_step rec (w, N, E) r =
          (w',
           if rec then N ++ [mkNode (ref_toString r) (Some a)] else N,
           if rec then E ++ (edge_record <$> Graphology.edges (graphData w) (ref_key r))
           else E)
        ∧ same_frame w w'
        ∧ graphData w' = Graphology.dropNode (ref_key r) (graphData w).
Proof.
  intros H. unfold dropNodes_step. rewrite H. simpl.
  eexists. split; [reflexivity|]. split.
  - eapply same_frame_trans; [|apply same_frame_hideNodeInfoBoxContainer].
    by repeat split.
  - simpl. by rewrite graphData_hideNodeInfoBoxContainer.
Qed.

Lemma dropNodes_step_None rec acc r :
  g_nodes (graphData acc.1.1) !! ref_key r = None →
  dropNodes_step rec acc r = acc.
Proof. destruct acc as [[w N] E]. simpl. intros H. unfold dropNodes_step. by rewrite H. Qed.

(** The nodes left by the loop of [dropNodes]: those whose key was not
    passed. *)
Lemma dropNodes_loop_nodes rec refs w N E :
  same_frame w (foldl (dropNodes_step rec) (w, N, E) refs).1.1 ∧
  ∀ k, g_nodes (graphData (foldl (dropNodes_step rec) (w, N, E) refs).1.1) !! k =
         if decide (k ∈ ref_key <$> refs) then None else g_nodes (graphData w) !! k.
Proof.
  revert w N E. induction refs as [|r refs IH]; intros w N E.
  - split; [apply same_frame_refl|]. intros k.
    destruct (decide (k ∈ ref_key <$> [])) as [Hk|]; [|done].
    by apply elem_of_nil in Hk.
  - rewrite fmap_cons. cbn [foldl].
    destruct (g_nodes (graphData w) !! ref_key r) as [a|] eqn:Ha.
    + destruct (dropNodes_step_Some rec w N E r a Ha) as (w' & -> & Hf & Hg).
      destruct (IH w' (if rec then N ++ [mkNode (ref_toString r) (Some a)] else N)
                  (if rec
                   then E ++ (edge_record <$> Graphology.edges (graphData w) (ref_key r))
                   else E)) as [Hf' Hn].
      split; [by eapply same_frame_trans|].
      intros k. rewrite Hn, Hg. simpl.
      repeat case_decide; set_solver by (simplify_map_eq; eauto).
    + rewrite (dropNodes_step_None rec (w, N, E) r Ha).
      destruct (IH w N E) as [Hf' Hn]. split; [done|].
      intros k. rewrite Hn. repeat case_decide; try done; set_solver.
Qed.

Lemma mergeNode_lookup_ne k attrs g k' :
  k ≠ k' → g_nodes (Graphology.mergeNode k attrs g) !! k' = g_nodes g !! k'.
Proof.
  intros Hne. unfold Graphology.mergeNode.
  destruct (g_nodes g !! k); simpl; by rewrite lookup_insert_ne.
Qed.

Lemma mergeNode_absent k a g :
  g_nodes g !! k = None →
  Graphology.mergeNode k (Some a) g = mkGraph (multi g) (<[k := a]> (g_nodes g)) (g_edges g).
Proof. intros H. unfold Graphology.mergeNode. by rewrite H. Qed.

Lemma snapshot_ext g g' nodes :
  (∀ n, n ∈ nodes → g_nodes g' !! node_key n = g_nodes g !! node_key n) →
  snapshot g' nodes = snapshot g nodes.
Proof.
  unfold snapshot. induction nodes as [|n nodes IH]; intros H; [done|].
  cbn [omap list_omap]. rewrite (H n) by apply list_elem_of_here.
  rewrite IH; [done|]. intros n' Hn'. apply H. by apply list_elem_of_further.
Qed.

Lemma mergeNodes_loop_true nodes g acc :
  NoDup (node_key <$> nodes) →
  ∃ g1, foldl (mergeNodes_step true) (g, acc) nodes
          = (g1, acc ++ (node_record <$> snapshot g nodes))
        ∧ ∀ k, k ∉ node_key <$> nodes → g_nodes g1 !! k = g_nodes g !! k.
Proof.
  revert g acc. induction nodes as [|n nodes IH]; intros g acc Hnd.
  - exists g. split; [|done]. simpl. by rewrite (right_id_L [] (++)).
  - rewrite fmap_cons in Hnd. apply NoDup_cons in Hnd as [Hn Hnd].
    cbn [foldl]. unfold mergeNodes_step at 2.
    destruct (IH (Graphology.mergeNode (node_key n) (node_attributes n) g)
                (match g_nodes g !! node_key n with
                 | Some a => acc ++ [mkNode (node_key n) (Some (assign ∅ a))]
                 | None => acc
                 end) Hnd) as (g1 & -> & Hout).
    exists g1. split.
    + f_equal. rewrite snapshot_ext with (g := g).
      * unfold snapshot at 2. cbn [omap list_omap].
        destruct (g_nodes g !! node_key n) as [a|]; simpl; [|done].
        rewrite <- (assoc_L (++)). do 2 f_equal.
        unfold node_record, assign. simpl. by rewrite (right_id_L ∅ (∪)).
      * intros n' Hn'. apply mergeNode_lookup_ne. intros E. apply Hn.
        rewrite E. by apply list_elem_of_fmap_2.
    + intros k Hk. rewrite fmap_cons in Hk. apply not_elem_of_cons in Hk as [Hk1 Hk2].
      rewrite Hout by done. by apply mergeNode_lookup_ne.
Qed.

Lemma snapshot_keys g nodes k :
  k ∈ (snapshot g nodes).*1 → k ∈ node_key <$> nodes.
Proof.
  unfold snapshot. rewrite !list_elem_of_fmap.
  intros ([k' a] & -> & H). apply list_elem_of_omap in H as (n & Hn & E).
  destruct (g_nodes g !! node_key n); simplify_eq/=. eauto.
Qed.

Lemma snapshot_NoDup g nodes :
  NoDup (node_key <$> nodes) → NoDup (snapshot g nodes).*1.
Proof.
  induction nodes as [|n nodes IH]; intros Hnd; [constructor|].
  rewrite fmap_cons in Hnd. apply NoDup_cons in Hnd as [Hn Hnd].
  unfold snapshot. cbn [omap list_omap].
  destruct (g_nodes g !! node_key n) as [a|]; simpl; [|by apply IH].
  apply NoDup_cons. split; [|by apply IH].
  intros Hin. by apply snapshot_keys in Hin.
Qed.

Lemma snapshot_lookup g nodes k :
  NoDup (node_key <$> nodes) →
  (list_to_map (snapshot g nodes) : gmap string Attributes) !! k =
    if decide (k ∈ node_key <$> nodes) then g_nodes g !! k else None.
Proof.
  intros Hnd. case_decide as Hk.
  - destruct (g_nodes g !! k) as [a|] eqn:E.
    + apply elem_of_list_to_map_1; [by apply snapshot_NoDup|].
      apply list_elem_of_fmap in Hk as (n & -> & Hn).
      unfold snapshot. apply list_elem_of_omap. exists n. split; [done|].
      by rewrite E.
    + apply not_elem_of_list_to_map_1. unfold snapshot.
      rewrite list_elem_of_fmap. intros ([k' a] & -> & H).
      apply list_elem_of_omap in H as (n & Hn & E').
      destruct (g_nodes g !! node_key n) eqn:E2; simplify_eq/=.
  - apply not_elem_of_list_to_map_1. intros Hin. by apply snapshot_keys in Hin.
Qed.

(** The copy of a snapshot holds the copies of the attributes. *)
Lemma json_copy_records (Nl : list (string * Attributes)) :
  json_copy_node <$> (node_record <$> Nl)
  = node_record <$> (prod_map id json_copy_attributes <$> Nl).
Proof. rewrite <- !list_fmap_compose. apply list_fmap_ext. by intros i [k a] Hi. Qed.

Lemma fst_prod_map_id {A B} (f : A → B) (l : list (string * A)) :
  (prod_map id f <$> l).*1 = l.*1.
Proof. rewrite <- list_fmap_compose. apply list_fmap_ext. by intros i [k a] Hi. Qed.

Lemma json_copy_attributes_id (a : Attributes) :
  (∀ i v, a !! i = Some v → json_copy_value v = Some v) → json_copy_attributes a = a.
Proof.
  intros H. apply map_eq. intros i. unfold json_copy_attributes.
  rewrite lookup_omap. destruct (a !! i) as [v|] eqn:E; [|done]. simpl.
  by apply (H i).
Qed.

(** The replayed loop of [mergeNodes] on nodes that are not in the graph:
    they are put back with the recorded attributes. *)
Lemma mergeNodes_loop_absent (Nl : list (string * Attributes)) g acc :
  NoDup Nl.*1 →
  (∀ k, k ∈ Nl.*1 → g_nodes g !! k = None) →
  foldl (mergeNodes_step false) (g, acc) (node_record <$> Nl)
  = (mkGraph (multi g) (list_to_map Nl ∪ g_nodes g) (g_edges g), acc).
Proof.
  revert g. induction Nl as [|[k a] Nl IH]; intros g Hnd Habs.
  - simpl. rewrite (left_id_L ∅ (∪)). by destruct g.
  - rewrite fmap_cons in Hnd. apply NoDup_cons in Hnd as [Hk Hnd].
    rewrite fmap_cons. cbn [foldl]. unfold mergeNodes_step at 2. simpl.
    rewrite Habs by (rewrite fmap_cons; apply list_elem_of_here).
    rewrite mergeNode_absent
      by (apply Habs; rewrite fmap_cons; apply list_elem_of_here).
    rewrite IH; [|done|].
    + simpl. f_equal. f_equal.
      rewrite <- insert_union_l. rewrite insert_union_r; [done|].
      by apply not_elem_of_list_to_map_1.
    + intros k' Hk'. simpl. rewrite lookup_insert_ne by (intros ->; done).
      apply Habs. rewrite fmap_cons. by apply list_elem_of_further.
Qed.

Lemma g_nodes_unhideEdgesOf g n : g_nodes (unhideEdgesOf g n) = g_nodes g.
Proof.
  unfold unhideEdgesOf.
  generalize (Graphology.edges_of g (node_key n)). intros es.
  revert g. induction es as [|e es IH]; intros g; [done|].
  cbn [foldl]. by rewrite IH.
Qed.

Lemma g_nodes_unhide_loop N g : g_nodes (foldl unhideEdgesOf g N) = g_nodes g.
Proof.
  revert g. induction N as [|n N IH]; intros g; [done|].
  cbn [foldl]. by rewrite IH, g_nodes_unhideEdgesOf.
Qed.

(** [mergeNodes] on the replay path only writes the graph. *)
Lemma mergeNodes_replay N w :
  (mergeNodes N false w).2 =
    set_graphData
      (foldl unhideEdgesOf (foldl (mergeNodes_step false) (graphData w, []) N).1 N) w.
Proof.
  destruct N as [|n N]; [by destruct w|].
  unfold mergeNodes. rewrite andb_false_r.
  by destruct (foldl _ _ _) as [g ex].
Qed.

Lemma getLatestAction_addAction old ty new (h : HistoryManager.t) :
  HistoryManager.getLatestAction (HistoryManager.addAction old ty new h)
  = Some (mkAction old ty new false).
Proof.
  unfold HistoryManager.getLatestAction, HistoryManager.addAction.
  rewrite filter_app, filter_cons_True, filter_nil by done. apply last_snoc.
Qed.

(** [dropNodes] on the replay path. *)
Lemma dropNodes_replay refs w :
  ∃ w2, dropNodes refs false w = (true, w2) ∧ same_frame w w2 ∧
        ∀ k, g_nodes (graphData w2) !! k =
               if decide (k ∈ ref_key <$> refs) then None else g_nodes (graphData w) !! k.
Proof.
  unfold dropNodes. rewrite andb_false_r.
  destruct (dropNodes_loop_nodes false refs w [] []) as [Hf Hn].
  destruct (foldl _ _ _) as [[w2 N] E]. simpl in *. eauto.
Qed.

(** X21.  With history enabled, [mergeNodes] on a non-empty list of nodes
    with pairwise distinct keys followed by [undo] returns [true] and leaves
    the graph with the nodes it had before the [mergeNodes] call: a node
    that was not in the list has its attributes untouched, a node of the
    list that was new is gone, and a node of the list that was there has the
    copy through JSON text of the attributes it had.  On a graph whose node
    attributes are values that JSON text carries unchanged (no [undefined],
    [NaN] or infinity) the nodes and their attributes are exactly as they
    were. *)
Theorem mergeNodes_undo_roundtrip
    (nodes : list SerializedNode) (w : WebGraph) (h : HistoryManager.t) :
  is_Some (renderer w) →
  appState w = ACTIVE →
  isHistoryEnabled w = true →
  history w = Some h →
  nodes ≠ [] →
  NoDup (node_key <$> nodes) →
  ∃ w', undo edgeKeyGenerator (mergeNodes nodes true w).2 = Ok (true, w') ∧
        (∀ k, g_nodes (graphData w') !! k =
                if decide (k ∈ node_key <$> nodes)
                then json_copy_attributes <$> g_nodes (graphData w) !! k
                else g_nodes (graphData w) !! k) ∧
        (json_nodes (graphData w) → g_nodes (graphData w') = g_nodes (graphData w)).
Proof.
  intros [r Hr] Ha He Hh Hne Hnd.
  destruct (mergeNodes_loop_true nodes (graphData w) [] Hnd) as (g1 & Hloop & Hout).
  assert ((mergeNodes nodes true w).2 =
            history_addAction
              (mkData None (Some (node_record <$> snapshot (graphData w) nodes))
                 None None None None)
              UPDATE_OR_ADD_NODE (mkData None (Some nodes) None None None None)
              (set_graphData g1 w)) as ->.
  { unfold mergeNodes. destruct nodes as [|n0 nodes0]; [done|].
    rewrite He. cbn [andb]. rewrite Hloop. reflexivity. }
  unfold undo, isRenderingActive. simpl. rewrite Hr, Ha, He, Hh. simpl.
  rewrite getLatestAction_addAction. simpl.
  unfold undo_switch. simpl.
  match goal with
  | |- context [dropNodes ?refs false ?w1] =>
      destruct (dropNodes_replay refs w1) as (w2 & -> & Hf & Hn2)
  end.
  rewrite json_copy_records.
  set (Nl := prod_map id json_copy_attributes <$> snapshot (graphData w) nodes).
  destruct (mergeNodes _ false w2) as [b w3] eqn:E3.
  assert (w3 = (mergeNodes (node_record <$> Nl) false w2).2) as -> by (by rewrite E3).
  simpl. eexists. split; [reflexivity|].
  assert (∀ k, g_nodes (graphData w2) !! k =
               if decide (k ∈ node_key <$> nodes) then None else g_nodes g1 !! k) as Hn.
  { intros k. rewrite Hn2. simpl. rewrite <- list_fmap_compose. done. }
  assert (∀ k, g_nodes (graphData (mergeNodes (node_record <$> Nl) false w2).2) !! k =
               if decide (k ∈ node_key <$> nodes)
               then json_copy_attributes <$> g_nodes (graphData w) !! k
               else g_nodes (graphData w) !! k) as Hall.
  { intros k. rewrite mergeNodes_replay. simpl. rewrite g_nodes_unhide_loop.
    rewrite mergeNodes_loop_absent.
    - simpl. unfold Nl.
      rewrite lookup_union, list_to_map_fmap, lookup_fmap, snapshot_lookup, Hn by done.
      case_decide as Hk.
      + by destruct (g_nodes (graphData w) !! k).
      + simpl. rewrite (left_id_L None (∪)). by apply Hout.
    - unfold Nl. rewrite fst_prod_map_id. by apply snapshot_NoDup.
    - intros k' Hk. unfold Nl in Hk. rewrite fst_prod_map_id in Hk.
      apply snapshot_keys in Hk. rewrite Hn. by rewrite decide_True. }
  split; [exact Hall|].
  intros Hjs. apply map_eq. intros k. rewrite Hall.
  case_decide; [|done].
  destruct (g_nodes (graphData w) !! k) as [a|] eqn:Ek; [|done]. simpl.
  f_equal. apply json_copy_attributes_id. intros i v. by apply (Hjs k a).
Qed.

End Replay.

(** C2.  A node whose key comes twice in the list is not rolled back.  On
    the graph with the nodes [n1] ([x = 1]) and [n2], history enabled,
    [mergeNodes] with [n1] twice ([x = 10], then [x = 20]) followed by
    [undo()] returns [true] and leaves [n1] with [x = 10], not with the
    [x = 1] it had: the snapshot of the second element is taken after the
    first element was merged, and the replay merges the snapshots in
    order. *)
Theorem mergeNodes_twice_undo_differs :
  isHistoryEnabled (Sample.rendered Sample.pair Sample.config) = true ∧
  undo Sample.keyGenerator
    (mergeNodes Sample.twice true (Sample.rendered Sample.pair Sample.config)).2
  = Ok (true, Sample.twice_undone) ∧
  g_nodes (graphData (Sample.rendered Sample.pair Sample.config)) !! "n1"
  = Some {["x" := VNum 1]} ∧
  g_nodes (graphData Sample.twice_undone) !! "n1" = Some {["x" := VNum 10]} ∧
  g_nodes (graphData Sample.twice_undone)
  ≠ g_nodes (graphData (Sample.rendered Sample.pair Sample.config)).
Proof.
  split_and!; try (vm_compute; reflexivity).
  intros E.
  assert (g_nodes (graphData Sample.twice_undone) !! "n1" ≫= (.!! "x")
          = g_nodes (graphData (Sample.rendered Sample.pair Sample.config)) !! "n1"
              ≫= (.!! "x"))
    as H by (by rewrite E).
  vm_compute in H. discriminate H.
Qed.

Lemma json_nodes_pair : json_nodes Sample.pair.
Proof.
  intros k a i v Hk Hi. revert i v Hi.
  change (map_Forall (λ (_ : string) v, json_copy_value v = Some v) a).
  revert k a Hk.
  change (map_Forall
            (λ (_ : string) a,
               map_Forall (λ (_ : string) v, json_copy_value v = Some v) a)
            (g_nodes Sample.pair)).
  apply (bool_decide_unpack _). vm_compute. exact I.
Qed.

(** An existing node updated and a new one added, then [undo]. *)
Lemma mergeNodes_undo_roundtrip_witness :
  ∃ w', undo Sample.keyGenerator
          (mergeNodes Sample.two_nodes true (Sample.rendered Sample.pair Sample.config)).2
        = Ok (true, w')
        ∧ g_nodes (graphData w')
          = g_nodes (graphData (Sample.rendered Sample.pair Sample.config)).
Proof.
  destruct (mergeNodes_undo_roundtrip Sample.keyGenerator Sample.two_nodes
              (Sample.rendered Sample.pair Sample.config) [])
    as (w' & H1 & _ & H2).
  - vm_compute. eauto.
  - vm_compute. reflexivity.
  - vm_compute. reflexivity.
  - vm_compute. reflexivity.
  - discriminate.
  - apply (bool_decide_unpack _). vm_compute. exact I.
  - exists w'. split; [exact H1|]. apply H2.
    replace (graphData (Sample.rendered Sample.pair Sample.config)) with Sample.pair
      by (vm_compute; reflexivity).
    apply json_nodes_pair.
Defined.

(** ** Dropping nodes and putting them back *)

Section DropUndo.

Lemma is_incident_true k d :
  Graphology.is_incident k d = true ↔ source d = k ∨ target d = k.
Proof.
  unfold Graphology.is_incident.
  rewrite orb_true_iff, !bool_decide_eq_true. done.
Qed.

Lemma is_incident_false k d :
  Graphology.is_incident k d = false ↔ source d ≠ k ∧ target d ≠ k.
Proof.
  unfold Graphology.is_incident.
  rewrite orb_false_iff, !bool_decide_eq_false. done.
Qed.

Lemma wf_dropNode k g : wf_graph g → wf_graph (Graphology.dropNode k g).
Proof.
  intros [Hends Hpar]. split; simpl.
  - intros e d [Hd Hi]%map_lookup_filter_Some. simpl in Hi.
    apply is_incident_false in Hi as [Hs Ht].
    rewrite !lookup_delete_ne by done. by apply (Hends e).
  - intros Hm e1 e2 d1 d2 [H1 _]%map_lookup_filter_Some [H2 _]%map_lookup_filter_Some.
    by apply (Hpar Hm).
Qed.

Lemma NoDup_fst_filter {A B} (P : A * B → Prop) `{!∀ x, Decision (P x)}
    (l : list (A * B)) :
  NoDup l.*1 → NoDup (filter P l).*1.
Proof.
  induction l as [|x l IH]; intros Hnd; [constructor|].
  rewrite fmap_cons in Hnd. apply NoDup_cons in Hnd as [Hx Hnd].
  destruct (decide (P x)).
  - rewrite filter_cons_True by done. rewrite fmap_cons.
    apply NoDup_cons. split; [|by apply IH].
    intros Hin. apply Hx. apply list_elem_of_fmap in Hin as (y & -> & Hy).
    apply list_elem_of_filter in Hy as [_ Hy]. by apply list_elem_of_fmap_2.
  - rewrite filter_cons_False by done. by apply IH.
Qed.

Lemma NoDup_incident g k : NoDup (Graphology.incident g k).*1.
Proof. apply NoDup_fst_filter, NoDup_fst_map_to_list. Qed.

Lemma elem_of_incident g k e d :
  (e, d) ∈ Graphology.incident g k
  ↔ g_edges g !! e = Some d ∧ (source d = k ∨ target d = k).
Proof.
  unfold Graphology.incident.
  rewrite list_elem_of_filter, elem_of_map_to_list. simpl.
  rewrite is_incident_true. tauto.
Qed.

Lemma list_to_map_incident g k :
  (list_to_map (Graphology.incident g k) : gmap string EdgeData)
  = filter (λ p, Graphology.is_incident k p.2 = true) (g_edges g).
Proof.
  apply map_eq. intros e. apply option_eq. intros d.
  rewrite <- elem_of_list_to_map by apply NoDup_incident.
  rewrite elem_of_incident, map_lookup_filter_Some. simpl.
  by rewrite is_incident_true.
Qed.

(** The edges of a graph are those of the dropped node and those that
    stay. *)
Lemma g_edges_dropNode k g :
  g_edges g
  = list_to_map (Graphology.incident g k) ∪ g_edges (Graphology.dropNode k g).
Proof.
  rewrite list_to_map_incident. simpl.
  rewrite <- (map_filter_union_complement
                (λ p, Graphology.is_incident k p.2 = true) (g_edges g)) at 1.
  f_equal. apply map_filter_ext. intros e d _. simpl.
  by destruct (Graphology.is_incident k d).
Qed.

Lemma incident_not_in_dropNode k g e :
  e ∈ (Graphology.incident g k).*1 → g_edges (Graphology.dropNode k g) !! e = None.
Proof.
  intros ([e' d] & -> & H)%list_elem_of_fmap. apply elem_of_incident in H as [H1 H2].
  simpl. apply map_lookup_filter_None. right. intros d' Hd'. simpl.
  assert (d' = d) as -> by congruence. apply not_false_iff_true.
  by apply is_incident_true.
Qed.

(** For a node without self-loops [edges(node)] holds the edges that touch
    it, each once. *)
Lemma self_loops_0_inv g k e d :
  Graphology.self_loops g k = 0 → g_edges g !! e = Some d →
  ¬ (source d = k ∧ target d = k).
Proof.
  unfold Graphology.self_loops. intros H%nil_length_inv Hd Hst.
  assert ((e, d) ∈ filter (λ p : string * EdgeData, source p.2 = k ∧ target p.2 = k)
                     (map_to_list (g_edges g))) as Hin
    by (apply list_elem_of_filter; split; [done|by apply elem_of_map_to_list]).
  rewrite H in Hin. by apply elem_of_nil in Hin.
Qed.

Lemma elem_of_edges g k p :
  Graphology.self_loops g k = 0 →
  p ∈ Graphology.edges g k ↔ p ∈ Graphology.incident g k.
Proof.
  intros H. unfold Graphology.edges. rewrite cut_loops_id by done.
  destruct p as [e d]. rewrite elem_of_incident, elem_of_app.
  unfold Graphology.in_edges, Graphology.out_edges.
  rewrite !list_elem_of_filter, elem_of_map_to_list. simpl. tauto.
Qed.

Lemma NoDup_edges g k :
  Graphology.self_loops g k = 0 → NoDup (Graphology.edges g k).*1.
Proof.
  intros H. unfold Graphology.edges. rewrite cut_loops_id by done.
  rewrite fmap_app. apply NoDup_app. split_and!.
  - apply NoDup_fst_filter, NoDup_fst_map_to_list.
  - intros e ([e1 d1] & -> & H1)%list_elem_of_fmap ([e2 d2] & E & H2)%list_elem_of_fmap.
    simpl in E. subst e2.
    apply list_elem_of_filter in H1 as [Ht H1]. apply list_elem_of_filter in H2 as [Hs H2].
    apply elem_of_map_to_list in H1, H2. simpl in Ht, Hs.
    rewrite H1 in H2. injection H2 as <-.
    by apply (self_loops_0_inv g k e1 d1 H H1).
  - apply NoDup_fst_filter, NoDup_fst_map_to_list.
Qed.

Lemma list_to_map_edges g k :
  Graphology.self_loops g k = 0 →
  (list_to_map (Graphology.edges g k) : gmap string EdgeData)
  = list_to_map (Graphology.incident g k).
Proof.
  intros H. apply map_eq. intros e. apply option_eq. intros d.
  rewrite <- !elem_of_list_to_map by (by apply NoDup_edges || apply NoDup_incident).
  by apply elem_of_edges.
Qed.

Lemma elem_of_edges_keys g k e :
  Graphology.self_loops g k = 0 →
  e ∈ (Graphology.edges g k).*1 ↔ e ∈ (Graphology.incident g k).*1.
Proof.
  intros H. rewrite !list_elem_of_fmap. by setoid_rewrite (elem_of_edges g k _ H).
Qed.

Lemma loop_free_at_dropNode k ks g :
  loop_free_at (k :: ks) g → loop_free_at ks (Graphology.dropNode k g).
Proof.
  intros H e d [Hd _]%map_lookup_filter_Some Hst Hin.
  apply (H e d Hd Hst). by apply list_elem_of_further.
Qed.

Lemma loop_free_loop_free_at ks g : loop_free g → loop_free_at ks g.
Proof. intros H e d Hd Hst _. by apply (H e d Hd). Qed.

Lemma loop_free_at_tail k ks g : loop_free_at (k :: ks) g → loop_free_at ks g.
Proof. intros H e d Hd Hst Hin. apply (H e d Hd Hst). by apply list_elem_of_further. Qed.

Lemma elem_of_fst_list_to_map {A} (l : list (string * A)) k :
  k ∈ l.*1 → is_Some ((list_to_map l : gmap string A) !! k).
Proof.
  intros H. destruct (list_to_map l !! k) eqn:E; [eauto|].
  by apply not_elem_of_list_to_map_2 in E.
Qed.

Lemma touches_cons k ks d : touches ks d → touches (k :: ks) d.
Proof. unfold touches. rewrite !elem_of_cons. tauto. Qed.

(** The recorded loop of [dropNodes] over keys: what it leaves in the
    graph and what it hands to the history make up the graph it started
    from. *)
Lemma dropNodes_loop_true ks w N E :
  wf_graph (graphData w) →
  loop_free_at ks (graphData w) →
  ∃ w1 (Nl : list (string * Attributes)) (L : list (string * EdgeData)),
    foldl (dropNodes_step true) (w, N, E) (ByKey <$> ks)
      = (w1, N ++ (node_record <$> Nl), E ++ (edge_record <$> L)) ∧
    same_frame w w1 ∧
    multi (graphData w1) = multi (graphData w) ∧
    wf_graph (graphData w1) ∧
    g_nodes (graphData w) = list_to_map Nl ∪ g_nodes (graphData w1) ∧
    NoDup Nl.*1 ∧
    (∀ k, k ∈ Nl.*1 → g_nodes (graphData w1) !! k = None) ∧
    g_edges (graphData w) = list_to_map L ∪ g_edges (graphData w1) ∧
    NoDup L.*1 ∧
    (∀ e, e ∈ L.*1 → g_edges (graphData w1) !! e = None) ∧
    (∀ p, p ∈ L → touches ks p.2).
Proof.
  revert w N E. induction ks as [|k ks IH]; intros w N E Hwf Hlf.
  - exists w, [], []. simpl. rewrite !(right_id_L [] (++)), !(left_id_L ∅ (∪)).
    split_and!; try done; try apply same_frame_refl; try apply NoDup_nil_2;
      try (by intros ? ?%elem_of_nil).
  - rewrite fmap_cons. cbn [foldl].
    assert (Graphology.self_loops (graphData w) k = 0) as Hk0
      by (eapply self_loops_loop_free_at; [done|apply list_elem_of_here]).
    destruct (g_nodes (graphData w) !! k) as [a|] eqn:Ha.
    + destruct (dropNodes_step_Some true w N E (ByKey k) a Ha) as (w' & -> & Hf & Hg).
      simpl in Hg. simpl ref_key. simpl ref_toString.
      destruct (IH w' (N ++ [mkNode k (Some a)])
                  (E ++ (edge_record <$> Graphology.edges (graphData w) k)))
        as (w1 & Nl & L & -> & Hf1 & Hm & Hwf1 & Hn & Hnd & Hna & He & Hed & Hea & Ht).
      { rewrite Hg. by apply wf_dropNode. }
      { rewrite Hg. by apply loop_free_at_dropNode. }
      rewrite Hg in Hn, He, Hm. simpl in Hn, Hm.
      exists w1, ((k, a) :: Nl), (Graphology.edges (graphData w) k ++ L).
      assert (k ∉ Nl.*1) as Hk.
      { intros Hin. apply elem_of_fst_list_to_map in Hin as Hs.
        assert (is_Some ((list_to_map Nl ∪ g_nodes (graphData w1)) !! k)) as Hs'
          by (by rewrite lookup_union_l').
        rewrite <- Hn, lookup_delete_eq in Hs'. by destruct Hs'. }
      split_and!.
      * by rewrite fmap_cons, fmap_app, <- !(assoc_L (++)).
      * by eapply same_frame_trans.
      * done.
      * done.
      * rewrite list_to_map_cons, <- insert_union_l, <- Hn.
        by rewrite insert_delete_id.
      * rewrite fmap_cons. by apply NoDup_cons.
      * intros k' Hk'. rewrite fmap_cons in Hk'.
        apply elem_of_cons in Hk' as [->|Hk']; [|by apply Hna].
        assert ((list_to_map Nl ∪ g_nodes (graphData w1)) !! k = None) as Hu
          by (by rewrite <- Hn, lookup_delete_eq).
        by apply lookup_union_None in Hu as [_ ?].
      * rewrite list_to_map_app, <- (assoc_L (∪)), <- He, list_to_map_edges by done.
        apply g_edges_dropNode.
      * rewrite fmap_app. apply NoDup_app. split_and!; [by apply NoDup_edges| |done].
        intros e Hi%elem_of_edges_keys Hl; [|done]. apply incident_not_in_dropNode in Hi.
        apply elem_of_fst_list_to_map in Hl.
        rewrite He, lookup_union_l' in Hi by done. rewrite Hi in Hl. by destruct Hl.
      * intros e Hin. rewrite fmap_app in Hin. apply elem_of_app in Hin as [Hi|Hl];
          [|by apply Hea].
        apply elem_of_edges_keys in Hi; [|done].
        apply incident_not_in_dropNode in Hi. rewrite He in Hi.
        by apply lookup_union_None in Hi as [_ ?].
      * intros [e d] [Hi|Hl]%elem_of_app.
        -- apply elem_of_edges in Hi; [|done].
           apply elem_of_incident in Hi as [_ Hi]. unfold touches. simpl.
           rewrite !elem_of_cons. naive_solver.
        -- by apply touches_cons, Ht.
    + rewrite (dropNodes_step_None true (w, N, E) (ByKey k) Ha).
      destruct (IH w N E Hwf (loop_free_at_tail k ks _ Hlf))
        as (w1 & Nl & L & -> & Hf1 & Hm & Hwf1 & Hn & Hnd & Hna & He & Hed & Hea & Ht).
      exists w1, Nl, L. split_and!; try done.
      intros p Hp. by apply touches_cons, Ht.
Qed.

End DropUndo.

Section Restore.

Lemma incident_nil g k :
  (∀ e d, g_edges g !! e = Some d → source d ≠ k ∧ target d ≠ k) →
  Graphology.incident g k = [].
Proof.
  intros H. destruct (Graphology.incident g k) as [|[e d] l] eqn:E; [done|].
  assert ((e, d) ∈ Graphology.incident g k) as Hin
    by (rewrite E; apply list_elem_of_here).
  apply elem_of_incident in Hin as [Hl Hi]. destruct (H e d Hl). tauto.
Qed.

(** The un-hide loop of the replay touches no edge when the merged nodes
    have none. *)
Lemma unhide_loop_id (N : list SerializedNode) g :
  (∀ n, n ∈ N → Graphology.incident g (node_key n) = []) →
  foldl unhideEdgesOf g N = g.
Proof.
  induction N as [|n N IH]; intros H; [done|].
  cbn [foldl]. unfold unhideEdgesOf at 2. unfold Graphology.edges_of.
  rewrite (H n) by apply list_elem_of_here. simpl.
  apply IH. intros n' Hn'. apply H. by apply list_elem_of_further.
Qed.

Lemma collision_None g s t :
  (multi g = false →
   ∀ e d, g_edges g !! e = Some d → ¬ (source d = s ∧ target d = t)) →
  Graphology.collision g s t = None.
Proof.
  intros H. unfold Graphology.collision. destruct (multi g); [done|].
  destruct (Graphology.edges_between g s t) as [|e l] eqn:E; [done|].
  assert (e ∈ Graphology.edges_between g s t) as Hin
    by (rewrite E; apply list_elem_of_here).
  apply elem_of_edges_between in Hin as (d & Hd & Hs & Ht).
  by destruct (H eq_refl e d Hd).
Qed.

Lemma mergeEdgeWithKey_fresh e d g :
  g_edges g !! e = None →
  Graphology.collision g (source d) (target d) = None →
  is_Some (g_nodes g !! source d) →
  is_Some (g_nodes g !! target d) →
  Graphology.mergeEdgeWithKey e (source d) (target d) (Some (attributes d)) g
  = Ok (mkGraph (multi g) (g_nodes g) (<[e := d]> (g_edges g))).
Proof.
  intros He Hc [a Ha] [b Hb]. unfold Graphology.mergeEdgeWithKey.
  rewrite He, Hc. unfold Graphology.addEdge, Graphology.ensureNode.
  rewrite Ha. rewrite Hb. by destruct d.
Qed.

Context (edgeKeyGenerator : Graph → EdgeKey).

(** Merging recorded edges back: each gets its key, its end points and its
    attributes again. *)
Lemma mergeEdges_loop_restore (L : list (string * EdgeData)) g acc :
  NoDup L.*1 →
  (∀ e, e ∈ L.*1 → g_edges g !! e = None ∧ e ≠ "") →
  (∀ p, p ∈ L →
     is_Some (g_nodes g !! source p.2) ∧ is_Some (g_nodes g !! target p.2)) →
  (multi g = false → no_parallel (list_to_map L ∪ g_edges g)) →
  mergeEdges_loop edgeKeyGenerator false (edge_record <$> L) g acc
  = Ok (mkGraph (multi g) (g_nodes g) (list_to_map L ∪ g_edges g), acc).
Proof.
  revert g. induction L as [|[e d] L IH]; intros g Hnd Hfresh Hends Hpar.
  - simpl. rewrite (left_id_L ∅ (∪)). by destruct g.
  - rewrite fmap_cons in Hnd. apply NoDup_cons in Hnd as [He Hnd].
    destruct (Hfresh e) as [Hge Hne]; [rewrite fmap_cons; apply list_elem_of_here|].
    destruct (Hends (e, d)) as [Hs Ht]; [apply list_elem_of_here|]. simpl in Hs, Ht.
    assert ((list_to_map L : gmap string EdgeData) !! e = None) as HLe
      by (by apply not_elem_of_list_to_map_1).
    assert (list_to_map ((e, d) :: L) ∪ g_edges g
            = list_to_map L ∪ <[e := d]> (g_edges g)) as Hmap.
    { rewrite list_to_map_cons, <- insert_union_l. by rewrite insert_union_r. }
    rewrite Hmap. rewrite fmap_cons. cbn [mergeEdges_loop]. simpl.
    apply String.eqb_neq in Hne as Hne'. rewrite Hne'. simpl.
    rewrite mergeEdgeWithKey_fresh; [|done| |done..].
    + simpl. rewrite IH; [done|done| | |].
      * intros e' He'. simpl. split.
        -- rewrite lookup_insert_ne by (intros ->; done).
           apply Hfresh. rewrite fmap_cons. by apply list_elem_of_further.
        -- apply Hfresh. rewrite fmap_cons. by apply list_elem_of_further.
      * intros p Hp. simpl. apply Hends. by apply list_elem_of_further.
      * simpl. intros Hm. rewrite <- Hmap. by apply Hpar.
    + apply collision_None. intros Hm e' d' Hd' [Hs' Ht'].
      assert (e' = e); [|congruence].
      apply (Hpar Hm e' e d' d); [| |done..].
      * rewrite lookup_union_r; [done|].
        apply not_elem_of_list_to_map_1. intros Hin.
        destruct (Hfresh e' Hin) as [Hx _]. congruence.
      * rewrite list_to_map_cons. simpl. rewrite lookup_union_l'; rewrite lookup_insert_eq; eauto.
Qed.

(** [mergeEdges] on the replay path only writes the graph. *)
Lemma mergeEdges_replay E w g' :
  mergeEdges_loop edgeKeyGenerator false E (graphData w) [] = Ok (g', []) →
  ∃ b, mergeEdges edgeKeyGenerator E false w = Ok (b, set_graphData g' w).
Proof.
  intros H. unfold mergeEdges. destruct E as [|e E].
  - simpl in H. simplify_eq. exists false. by destruct w.
  - rewrite andb_false_r, H. simpl. eauto.
Qed.

(** X20.  With history enabled, on a well-formed graph where no dropped
    key has a self-loop and every edge at a dropped node has a non-empty
    key: [dropNodes] on a list of node keys removes those nodes, and the
    [undo] that follows returns [true] and puts every dropped node and every
    edge that touched one back with the attributes it had, [hidden]
    included; the whole graph is as before. *)
Theorem dropNodes_undo_restores
    (ks : list NodeKey) (w : WebGraph) (h : HistoryManager.t) :
  is_Some (renderer w) →
  appState w = ACTIVE →
  isHistoryEnabled w = true →
  history w = Some h →
  wf_graph (graphData w) →
  loop_free_at ks (graphData w) →
  (∀ e d, g_edges (graphData w) !! e = Some d → touches ks d → e ≠ "") →
  (∀ k, k ∈ ks →
     g_nodes (graphData (dropNodes (ByKey <$> ks) true w).2) !! k = None) ∧
  ∃ w', undo edgeKeyGenerator (dropNodes (ByKey <$> ks) true w).2 = Ok (true, w') ∧
        (∀ k, k ∈ ks → g_nodes (graphData w') !! k = g_nodes (graphData w) !! k) ∧
        (∀ e d, g_edges (graphData w) !! e = Some d → touches ks d →
           g_edges (graphData w') !! e = Some d) ∧
        graphData w' = graphData w.
Proof.
  intros [r Hr] Ha Hen Hh Hwf Hlf Hkeys.
  destruct (dropNodes_loop_true ks w [] [] Hwf Hlf)
    as (w1 & Nl & L & Hloop & Hf & Hm & Hwf1 & Hn & Hnd & Hna & He & Hed & Hea & Ht).
  cbn [app] in Hloop.
  assert ((dropNodes (ByKey <$> ks) true w).2 =
            history_addAction
              (mkData None (Some (node_record <$> Nl)) (Some (edge_record <$> L))
                 None None None)
              DROP_NODE noData w1) as Hdrop.
  { unfold dropNodes. rewrite Hen. cbn [andb]. by rewrite Hloop. }
  rewrite Hdrop. split.
  { intros k Hk. simpl.
    destruct (dropNodes_loop_nodes true (ByKey <$> ks) w [] []) as [_ Hgone].
    rewrite Hloop in Hgone. simpl in Hgone. rewrite Hgone.
    rewrite decide_True; [done|].
    rewrite <- list_fmap_compose. by rewrite list_fmap_id. }
  destruct Hf as (Hfc & Hfa & Hfr & Hfe & Hfh).
  (* the replayed merge of the recorded nodes *)
  set (wA := history_addAction
               (mkData None (Some (node_record <$> Nl)) (Some (edge_record <$> L))
                  None None None) DROP_NODE noData w1).
  set (G2 := mkGraph (multi (graphData w1))
               (list_to_map Nl ∪ g_nodes (graphData w1)) (g_edges (graphData w1))).
  assert ((mergeNodes (node_record <$> Nl) false wA).2 = set_graphData G2 wA) as HB.
  { rewrite mergeNodes_replay. f_equal. simpl.
    rewrite mergeNodes_loop_absent by done. simpl. fold G2.
    apply unhide_loop_id. intros n ([k a] & -> & Hin)%list_elem_of_fmap. simpl.
    apply incident_nil. simpl. intros e d Hd.
    destruct Hwf1 as [Hends _]. destruct (Hends e d Hd) as [[? Hs] [? Ht']].
    assert (g_nodes (graphData w1) !! k = None) as Hk
      by (apply Hna; by apply (list_elem_of_fmap_2 fst) in Hin).
    split; intros <-; congruence. }
  (* the replayed merge of the recorded edges *)
  assert (∀ e d, (e, d) ∈ L → g_edges (graphData w) !! e = Some d) as HL.
  { intros e d Hin. rewrite He. rewrite lookup_union_l'.
    - by apply elem_of_list_to_map_1.
    - apply elem_of_fst_list_to_map. by apply (list_elem_of_fmap_2 fst) in Hin. }
  assert (mergeEdges_loop edgeKeyGenerator false (edge_record <$> L) G2 []
          = Ok (graphData w, [])) as Hre.
  { rewrite mergeEdges_loop_restore.
    - simpl. rewrite <- Hn, <- He, Hm. by destruct (graphData w).
    - done.
    - intros e ([e' d] & -> & Hin)%list_elem_of_fmap. simpl. split.
      + apply Hea. by apply (list_elem_of_fmap_2 fst) in Hin.
      + apply (Hkeys e' d); [by apply HL|]. by apply (Ht (e', d)).
    - intros [e d] Hin. simpl. rewrite <- Hn.
      destruct Hwf as [Hends _]. apply (Hends e). by apply HL.
    - simpl. rewrite Hm, <- He. by destruct Hwf as [_ Hpar]. }
  destruct (mergeEdges_replay (edge_record <$> L) (set_graphData G2 wA) (graphData w) Hre)
    as [b Hme].
  unfold undo, isRenderingActive. simpl.
  rewrite Hfr, Hr, Hfa, Ha, Hfe, Hen, Hfh, Hh. simpl.
  rewrite getLatestAction_addAction. simpl.
  unfold undo_switch. simpl.
  fold wA.
  destruct (mergeNodes (node_record <$> Nl) false wA) as [b' wB] eqn:EB.
  simpl in HB. subst wB. rewrite Hme. simpl.
  eexists. split; [reflexivity|]. simpl. done.
Qed.

(** The replay of a [DROP_NODE] action, given what its two merges do to
    the graph. *)
Lemma undo_drop_replay (w : WebGraph) N E g2 g3 h r :
  renderer w = Some r → appState w = ACTIVE →
  isHistoryEnabled w = true → history w = Some h →
  (mergeNodes N false
     (history_addAction (mkData None (Some N) (Some E) None None None)
        DROP_NODE noData w)).2
  = set_graphData g2
      (history_addAction (mkData None (Some N) (Some E) None None None)
         DROP_NODE noData w) →
  mergeEdges_loop edgeKeyGenerator false E g2 [] = Ok (g3, []) →
  ∃ w', undo edgeKeyGenerator
          (history_addAction (mkData None (Some N) (Some E) None None None)
             DROP_NODE noData w) = Ok (true, w')
        ∧ graphData w' = g3.
Proof.
  intros Hr Ha Hen Hh HB Hre.
  set (wA := history_addAction (mkData None (Some N) (Some E) None None None)
               DROP_NODE noData w) in *.
  destruct (mergeEdges_replay E (set_graphData g2 wA) g3 Hre) as [b Hme].
  unfold undo, isRenderingActive. simpl.
  rewrite Hr, Ha, Hen, Hh. simpl.
  rewrite getLatestAction_addAction. simpl.
  unfold undo_switch. simpl.
  fold wA.
  destruct (mergeNodes N false wA) as [b' wB] eqn:EB.
  simpl in HB. subst wB. rewrite Hme. simpl.
  eexists. split; reflexivity.
Qed.

(** [dropNodes(['n1'])] on [pair_empty_key]: what it logs and leaves. *)
Lemma dropNodes_empty_key_action :
  (dropNodes [ByKey "n1"] true (Sample.rendered Sample.pair_empty_key Sample.config)).2
  = history_addAction
      (mkData None (Some [mkNode "n1" (Some {["x" := VNum 1]})])
         (Some [mkEdge (Some "") "n1" "n2" (Some {["hidden" := VBool true]})])
         None None None)
      DROP_NODE noData
      (set_graphData (Graphology.dropNode "n1" Sample.pair_empty_key)
         (Sample.rendered Sample.pair_empty_key Sample.config)).
Proof. vm_compute. reflexivity. Qed.

Lemma dropNodes_empty_key_renderer :
  renderer (set_graphData (Graphology.dropNode "n1" Sample.pair_empty_key)
              (Sample.rendered Sample.pair_empty_key Sample.config))
  = Some (mkRenderer Sample.sigma).
Proof. vm_compute. reflexivity. Qed.

Lemma dropNodes_empty_key_appState :
  appState (set_graphData (Graphology.dropNode "n1" Sample.pair_empty_key)
              (Sample.rendered Sample.pair_empty_key Sample.config)) = ACTIVE.
Proof. vm_compute. reflexivity. Qed.

Lemma dropNodes_empty_key_enabled :
  isHistoryEnabled (set_graphData (Graphology.dropNode "n1" Sample.pair_empty_key)
                      (Sample.rendered Sample.pair_empty_key Sample.config)) = true.
Proof. vm_compute. reflexivity. Qed.

Lemma dropNodes_empty_key_history :
  history (set_graphData (Graphology.dropNode "n1" Sample.pair_empty_key)
             (Sample.rendered Sample.pair_empty_key Sample.config)) = Some [].
Proof. vm_compute. reflexivity. Qed.

(** The replayed [mergeNodes] puts [n1] back. *)
Lemma mergeNodes_empty_key_replay D w :
  (mergeNodes [mkNode "n1" (Some {["x" := VNum 1]})] false
     (history_addAction D DROP_NODE noData
        (set_graphData (Graphology.dropNode "n1" Sample.pair_empty_key) w))).2
  = set_graphData (mkGraph true (g_nodes Sample.pair_empty_key) ∅)
      (history_addAction D DROP_NODE noData
         (set_graphData (Graphology.dropNode "n1" Sample.pair_empty_key) w)).
Proof. rewrite mergeNodes_replay. f_equal. Qed.

(** The replayed [mergeEdges] reads the key [''] as no key and lets the
    store give the edge a key. *)
Lemma mergeEdges_loop_empty_key :
  mergeEdges_loop edgeKeyGenerator false
    [mkEdge (Some "") "n1" "n2" (Some {["hidden" := VBool true]})]
    (mkGraph true (g_nodes Sample.pair_empty_key) ∅) []
  = Ok (mkGraph true (g_nodes Sample.pair_empty_key)
          {[edgeKeyGenerator (mkGraph true (g_nodes Sample.pair_empty_key) ∅)
              := mkEdgeData "n1" "n2" {["hidden" := VBool true]}]}, []).
Proof.
  set (G2 := mkGraph true (g_nodes Sample.pair_empty_key) ∅).
  cbn [mergeEdges_loop].
  change (key_given (edge_key (mkEdge (Some "") "n1" "n2"
                                 (Some {["hidden" := VBool true]}))))
    with (@None string).
  cbn [andb edge_source edge_target edge_attributes].
  unfold Graphology.mergeEdge.
  change (Graphology.collision G2 "n1" "n2") with (@None string).
  change (g_edges G2) with (∅ : gmap string EdgeData).
  rewrite lookup_empty.
  assert (∀ k, Graphology.addEdge k "n1" "n2"
                 (default ∅ (Some {["hidden" := VBool true]})) G2
               = mkGraph true (g_nodes Sample.pair_empty_key)
                   {[k := mkEdgeData "n1" "n2" {["hidden" := VBool true]}]}) as ->
    by reflexivity.
  reflexivity.
Qed.

(** C1.  An edge whose key is the empty string is not restored under its
    key.  On the graph with the nodes [n1] and [n2] and one hidden edge
    from [n1] to [n2] under the key [''], with history enabled and a store
    whose generated keys are not empty, [dropNodes(['n1'])] followed by
    [undo()] returns [true]; [mergeEdges] reads the key [''] as a missing
    key and merges the edge without one, so afterwards no edge has the key
    [''] and the only edge of the graph is under the key the store has
    generated. *)
Theorem dropNodes_undo_loses_empty_key :
  (∀ g, edgeKeyGenerator g ≠ "") →
  isHistoryEnabled (Sample.rendered Sample.pair_empty_key Sample.config) = true ∧
  g_edges (graphData (Sample.rendered Sample.pair_empty_key Sample.config)) !! ""
  = Some (mkEdgeData "n1" "n2" {["hidden" := VBool true]}) ∧
  ∃ w', undo edgeKeyGenerator
          (dropNodes [ByKey "n1"] true
             (Sample.rendered Sample.pair_empty_key Sample.config)).2
        = Ok (true, w') ∧
        g_edges (graphData w') !! "" = None ∧
        g_edges (graphData w')
        = {[edgeKeyGenerator (mkGraph true (g_nodes Sample.pair_empty_key) ∅)
              := mkEdgeData "n1" "n2" {["hidden" := VBool true]}]}.
Proof.
  intros Hgen. split; [vm_compute; reflexivity|]. split; [vm_compute; reflexivity|].
  rewrite dropNodes_empty_key_action.
  destruct (undo_drop_replay _ _ _ _ _ _ _
              dropNodes_empty_key_renderer dropNodes_empty_key_appState
              dropNodes_empty_key_enabled dropNodes_empty_key_history
              (mergeNodes_empty_key_replay _ _) mergeEdges_loop_empty_key)
    as (w' & Hu & Hg).
  exists w'. split; [exact Hu|]. rewrite Hg. cbn [g_edges]. split; [|reflexivity].
  apply lookup_singleton_ne, Hgen.
Qed.

End Restore.

Lemma keyGenerator_nonempty g : Sample.keyGenerator g ≠ "".
Proof. unfold Sample.keyGenerator. discriminate. Qed.

(** With the sample generator: the edge [''] is gone after the [undo]. *)
Lemma dropNodes_undo_loses_empty_key_witness :
  ∃ w', undo Sample.keyGenerator
          (dropNodes [ByKey "n1"] true
             (Sample.rendered Sample.pair_empty_key Sample.config)).2
        = Ok (true, w') ∧
        g_edges (graphData w') !! "" = None.
Proof.
  destruct (dropNodes_undo_loses_empty_key Sample.keyGenerator keyGenerator_nonempty)
    as (_ & _ & w' & H1 & H2 & _).
  exists w'. split; [exact H1|exact H2].
Defined.

Lemma wf_graph_pair : wf_graph Sample.pair.
Proof.
  split; [|discriminate].
  intros e d H. unfold Sample.pair in H. simpl in H.
  apply lookup_insert_Some in H as [[<- <-]|[_ H]]; [|by rewrite lookup_empty in H].
  split; vm_compute; eauto.
Qed.

Lemma loop_free_pair : loop_free Sample.pair.
Proof.
  change (map_Forall (λ (_ : string) d, source d ≠ target d) (g_edges Sample.pair)).
  apply (bool_decide_unpack _). vm_compute. exact I.
Qed.

(** The node [n1] of [pair] dropped and brought back with its hidden edge. *)
Lemma dropNodes_undo_restores_witness :
  ∃ w', undo Sample.keyGenerator
          (dropNodes (ByKey <$> ["n1"]) true (Sample.rendered Sample.pair Sample.config)).2
        = Ok (true, w')
        ∧ g_edges (graphData w') !! "e1"
          = Some (mkEdgeData "n1" "n2" {["hidden" := VBool true]})
        ∧ graphData w' = graphData (Sample.rendered Sample.pair Sample.config).
Proof.
  assert (graphData (Sample.rendered Sample.pair Sample.config) = Sample.pair) as Hg
    by (vm_compute; reflexivity).
  destruct (dropNodes_undo_restores Sample.keyGenerator ["n1"]
              (Sample.rendered Sample.pair Sample.config) [])
    as [_ (w' & H1 & _ & H2 & H3)].
  - vm_compute. eauto.
  - vm_compute. reflexivity.
  - vm_compute. reflexivity.
  - vm_compute. reflexivity.
  - rewrite Hg. apply wf_graph_pair.
  - rewrite Hg. apply loop_free_loop_free_at, loop_free_pair.
  - rewrite Hg. intros e d H _. unfold Sample.pair in H. simpl in H.
    apply lookup_insert_Some in H as [[<- <-]|[_ H]]; [discriminate|].
    by rewrite lookup_empty in H.
  - exists w'. split; [exact H1|]. split; [|exact H3].
    apply H2; [vm_compute; reflexivity|]. left. simpl. apply list_elem_of_here.
Defined.

(** * Further properties of the mutation gateway *)

(** ** What [dropNodes] does to the graph and to the highlight sets *)

Section DropEffect.

Lemma dropNodes_unfold refs b w :
  (dropNodes refs b w).2 =
    let r := foldl (dropNodes_step (isHistoryEnabled w && b)) (w, [], []) refs in
    if isHistoryEnabled w && b
    then history_addAction (mkData None (Some r.1.2) (Some r.2) None None None)
           DROP_NODE noData r.1.1
    else r.1.1.
Proof. unfold dropNodes. by destruct (foldl _ _ _) as [[w1 N] E]. Qed.

Lemma graphData_dropNodes refs b w :
  graphData (dropNodes refs b w).2 =
    graphData (foldl (dropNodes_step (isHistoryEnabled w && b)) (w, [], []) refs).1.1.
Proof. rewrite dropNodes_unfold. simpl. by case_match. Qed.

Lemma not_touches_nil d : ¬ touches [] d.
Proof. unfold touches. rewrite !elem_of_nil. tauto. Qed.

(** The edges left by the loop of [dropNodes]: those that touch none of the
    keys. *)
Lemma dropNodes_loop_edges rec refs w N E :
  wf_graph (graphData w) →
  wf_graph (graphData (foldl (dropNodes_step rec) (w, N, E) refs).1.1) ∧
  multi (graphData (foldl (dropNodes_step rec) (w, N, E) refs).1.1)
    = multi (graphData w) ∧
  g_edges (graphData (foldl (dropNodes_step rec) (w, N, E) refs).1.1)
    = filter (λ p, ¬ touches (ref_key <$> refs) p.2) (g_edges (graphData w)).
Proof.
  revert w N E. induction refs as [|r refs IH]; intros w N E Hwf.
  - simpl. split_and!; [done..|]. symmetry. apply map_filter_id.
    intros e d _. apply not_touches_nil.
  - rewrite fmap_cons. cbn [foldl].
    destruct (g_nodes (graphData w) !! ref_key r) as [a|] eqn:Ha.
    + destruct (dropNodes_step_Some rec w N E r a Ha) as (w' & -> & Hf & Hg).
      destruct (IH w' (if rec then N ++ [mkNode (ref_toString r) (Some a)] else N)
                  (if rec
                   then E ++ (edge_record <$> Graphology.edges (graphData w) (ref_key r))
                   else E)) as (Hwf' & Hm & He).
      { rewrite Hg. by apply wf_dropNode. }
      split_and!; [done|by rewrite Hm, Hg|].
      rewrite He, Hg. simpl. apply map_eq. intros e. apply option_eq. intros d.
      rewrite !map_lookup_filter_Some. simpl. rewrite is_incident_false.
      unfold touches. rewrite !elem_of_cons. naive_solver.
    + rewrite (dropNodes_step_None rec (w, N, E) r Ha).
      destruct (IH w N E Hwf) as (Hwf' & Hm & He).
      split_and!; [done..|]. rewrite He. apply map_filter_ext.
      intros e d Hd. simpl. unfold touches. rewrite !elem_of_cons.
      destruct Hwf as [Hends _]. destruct (Hends e d Hd) as [[? Hs] [? Ht]].
      assert (source d ≠ ref_key r) by congruence.
      assert (target d ≠ ref_key r) by congruence. tauto.
Qed.

(** X1.  On a well-formed graph, [dropNodes] removes exactly the nodes whose
    key it was given and the edges that touch one of them; every other node
    and edge stays as it was, and the graph stays well formed. *)
Theorem dropNodes_graph (refs : list NodeRef) (b : bool) (w : WebGraph) :
  wf_graph (graphData w) →
  (∀ k, g_nodes (graphData (dropNodes refs b w).2) !! k =
          if decide (k ∈ ref_key <$> refs) then None
          else g_nodes (graphData w) !! k) ∧
  g_edges (graphData (dropNodes refs b w).2)
    = filter (λ p, ¬ touches (ref_key <$> refs) p.2) (g_edges (graphData w)) ∧
  multi (graphData (dropNodes refs b w).2) = multi (graphData w) ∧
  wf_graph (graphData (dropNodes refs b w).2).
Proof.
  intros Hwf. rewrite graphData_dropNodes.
  destruct (dropNodes_loop_nodes (isHistoryEnabled w && b) refs w [] []) as [_ Hn].
  destruct (dropNodes_loop_edges (isHistoryEnabled w && b) refs w [] [] Hwf)
    as (Hwf' & Hm & He).
  done.
Qed.

Lemma sets_hideNodeInfoBoxContainer b w :
  highlightedNodes (hideNodeInfoBoxContainer b w) = highlightedNodes w ∧
  highlightedEdges (hideNodeInfoBoxContainer b w) = highlightedEdges w.
Proof. unfold hideNodeInfoBoxContainer. by repeat case_match. Qed.

Lemma dropNodes_step_sets rec w N E r a :
  g_nodes (graphData w) !! ref_key r = Some a →
  highlightedNodes (dropNodes_step rec (w, N, E) r).1.1
    = highlightedNodes w ∖ {[ref_key r]} ∧
  highlightedEdges (dropNodes_step rec (w, N, E) r).1.1
    = highlightedEdges w
        ∖ list_to_set (Graphology.edges (graphData w) (ref_key r)).*1.
Proof.
  intros H. unfold dropNodes_step. rewrite H. simpl.
  by destruct (sets_hideNodeInfoBoxContainer false
       (set_highlightedEdges
          (highlightedEdges w
             ∖ list_to_set (Graphology.edges (graphData w) (ref_key r)).*1)
          (set_highlightedNodes (highlightedNodes w ∖ {[ref_key r]}) w))) as [-> ->].
Qed.

Lemma elem_of_incident_keys g k e :
  e ∈ (Graphology.incident g k).*1
  ↔ ∃ d, g_edges g !! e = Some d ∧ (source d = k ∨ target d = k).
Proof.
  rewrite list_elem_of_fmap. split.
  - intros ([e' d] & -> & H). apply elem_of_incident in H. eauto.
  - intros (d & H). exists (e, d). split; [done|]. by apply elem_of_incident.
Qed.

Lemma dropNodes_loop_sets rec refs w N E :
  wf_graph (graphData w) →
  loop_free_at (ref_key <$> refs) (graphData w) →
  (∀ k, k ∈ highlightedNodes (foldl (dropNodes_step rec) (w, N, E) refs).1.1
        ↔ k ∈ highlightedNodes w
          ∧ ¬ (k ∈ ref_key <$> refs ∧ is_Some (g_nodes (graphData w) !! k))) ∧
  (∀ e, e ∈ highlightedEdges (foldl (dropNodes_step rec) (w, N, E) refs).1.1
        ↔ e ∈ highlightedEdges w
          ∧ ∀ d, g_edges (graphData w) !! e = Some d
                 → ¬ touches (ref_key <$> refs) d).
Proof.
  revert w N E. induction refs as [|r refs IH]; intros w N E Hwf Hlf.
  - simpl. split.
    + intros k. rewrite elem_of_nil. tauto.
    + intros e. split; [|tauto]. intros H. split; [done|].
      intros d _. apply not_touches_nil.
  - rewrite fmap_cons. cbn [foldl].
    destruct (g_nodes (graphData w) !! ref_key r) as [a|] eqn:Ha.
    + destruct (dropNodes_step_sets rec w N E r a Ha) as [HN HE].
      destruct (dropNodes_step_Some rec w N E r a Ha) as (w' & Hst & Hf & Hg).
      rewrite Hst in HN, HE. rewrite Hst. simpl in HN, HE.
      destruct (IH w' (if rec then N ++ [mkNode (ref_toString r) (Some a)] else N)
                  (if rec
                   then E ++ (edge_record <$> Graphology.edges (graphData w) (ref_key r))
                   else E)) as [IHn IHe].
      { rewrite Hg. by apply wf_dropNode. }
      { rewrite Hg. by apply loop_free_at_dropNode. }
      assert (Graphology.self_loops (graphData w) (ref_key r) = 0) as Hk0
        by (eapply self_loops_loop_free_at; [done|apply list_elem_of_here]).
      split.
      * intros k. rewrite IHn, HN, Hg. simpl.
        rewrite elem_of_difference, elem_of_singleton, elem_of_cons.
        destruct (decide (k = ref_key r)) as [->|Hne].
        -- rewrite Ha. naive_solver.
        -- rewrite lookup_delete_ne by done. naive_solver.
      * intros e. rewrite IHe, HE, Hg. simpl.
        rewrite elem_of_difference, elem_of_list_to_set, elem_of_edges_keys by done.
        rewrite elem_of_incident_keys.
        unfold touches. setoid_rewrite elem_of_cons.
        setoid_rewrite map_lookup_filter_Some. simpl.
        setoid_rewrite is_incident_false. naive_solver.
    + rewrite (dropNodes_step_None rec (w, N, E) r Ha).
      destruct (IH w N E Hwf (loop_free_at_tail _ _ _ Hlf)) as [IHn IHe]. split.
      * intros k. rewrite IHn, elem_of_cons.
        assert (k = ref_key r → ¬ is_Some (g_nodes (graphData w) !! k)) as Hk
          by (intros ->; rewrite Ha; by intros [? ?]).
        tauto.
      * intros e. rewrite IHe. destruct Hwf as [Hends _].
        split; intros [H1 H2]; (split; [done|]); intros d Hd Ht;
          apply (H2 d Hd); destruct (Hends e d Hd) as [[? Hs] [? Ht']];
          assert (source d ≠ ref_key r) by congruence;
          assert (target d ≠ ref_key r) by congruence;
          unfold touches in Ht |- *; rewrite ?elem_of_cons in Ht;
          rewrite ?elem_of_cons; tauto.
Qed.

(** X2.  On a well-formed graph where none of the given keys has a
    self-loop, [dropNodes] takes out of the highlighted nodes exactly the
    nodes it drops and out of the highlighted edges exactly the edges it
    removes; if the highlight sets only held keys of the graph before, they
    still do afterwards. *)
Theorem dropNodes_highlight (refs : list NodeRef) (b : bool) (w : WebGraph) :
  wf_graph (graphData w) →
  loop_free_at (ref_key <$> refs) (graphData w) →
  (∀ k, k ∈ highlightedNodes (dropNodes refs b w).2
        ↔ k ∈ highlightedNodes w
          ∧ ¬ (k ∈ ref_key <$> refs ∧ is_Some (g_nodes (graphData w) !! k))) ∧
  (∀ e, e ∈ highlightedEdges (dropNodes refs b w).2
        ↔ e ∈ highlightedEdges w
          ∧ ∀ d, g_edges (graphData w) !! e = Some d
                 → ¬ touches (ref_key <$> refs) d) ∧
  (highlight_in_graph w → highlight_in_graph (dropNodes refs b w).2).
Proof.
  intros Hwf Hlf.
  destruct (dropNodes_loop_nodes (isHistoryEnabled w && b) refs w [] []) as [_ Hn].
  destruct (dropNodes_loop_edges (isHistoryEnabled w && b) refs w [] [] Hwf)
    as (_ & _ & He).
  rewrite <- graphData_dropNodes in Hn, He.
  destruct (dropNodes_loop_sets (isHistoryEnabled w && b) refs w [] [] Hwf Hlf)
    as [HN HE].
  assert (highlightedNodes (dropNodes refs b w).2
          = highlightedNodes
              (foldl (dropNodes_step (isHistoryEnabled w && b)) (w, [], []) refs).1.1)
    as EN by (rewrite dropNodes_unfold; simpl; by case_match).
  assert (highlightedEdges (dropNodes refs b w).2
          = highlightedEdges
              (foldl (dropNodes_step (isHistoryEnabled w && b)) (w, [], []) refs).1.1)
    as EE by (rewrite dropNodes_unfold; simpl; by case_match).
  rewrite EN, EE. split_and!; [done..|].
  intros [Hin1 Hin2]. split.
  - intros k Hk. rewrite EN in Hk. apply HN in Hk as [Hk Hno].
    rewrite Hn. destruct (Hin1 k Hk) as [a Hka].
    case_decide; [|eauto]. destruct Hno. eauto.
  - intros e Hk. rewrite EE in Hk. apply HE in Hk as [Hk Hno].
    rewrite He. destruct (Hin2 e Hk) as [d Hd].
    exists d. apply map_lookup_filter_Some. split; [done|]. by apply Hno.
Qed.

Lemma dropNodes_loop_missing rec refs acc :
  (∀ r, r ∈ refs → g_nodes (graphData acc.1.1) !! ref_key r = None) →
  foldl (dropNodes_step rec) acc refs = acc.
Proof.
  induction refs as [|r refs IH]; intros H; [done|].
  cbn [foldl]. rewrite dropNodes_step_None by (apply H, list_elem_of_here).
  apply IH. intros r' Hr'. by apply H, list_elem_of_further.
Qed.

(** X3.  Keys that are not nodes are skipped: when none of the keys is in
    the graph, [dropNodes] returns [true] and changes nothing, except that
    with the history on it still logs a [DROP_NODE] action, one without nodes
    or edges. *)
Theorem dropNodes_missing_keys (refs : list NodeRef) (b : bool) (w : WebGraph) :
  (∀ r, r ∈ refs → g_nodes (graphData w) !! ref_key r = None) →
  dropNodes refs b w =
    (true,
     if isHistoryEnabled w && b
     then history_addAction (mkData None (Some []) (Some []) None None None)
            DROP_NODE noData w
     else w).
Proof.
  intros H. unfold dropNodes.
  by rewrite (dropNodes_loop_missing _ refs (w, [], [])).
Qed.

Lemma ref_key_ByKey (ks : list NodeKey) : ref_key <$> (ByKey <$> ks) = ks.
Proof. rewrite <- list_fmap_compose. apply list_fmap_id. Qed.

(** X4.  With the history on, on a well-formed graph where none of the
    given keys has a self-loop, [dropNodes] on a list of keys logs one
    [DROP_NODE] action for the whole call; its old data holds every node
    that was dropped, once, with the attributes it had, and every edge that
    was removed, once, with its key, end points and attributes. *)
Theorem dropNodes_records (ks : list NodeKey) (w : WebGraph) (h : HistoryManager.t) :
  isHistoryEnabled w = true →
  history w = Some h →
  wf_graph (graphData w) →
  loop_free_at ks (graphData w) →
  ∃ (Nl : list (string * Attributes)) (L : list (string * EdgeData)),
    history (dropNodes (ByKey <$> ks) true w).2 =
      Some (HistoryManager.addAction
              (mkData None (Some (node_record <$> Nl)) (Some (edge_record <$> L))
                 None None None) DROP_NODE noData h) ∧
    NoDup Nl.*1 ∧ NoDup L.*1 ∧
    (∀ k a, (k, a) ∈ Nl ↔ k ∈ ks ∧ g_nodes (graphData w) !! k = Some a) ∧
    (∀ e d, (e, d) ∈ L ↔ g_edges (graphData w) !! e = Some d ∧ touches ks d).
Proof.
  intros Hen Hh Hwf Hlf.
  destruct (dropNodes_loop_true ks w [] [] Hwf Hlf)
    as (w1 & Nl & L & Hloop & Hf & Hm & Hwf1 & Hn & Hnd & Hna & He & Hed & Hea & Ht).
  cbn [app] in Hloop.
  destruct (dropNodes_loop_nodes true (ByKey <$> ks) w [] []) as [_ Hn1].
  destruct (dropNodes_loop_edges true (ByKey <$> ks) w [] [] Hwf) as (_ & _ & He1).
  rewrite Hloop in Hn1, He1. simpl in Hn1, He1. rewrite ref_key_ByKey in He1.
  exists Nl, L. split_and!; [|done..| |].
  - rewrite dropNodes_unfold, Hen. cbn [andb]. cbv zeta. rewrite Hloop. simpl.
    destruct Hf as (_ & _ & _ & _ & ->). by rewrite Hh.
  - intros k a. rewrite (elem_of_list_to_map (M := gmap string)) by done. split.
    + intros Hl. assert (g_nodes (graphData w) !! k = Some a) as Hg
        by (rewrite Hn; apply lookup_union_Some_raw; by left).
      split; [|done].
      assert (g_nodes (graphData w1) !! k = None) as H1.
      { apply Hna. apply (elem_of_list_to_map_2 (M := gmap string)) in Hl.
        by apply (list_elem_of_fmap_2 fst) in Hl. }
      rewrite Hn1, ref_key_ByKey in H1. case_decide; [done|congruence].
    + intros [Hk Hg]. rewrite Hn in Hg.
      apply lookup_union_Some_raw in Hg as [?|[_ Hg]]; [done|].
      rewrite Hn1, ref_key_ByKey, decide_True in Hg by done. done.
  - intros e d. rewrite (elem_of_list_to_map (M := gmap string)) by done. split.
    + intros Hl. split.
      * rewrite He. apply lookup_union_Some_raw. by left.
      * apply (Ht (e, d)). by apply (elem_of_list_to_map_2 (M := gmap string)).
    + intros [Hg Hto]. rewrite He in Hg.
      apply lookup_union_Some_raw in Hg as [?|[_ Hg]]; [done|].
      rewrite He1 in Hg. apply map_lookup_filter_Some in Hg as [_ Hno]. done.
Qed.

End DropEffect.

Lemma graphData_rendered_pair :
  graphData (Sample.rendered Sample.pair Sample.config) = Sample.pair.
Proof. vm_compute. reflexivity. Qed.

Lemma wf_graph_triangle : wf_graph Sample.triangle.
Proof.
  split; [|discriminate].
  change (map_Forall
            (λ (_ : string) d, is_Some (g_nodes Sample.triangle !! source d)
                               ∧ is_Some (g_nodes Sample.triangle !! target d))
            (g_edges Sample.triangle)).
  apply (bool_decide_unpack _). vm_compute. exact I.
Qed.

(** Dropping [n1] from [pair] leaves [n2] and a well-formed graph. *)
Lemma dropNodes_graph_witness :
  g_nodes (graphData (dropNodes [ByKey "n1"] true
                        (Sample.rendered Sample.pair Sample.config)).2) !! "n1" = None ∧
  g_nodes (graphData (dropNodes [ByKey "n1"] true
                        (Sample.rendered Sample.pair Sample.config)).2) !! "n2"
    = Some {["x" := VNum 2]} ∧
  wf_graph (graphData (dropNodes [ByKey "n1"] true
                         (Sample.rendered Sample.pair Sample.config)).2).
Proof.
  destruct (dropNodes_graph [ByKey "n1"] true (Sample.rendered Sample.pair Sample.config))
    as (Hn & _ & _ & Hwf).
  - rewrite graphData_rendered_pair. apply wf_graph_pair.
  - split_and!; [rewrite Hn; vm_compute; reflexivity..|exact Hwf].
Defined.

(** Dropping the hovered node [h] of [triangle] keeps the highlight sets
    inside the graph. *)
Lemma dropNodes_highlight_witness :
  highlight_in_graph (dropNodes [ByKey "h"] true Sample.hovered).2.
Proof.
  destruct (dropNodes_highlight [ByKey "h"] true Sample.hovered) as (_ & _ & H).
  - replace (graphData Sample.hovered) with Sample.triangle by (vm_compute; reflexivity).
    apply wf_graph_triangle.
  - replace (graphData Sample.hovered) with Sample.triangle by (vm_compute; reflexivity).
    apply loop_free_loop_free_at, loop_free_triangle.
  - apply H. split.
    + intros k Hk. apply (bool_decide_unpack _).
      revert k Hk. apply (set_Forall_elements _). apply (bool_decide_unpack _).
      vm_compute. exact I.
    + intros k Hk. apply (bool_decide_unpack _).
      revert k Hk. apply (set_Forall_elements _). apply (bool_decide_unpack _).
      vm_compute. exact I.
Defined.

(** Dropping a key that [pair] does not have only logs an empty action. *)
Lemma dropNodes_missing_keys_witness :
  (dropNodes [ByKey "zz"] true (Sample.rendered Sample.pair Sample.config)).1 = true ∧
  graphData (dropNodes [ByKey "zz"] true (Sample.rendered Sample.pair Sample.config)).2
    = Sample.pair.
Proof.
  rewrite (dropNodes_missing_keys [ByKey "zz"] true
             (Sample.rendered Sample.pair Sample.config)).
  - split; vm_compute; reflexivity.
  - intros r Hr. apply list_elem_of_singleton in Hr as ->. vm_compute. reflexivity.
Defined.

(** Dropping [n1] from [pair] logs one action with [n1] and [e1]. *)
Lemma dropNodes_records_witness :
  ∃ Nl L,
    history (dropNodes (ByKey <$> ["n1"]) true
               (Sample.rendered Sample.pair Sample.config)).2 =
      Some (HistoryManager.addAction
              (mkData None (Some (node_record <$> Nl)) (Some (edge_record <$> L))
                 None None None) DROP_NODE noData []) ∧
    ("n1", {["x" := VNum 1]}) ∈ Nl ∧
    ("e1", mkEdgeData "n1" "n2" {["hidden" := VBool true]}) ∈ L.
Proof.
  destruct (dropNodes_records ["n1"] (Sample.rendered Sample.pair Sample.config) [])
    as (Nl & L & Hh & _ & _ & HN & HL).
  - vm_compute. reflexivity.
  - vm_compute. reflexivity.
  - rewrite graphData_rendered_pair. apply wf_graph_pair.
  - rewrite graphData_rendered_pair. apply loop_free_loop_free_at, loop_free_pair.
  - exists Nl, L. split; [exact Hh|]. split.
    + apply HN. split; [apply list_elem_of_here|vm_compute; reflexivity].
    + apply HL. split; [vm_compute; reflexivity|]. left. apply list_elem_of_here.
Defined.

(** * The effect of [mergeNodes] *)

Section MergeEffect.

Lemma mergeNodes_step_frame rec g acc n :
  g_edges (mergeNodes_step rec (g, acc) n).1 = g_edges g ∧
  multi (mergeNodes_step rec (g, acc) n).1 = multi g.
Proof.
  unfold mergeNodes_step, Graphology.mergeNode. simpl.
  by destruct (g_nodes g !! node_key n).
Qed.

Lemma mergeNodes_loop_frame rec nodes g acc :
  g_edges (foldl (mergeNodes_step rec) (g, acc) nodes).1 = g_edges g ∧
  multi (foldl (mergeNodes_step rec) (g, acc) nodes).1 = multi g.
Proof.
  revert g acc. induction nodes as [|n nodes IH]; intros g acc; [done|].
  cbn [foldl]. destruct (mergeNodes_step rec (g, acc) n) as [g1 acc1] eqn:E.
  destruct (IH g1 acc1) as [-> ->].
  destruct (mergeNodes_step_frame rec g acc n) as [H1 H2].
  rewrite E in H1, H2. done.
Qed.

(** The nodes after the loop of [mergeNodes]. *)
Lemma mergeNodes_loop_nodes rec nodes g acc :
  (∀ k, k ∉ node_key <$> nodes →
     g_nodes (foldl (mergeNodes_step rec) (g, acc) nodes).1 !! k = g_nodes g !! k) ∧
  (∀ k, is_Some (g_nodes g !! k) →
     is_Some (g_nodes (foldl (mergeNodes_step rec) (g, acc) nodes).1 !! k)) ∧
  (∀ n, n ∈ nodes →
     is_Some (g_nodes (foldl (mergeNodes_step rec) (g, acc) nodes).1 !! node_key n)) ∧
  (NoDup (node_key <$> nodes) → ∀ n, n ∈ nodes →
     g_nodes (foldl (mergeNodes_step rec) (g, acc) nodes).1 !! node_key n
     = Some (match g_nodes g !! node_key n with
             | Some old => assign old (default ∅ (node_attributes n))
             | None => default ∅ (node_attributes n)
             end)).
Proof.
  revert g acc. induction nodes as [|n nodes IH]; intros g acc.
  - simpl. split_and!; [done|done|by intros ? ?%elem_of_nil|by intros _ ? ?%elem_of_nil].
  - cbn [foldl]. destruct (mergeNodes_step rec (g, acc) n) as [g1 acc1] eqn:E.
    assert (g1 = Graphology.mergeNode (node_key n) (node_attributes n) g) as Hg1.
    { unfold mergeNodes_step in E. by simplify_eq. }
    assert (∀ k, k ≠ node_key n → g_nodes g1 !! k = g_nodes g !! k) as Hne.
    { intros k Hk. rewrite Hg1. by apply mergeNode_lookup_ne. }
    assert (g_nodes g1 !! node_key n
            = Some (match g_nodes g !! node_key n with
                    | Some old => assign old (default ∅ (node_attributes n))
                    | None => default ∅ (node_attributes n)
                    end)) as Heq.
    { rewrite Hg1. unfold Graphology.mergeNode.
      destruct (g_nodes g !! node_key n); simpl; by rewrite lookup_insert_eq. }
    destruct (IH g1 acc1) as (H1 & H2 & H3 & H4).
    rewrite fmap_cons. split_and!.
    + intros k Hk. apply not_elem_of_cons in Hk as [Hk1 Hk2].
      rewrite H1 by done. by apply Hne.
    + intros k Hk. apply H2. destruct (decide (k = node_key n)) as [->|Hk'].
      * rewrite Heq. eauto.
      * by rewrite Hne.
    + intros m Hm. apply elem_of_cons in Hm as [->|Hm]; [|by apply H3].
      apply H2. rewrite Heq. eauto.
    + intros Hnd m Hm. apply NoDup_cons in Hnd as [Hn Hnd].
      apply elem_of_cons in Hm as [->|Hm].
      * rewrite H1 by done. exact Heq.
      * rewrite H4 by done. rewrite Hne; [done|].
        intros E'. apply Hn. rewrite <- E'. by apply list_elem_of_fmap_2.
Qed.

(** What the loop of [mergeNodes] snapshots has keys of the passed nodes. *)
Lemma mergeNodes_loop_acc rec nodes g acc m :
  m ∈ (foldl (mergeNodes_step rec) (g, acc) nodes).2 →
  m ∈ acc ∨ node_key m ∈ node_key <$> nodes.
Proof.
  revert g acc. induction nodes as [|n nodes IH]; intros g acc; [by left|].
  cbn [foldl]. destruct (mergeNodes_step rec (g, acc) n) as [g1 acc1] eqn:E.
  intros [H|H]%IH.
  - unfold mergeNodes_step in E.
    destruct (g_nodes g !! node_key n), rec; simplify_eq; auto.
    all: apply elem_of_app in H as [H|H]; [by left|].
    all: apply list_elem_of_singleton in H as ->; right.
    all: rewrite fmap_cons; apply list_elem_of_here.
  - right. rewrite fmap_cons. by apply list_elem_of_further.
Qed.

Lemma unhidden_idemp d : unhidden (unhidden d) = unhidden d.
Proof. unfold unhidden. simpl. by rewrite insert_insert_eq. Qed.

Lemma g_edges_setEdgeAttribute_loop (L : list EdgeKey) g e :
  g_edges (foldl (λ g edge, Graphology.setEdgeAttribute edge "hidden" (VBool false) g) g L)
    !! e
  = if decide (e ∈ L) then unhidden <$> g_edges g !! e else g_edges g !! e.
Proof.
  revert g. induction L as [|x L IH]; intros g.
  - cbn [foldl]. destruct (decide (e ∈ [])) as [H|]; [by apply elem_of_nil in H|done].
  - cbn [foldl]. rewrite IH. unfold Graphology.setEdgeAttribute. simpl.
    fold (unhidden).
    destruct (decide (e = x)) as [->|Hne].
    + rewrite lookup_alter_eq. rewrite (decide_True (P := x ∈ x :: L)) by apply list_elem_of_here.
      case_decide; [|done].
      destruct (g_edges g !! x) as [d|]; simpl; [|done].
      f_equal. apply unhidden_idemp.
    + rewrite lookup_alter_ne by done.
      repeat case_decide; try done; set_solver.
Qed.

Lemma g_edges_unhideEdgesOf g n :
  g_edges (unhideEdgesOf g n)
  = (λ d, if decide (touches [node_key n] d) then unhidden d else d) <$> g_edges g.
Proof.
  apply map_eq. intros e. unfold unhideEdgesOf.
  rewrite g_edges_setEdgeAttribute_loop, lookup_fmap.
  unfold Graphology.edges_of.
  destruct (g_edges g !! e) as [d|] eqn:Hd; simpl.
  - case_decide as H1; case_decide as H2; try done.
    + apply elem_of_incident_keys in H1 as (d' & Hd' & Hst).
      exfalso. apply H2. simplify_eq. unfold touches.
      rewrite !list_elem_of_singleton. done.
    + exfalso. apply H1. apply elem_of_incident_keys. exists d. split; [done|].
      unfold touches in H2. by rewrite !list_elem_of_singleton in H2.
  - by case_decide.
Qed.

Lemma multi_unhideEdgesOf g n : multi (unhideEdgesOf g n) = multi g.
Proof.
  unfold unhideEdgesOf. generalize (Graphology.edges_of g (node_key n)).
  intros L. revert g. induction L as [|x L IH]; intros g; [done|].
  cbn [foldl]. by rewrite IH.
Qed.

Lemma touches_unhidden ks d : touches ks (unhidden d) ↔ touches ks d.
Proof. done. Qed.

Lemma g_edges_unhide_loop N g :
  g_edges (foldl unhideEdgesOf g N)
  = (λ d, if decide (touches (node_key <$> N) d) then unhidden d else d) <$> g_edges g.
Proof.
  revert g. induction N as [|n N IH]; intros g.
  - cbn [foldl]. rewrite <- (map_fmap_id (g_edges g)) at 1. apply map_fmap_ext.
    intros e d _. done.
  - cbn [foldl]. rewrite IH, g_edges_unhideEdgesOf, <- map_fmap_compose.
    apply map_fmap_ext. intros e d _. rewrite fmap_cons. unfold compose.
    assert (touches (node_key n :: (node_key <$> N)) d
            ↔ touches [node_key n] d ∨ touches (node_key <$> N) d) as Hiff.
    { unfold touches. rewrite !elem_of_cons, !elem_of_nil. tauto. }
    repeat case_decide; try done; try (by rewrite unhidden_idemp);
      exfalso; rewrite ?touches_unhidden in *; tauto.
Qed.

Lemma multi_unhide_loop N g : multi (foldl unhideEdgesOf g N) = multi g.
Proof.
  revert g. induction N as [|n N IH]; intros g; [done|].
  cbn [foldl]. by rewrite IH, multi_unhideEdgesOf.
Qed.

Lemma graphData_mergeNodes nodes b w :
  graphData (mergeNodes nodes b w).2 =
    if b then (foldl (mergeNodes_step (isHistoryEnabled w && b)) (graphData w, []) nodes).1
    else foldl unhideEdgesOf
           (foldl (mergeNodes_step (isHistoryEnabled w && b)) (graphData w, []) nodes).1
           nodes.
Proof.
  unfold mergeNodes. destruct nodes as [|n nodes]; [by destruct b|].
  destruct (foldl _ _ _) as [g1 ex]. by destruct b, (isHistoryEnabled w).
Qed.

Lemma wf_graph_topology g g' :
  multi g' = multi g →
  (∀ k, is_Some (g_nodes g !! k) → is_Some (g_nodes g' !! k)) →
  (∀ e d', g_edges g' !! e = Some d' →
     ∃ d, g_edges g !! e = Some d ∧ source d = source d' ∧ target d = target d') →
  wf_graph g → wf_graph g'.
Proof.
  intros Hm Hn He [Hends Hpar]. split.
  - intros e d' Hd'. destruct (He e d' Hd') as (d & Hd & <- & <-).
    destruct (Hends e d Hd). split; by apply Hn.
  - rewrite Hm. intros Hf e1 e2 d1 d2 H1 H2 Hs Ht.
    destruct (He e1 d1 H1) as (d1' & H1' & Hs1 & Ht1).
    destruct (He e2 d2 H2) as (d2' & H2' & Hs2 & Ht2).
    apply (Hpar Hf e1 e2 d1' d2' H1' H2'); congruence.
Qed.

Lemma ref_key_ByNode (nodes : list SerializedNode) :
  ref_key <$> (ByNode <$> nodes) = node_key <$> nodes.
Proof. by rewrite <- list_fmap_compose. Qed.

(** X5.  [mergeNodes] is an upsert on the nodes: keys that were not passed
    keep their attributes, no node is removed, every passed key is a node
    afterwards, and when the passed keys are pairwise distinct each passed
    node holds its old attributes overwritten by the passed ones (just the
    passed ones when it is new). *)
Theorem mergeNodes_nodes (nodes : list SerializedNode) (b : bool) (w : WebGraph) :
  (∀ k, k ∉ node_key <$> nodes →
     g_nodes (graphData (mergeNodes nodes b w).2) !! k = g_nodes (graphData w) !! k) ∧
  (∀ k, is_Some (g_nodes (graphData w) !! k) →
     is_Some (g_nodes (graphData (mergeNodes nodes b w).2) !! k)) ∧
  (∀ n, n ∈ nodes →
     is_Some (g_nodes (graphData (mergeNodes nodes b w).2) !! node_key n)) ∧
  (NoDup (node_key <$> nodes) → ∀ n, n ∈ nodes →
     g_nodes (graphData (mergeNodes nodes b w).2) !! node_key n
     = Some (match g_nodes (graphData w) !! node_key n with
             | Some old => assign old (default ∅ (node_attributes n))
             | None => default ∅ (node_attributes n)
             end)).
Proof.
  rewrite graphData_mergeNodes.
  destruct b; rewrite ?g_nodes_unhide_loop; apply mergeNodes_loop_nodes.
Qed.

(** X6.  [mergeNodes] adds and removes no edge.  Called with
    [addToHistory = true] it leaves every edge as it is; called with
    [addToHistory = false] it sets [hidden] to [false] on exactly the edges
    that have a passed key as source or target.  A well-formed graph stays
    well-formed. *)
Theorem mergeNodes_edges (nodes : list SerializedNode) (b : bool) (w : WebGraph) :
  g_edges (graphData (mergeNodes nodes b w).2)
    = (if b then g_edges (graphData w)
       else (λ d, if decide (touches (node_key <$> nodes) d) then unhidden d else d)
              <$> g_edges (graphData w)) ∧
  multi (graphData (mergeNodes nodes b w).2) = multi (graphData w) ∧
  (wf_graph (graphData w) → wf_graph (graphData (mergeNodes nodes b w).2)).
Proof.
  assert (g_edges (graphData (mergeNodes nodes b w).2)
    = (if b then g_edges (graphData w)
       else (λ d, if decide (touches (node_key <$> nodes) d) then unhidden d else d)
              <$> g_edges (graphData w))) as He.
  { rewrite graphData_mergeNodes. destruct b.
    - apply mergeNodes_loop_frame.
    - rewrite g_edges_unhide_loop. f_equal. apply mergeNodes_loop_frame. }
  assert (multi (graphData (mergeNodes nodes b w).2) = multi (graphData w)) as Hm.
  { rewrite graphData_mergeNodes.
    destruct b; rewrite ?multi_unhide_loop; apply mergeNodes_loop_frame. }
  split_and!; [done..|].
  apply wf_graph_topology; [done| |].
  - rewrite graphData_mergeNodes.
    destruct b; rewrite ?g_nodes_unhide_loop; apply mergeNodes_loop_nodes.
  - intros e d'. rewrite He. destruct b; [eauto|].
    rewrite lookup_fmap. destruct (g_edges (graphData w) !! e) as [d|]; [|done].
    simpl. intros [= <-]. exists d. split; [done|]. by case_decide.
Qed.

Section MergeUndo.

Context (edgeKeyGenerator : Graph → EdgeKey).

(** X7.  With the history on, [undo] after [mergeNodes] returns [true] and
    leaves the graph without the edges that have a merged key as source or
    target: the replay drops the merged nodes, and their edges with them,
    before it puts the earlier nodes back.  All other edges are as before. *)
Theorem mergeNodes_undo_edges
    (nodes : list SerializedNode) (w : WebGraph) (h : HistoryManager.t) :
  is_Some (renderer w) →
  appState w = ACTIVE →
  isHistoryEnabled w = true →
  history w = Some h →
  nodes ≠ [] →
  wf_graph (graphData w) →
  ∃ w', undo edgeKeyGenerator (mergeNodes nodes true w).2 = Ok (true, w') ∧
        g_edges (graphData w')
        = filter (λ p, ¬ touches (node_key <$> nodes) p.2) (g_edges (graphData w)).
Proof.
  intros [r Hr] Ha He Hh Hne Hwf.
  destruct (foldl (mergeNodes_step true) (graphData w, []) nodes) as [g1 ex] eqn:Hloop.
  pose proof (mergeNodes_loop_frame true nodes (graphData w) []) as [He1 Hm1].
  pose proof (mergeNodes_loop_nodes true nodes (graphData w) []) as (_ & Hn1 & _).
  pose proof (λ m, mergeNodes_loop_acc true nodes (graphData w) [] m) as Hex.
  rewrite Hloop in He1, Hm1, Hn1, Hex. simpl in He1, Hm1, Hn1, Hex.
  assert (wf_graph g1) as Hwf1.
  { apply (wf_graph_topology (graphData w)); [done..| |done].
    intros e d' Hd'. rewrite He1 in Hd'. eauto. }
  assert ((mergeNodes nodes true w).2 =
            history_addAction (mkData None (Some ex) None None None None)
              UPDATE_OR_ADD_NODE (mkData None (Some nodes) None None None None)
              (set_graphData g1 w)) as ->.
  { unfold mergeNodes. destruct nodes as [|n0 nodes0]; [done|].
    rewrite He. cbn [andb]. rewrite Hloop. reflexivity. }
  unfold undo, isRenderingActive. simpl. rewrite Hr, Ha, He, Hh. simpl.
  rewrite getLatestAction_addAction. simpl.
  unfold undo_switch. simpl.
  match goal with
  | |- context [dropNodes ?refs false ?w1] =>
      pose proof (graphData_dropNodes refs false w1) as Hg2;
      pose proof (dropNodes_loop_edges (isHistoryEnabled w1 && false) refs w1 [] [])
        as Hl2;
      destruct (dropNodes refs false w1) as [b2 w2] eqn:E2
  end.
  simpl in Hg2, Hl2. destruct (Hl2 Hwf1) as (_ & _ & He2).
  rewrite <- Hg2, ref_key_ByNode, He1 in He2. clear Hl2 Hg2.
  destruct (mergeNodes (json_copy_node <$> ex) false w2) as [b3 w3] eqn:E3.
  assert (w3 = (mergeNodes (json_copy_node <$> ex) false w2).2) as ->
    by (by rewrite E3).
  simpl. eexists. split; [reflexivity|]. simpl.
  rewrite graphData_mergeNodes, g_edges_unhide_loop, node_key_json_copy.
  destruct (mergeNodes_loop_frame (isHistoryEnabled w2 && false)
              (json_copy_node <$> ex) (graphData w2) []) as [-> _].
  rewrite He2. rewrite <- (map_fmap_id (filter _ _)) at 2.
  apply map_fmap_ext. intros e d Hd.
  apply map_lookup_filter_Some in Hd as [_ Hno]. simpl in Hno.
  rewrite decide_False; [done|].
  intros [Hs|Ht]; apply Hno.
  - apply list_elem_of_fmap in Hs as (m & Hs & Hm).
    destruct (Hex m Hm) as [[]%elem_of_nil|Hk]. left. by rewrite Hs.
  - apply list_elem_of_fmap in Ht as (m & Ht & Hm).
    destruct (Hex m Hm) as [[]%elem_of_nil|Hk]. right. by rewrite Ht.
Qed.

End MergeUndo.

End MergeEffect.

(** Merging [n1] and [n3] into [pair] and undoing it loses the edge [e1]. *)
Lemma mergeNodes_undo_edges_witness :
  ∃ w', undo Sample.keyGenerator
          (mergeNodes Sample.two_nodes true (Sample.rendered Sample.pair Sample.config)).2
        = Ok (true, w')
        ∧ g_edges (graphData (Sample.rendered Sample.pair Sample.config)) !! "e1"
          = Some (mkEdgeData "n1" "n2" {["hidden" := VBool true]})
        ∧ g_edges (graphData w') !! "e1" = None.
Proof.
  destruct (mergeNodes_undo_edges Sample.keyGenerator Sample.two_nodes
              (Sample.rendered Sample.pair Sample.config) [])
    as (w' & H1 & H2).
  - vm_compute. eauto.
  - vm_compute. reflexivity.
  - vm_compute. reflexivity.
  - vm_compute. reflexivity.
  - discriminate.
  - rewrite graphData_rendered_pair. apply wf_graph_pair.
  - exists w'. split; [exact H1|]. split; [vm_compute; reflexivity|].
    rewrite H2, graphData_rendered_pair. vm_compute. reflexivity.
Defined.

(** * The effect of [mergeEdges] and [replaceEdges] *)

Section EdgeEffect.

Lemma ensureNode_lookup k g k' :
  g_nodes (Graphology.ensureNode k g) !! k'
  = match g_nodes g !! k' with
    | Some a => Some a
    | None => if decide (k' = k) then Some ∅ else None
    end.
Proof.
  unfold Graphology.ensureNode. destruct (g_nodes g !! k) as [a|] eqn:E.
  - destruct (g_nodes g !! k') eqn:E'; [done|]. case_decide; [|done]. congruence.
  - simpl. destruct (decide (k' = k)) as [->|Hne].
    + by rewrite lookup_insert_eq, E.
    + rewrite lookup_insert_ne by done. by destruct (g_nodes g !! k').
Qed.

Lemma ensureNode_frame k g :
  multi (Graphology.ensureNode k g) = multi g ∧
  g_edges (Graphology.ensureNode k g) = g_edges g.
Proof. unfold Graphology.ensureNode. by destruct (g_nodes g !! k). Qed.

Lemma nodes_grow_assignEdge e attrs s t g :
  (wf_graph g → is_Some (g_nodes g !! s) ∧ is_Some (g_nodes g !! t)) →
  nodes_grow s t g (Graphology.assignEdge e attrs g).
Proof.
  intros Hst.
  assert (∀ e' d', g_edges (Graphology.assignEdge e attrs g) !! e' = Some d' →
            ∃ d, g_edges g !! e' = Some d ∧ source d = source d' ∧ target d = target d')
    as Htop.
  { intros e' d'. simpl. destruct (decide (e' = e)) as [->|Hne].
    - rewrite lookup_alter_eq. destruct (g_edges g !! e) as [d|]; [|done].
      simpl. intros [= <-]. eauto.
    - rewrite lookup_alter_ne by done. eauto. }
  unfold nodes_grow. split_and!; [done|done|eauto|eauto|].
  intros Hwf. split; [|by apply Hst].
  by apply (wf_graph_topology g).
Qed.

Lemma collision_Some g s t e :
  Graphology.collision g s t = Some e →
  multi g = false ∧ ∃ d, g_edges g !! e = Some d ∧ source d = s ∧ target d = t.
Proof.
  unfold Graphology.collision. destruct (multi g); [done|]. intros H. split; [done|].
  apply elem_of_edges_between. destruct (Graphology.edges_between g s t); simplify_eq/=.
  apply list_elem_of_here.
Qed.

Lemma collision_None_inv g s t :
  Graphology.collision g s t = None →
  multi g = false →
  ∀ e d, g_edges g !! e = Some d → ¬ (source d = s ∧ target d = t).
Proof.
  unfold Graphology.collision. intros H Hm. rewrite Hm in H.
  intros e d Hd [Hs Ht].
  assert (e ∈ Graphology.edges_between g s t) as Hin
    by (apply elem_of_edges_between; eauto).
  destruct (Graphology.edges_between g s t); [by apply elem_of_nil in Hin|done].
Qed.

Lemma nodes_grow_addEdge e s t attrs g :
  Graphology.collision g s t = None →
  nodes_grow s t g (Graphology.addEdge e s t attrs g).
Proof.
  intros Hc. unfold nodes_grow, Graphology.addEdge.
  destruct (ensureNode_frame t (Graphology.ensureNode s g)) as [Hm2 He2].
  destruct (ensureNode_frame s g) as [Hm1 He1].
  assert (∀ k a, g_nodes g !! k = Some a →
            g_nodes (Graphology.ensureNode t (Graphology.ensureNode s g)) !! k = Some a)
    as Hmono.
  { intros k a Hk. by rewrite !ensureNode_lookup, Hk. }
  assert (is_Some (g_nodes (Graphology.ensureNode t (Graphology.ensureNode s g)) !! s)
          ∧ is_Some (g_nodes (Graphology.ensureNode t (Graphology.ensureNode s g)) !! t))
    as [Hs Ht].
  { rewrite !ensureNode_lookup. split.
    - destruct (g_nodes g !! s); [eauto|]. rewrite decide_True by done. eauto.
    - destruct (g_nodes g !! t); [eauto|].
      destruct (decide (t = s)); [eauto|]. rewrite decide_True by done. eauto. }
  simpl. split_and!.
  - congruence.
  - done.
  - intros k a. rewrite !ensureNode_lookup.
    destruct (g_nodes g !! k); [by left|].
    repeat case_decide; intros; simplify_eq; right; auto.
  - intros e' d'. destruct (decide (e' = e)) as [->|Hne].
    + rewrite lookup_insert_eq. intros [= <-]. by right.
    + rewrite lookup_insert_ne, He2, He1 by done. eauto.
  - intros [Hends Hpar]. split; [|done]. split.
    + simpl. intros e' d'. destruct (decide (e' = e)) as [->|Hne].
      * rewrite lookup_insert_eq. intros [= <-]. done.
      * rewrite lookup_insert_ne, He2, He1 by done. intros Hd.
        destruct (Hends e' d' Hd) as [[a1 H1] [a2 H2]].
        split; eexists; by apply Hmono.
    + simpl. rewrite Hm2, Hm1. intros Hf e1 e2 d1 d2.
      pose proof (collision_None_inv g s t Hc Hf) as Hno.
      destruct (decide (e1 = e)) as [->|Hne1], (decide (e2 = e)) as [->|Hne2];
        rewrite ?lookup_insert_eq, ?lookup_insert_ne, ?He2, ?He1 by done; try done.
      * intros [= <-] H2 Hs' Ht'. simpl in *. destruct (Hno e2 d2 H2). done.
      * intros H1 [= <-] Hs' Ht'. simpl in *. destruct (Hno e1 d1 H1). done.
      * by apply Hpar.
Qed.

Lemma wf_collision_ends g s t e :
  wf_graph g → Graphology.collision g s t = Some e →
  is_Some (g_nodes g !! s) ∧ is_Some (g_nodes g !! t).
Proof.
  intros [Hends _] Hc. apply collision_Some in Hc as (_ & d & Hd & <- & <-).
  by apply (Hends e d).
Qed.

Lemma nodes_grow_mergeEdgeWithKey e s t attrs g g' :
  Graphology.mergeEdgeWithKey e s t attrs g = Ok g' → nodes_grow s t g g'.
Proof.
  unfold Graphology.mergeEdgeWithKey.
  destruct (g_edges g !! e) as [d|] eqn:Hd.
  - destruct (bool_decide (source d = s)) eqn:Es; [|done].
    destruct (bool_decide (target d = t)) eqn:Et; [|done].
    simpl. intros [= <-]. apply nodes_grow_assignEdge.
    intros [Hends _]. apply bool_decide_eq_true in Es, Et. subst.
    by apply (Hends e d).
  - destruct (Graphology.collision g s t) as [e'|] eqn:Ec; intros [= <-].
    + apply nodes_grow_assignEdge. intros Hwf. by apply (wf_collision_ends g s t e').
    + by apply nodes_grow_addEdge.
Qed.

Lemma nodes_grow_mergeEdge gen s t attrs g g' :
  Graphology.mergeEdge gen s t attrs g = Ok g' → nodes_grow s t g g'.
Proof.
  unfold Graphology.mergeEdge.
  destruct (Graphology.collision g s t) as [e'|] eqn:Ec.
  - intros [= <-]. apply nodes_grow_assignEdge. intros Hwf.
    by apply (wf_collision_ends g s t e').
  - destruct (g_edges g !! gen g); [done|]. intros [= <-]. by apply nodes_grow_addEdge.
Qed.

Lemma result_bind_Ok {A B} (m : result A) (k : A → result B) b :
  m ≫= k = Ok b → ∃ a, m = Ok a ∧ k a = Ok b.
Proof. destruct m as [a|]; [|done]. intros H. exists a. by split. Qed.

Context (edgeKeyGenerator : Graph → EdgeKey).

Lemma mergeEdges_loop_cons rec edge edges g acc g1 acc1 :
  mergeEdges_loop edgeKeyGenerator rec (edge :: edges) g acc = Ok (g1, acc1) →
  ∃ g' acc',
    nodes_grow (edge_source edge) (edge_target edge) g g' ∧
    mergeEdges_loop edgeKeyGenerator rec edges g' acc' = Ok (g1, acc1) ∧
    (rec = false → acc' = acc).
Proof.
  cbn [mergeEdges_loop]. intros H.
  apply result_bind_Ok in H as (acc' & Hacc & H).
  apply result_bind_Ok in H as (g' & Hg & H).
  exists g', acc'. split_and!; [|done|].
  - destruct (key_given (edge_key edge)).
    + by apply nodes_grow_mergeEdgeWithKey in Hg.
    + by apply nodes_grow_mergeEdge in Hg.
  - intros ->. simpl in Hacc. by simplify_eq.
Qed.

(** The nodes through the loop of [mergeEdges]. *)
Lemma mergeEdges_loop_grow rec edges g acc g1 acc1 :
  mergeEdges_loop edgeKeyGenerator rec edges g acc = Ok (g1, acc1) →
  multi g1 = multi g ∧
  (∀ k a, g_nodes g !! k = Some a → g_nodes g1 !! k = Some a) ∧
  (∀ k a, g_nodes g1 !! k = Some a →
     g_nodes g !! k = Some a
     ∨ (a = ∅ ∧ ∃ e, e ∈ edges ∧ (k = edge_source e ∨ k = edge_target e))) ∧
  (∀ e d, g_edges g1 !! e = Some d →
     (∃ d0, g_edges g !! e = Some d0 ∧ source d0 = source d ∧ target d0 = target d)
     ∨ (∃ x, x ∈ edges ∧ source d = edge_source x ∧ target d = edge_target x)) ∧
  (wf_graph g →
     wf_graph g1 ∧
     ∀ e, e ∈ edges →
       is_Some (g_nodes g1 !! edge_source e) ∧ is_Some (g_nodes g1 !! edge_target e)).
Proof.
  revert g acc. induction edges as [|edge edges IH]; intros g acc H.
  - simpl in H. simplify_eq. split_and!; [done|done|eauto|eauto|].
    intros Hwf. split; [done|]. by intros ? ?%elem_of_nil.
  - apply mergeEdges_loop_cons in H
      as (g' & acc' & (Hm & Hmono & Hnew & Hed & Hwf') & H & _).
    destruct (IH g' acc' H) as (Hm1 & Hmono1 & Hnew1 & Hed1 & Hwf1).
    split_and!.
    + congruence.
    + eauto.
    + intros k a Hk. destruct (Hnew1 k a Hk) as [Hk'|(-> & e & He & Hst)].
      * destruct (Hnew k a Hk') as [?|[-> Hst]]; [by left|].
        right. split; [done|]. exists edge. split; [apply list_elem_of_here|done].
      * right. split; [done|]. exists e. split; [by apply list_elem_of_further|done].
    + intros e d Hd. destruct (Hed1 e d Hd) as [(d0 & Hd0 & Hs & Ht)|(x & Hx & Hst)].
      * destruct (Hed e d0 Hd0) as [(d1 & Hd1 & Hs1 & Ht1)|[Hs1 Ht1]].
        -- left. exists d1. split; [done|]. split; congruence.
        -- right. exists edge. split; [apply list_elem_of_here|]. split; congruence.
      * right. exists x. split; [by apply list_elem_of_further|done].
    + intros Hwf. destruct (Hwf' Hwf) as (Hwfg' & [a1 Hs] & [a2 Ht]).
      destruct (Hwf1 Hwfg') as [Hwfg1 Hends]. split; [done|].
      intros e [->|He]%elem_of_cons; [|by apply Hends].
      split; eexists; eauto.
Qed.

Lemma set_graphData_id w : set_graphData (graphData w) w = w.
Proof. by destruct w. Qed.

Lemma mergeEdges_Ok edges b w r w' :
  mergeEdges edgeKeyGenerator edges b w = Ok (r, w') →
  (r = false ↔ edges = []) ∧ (edges = [] → w' = w) ∧
  ∃ g1 ex,
    mergeEdges_loop edgeKeyGenerator (isHistoryEnabled w && b) edges (graphData w) []
      = Ok (g1, ex) ∧
    w' = (if isHistoryEnabled w && b && bool_decide (edges ≠ [])
          then history_addAction (mkData None None (Some ex) None None None)
                 UPDATE_OR_ADD_EDGE (mkData None None (Some edges) None None None)
                 (set_graphData g1 w)
          else set_graphData g1 w).
Proof.
  unfold mergeEdges. destruct edges as [|e edges].
  - intros [= <- <-]. split_and!; [done..|].
    exists (graphData w), []. split; [done|].
    by rewrite andb_false_r, set_graphData_id.
  - intros H. apply result_bind_Ok in H as ([g1 ex] & Hloop & H). simpl in H.
    simplify_eq. split_and!; [done..|]. exists g1, ex. split; [done|].
    by rewrite andb_true_r.
Qed.

Lemma graphData_mergeEdges edges b w r w' :
  mergeEdges edgeKeyGenerator edges b w = Ok (r, w') →
  ∃ ex, mergeEdges_loop edgeKeyGenerator (isHistoryEnabled w && b) edges (graphData w) []
        = Ok (graphData w', ex).
Proof.
  intros (_ & _ & g1 & ex & Hloop & ->)%mergeEdges_Ok. exists ex.
  rewrite Hloop. do 2 f_equal. by destruct (_ && _ && _).
Qed.

(** X8.  [mergeEdges] returns [false], and changes nothing, exactly when
    no edge was passed.  Otherwise, when the store accepts every edge: no
    node is removed or changed; a node that is new is an end point of a
    passed edge and has no attributes; every edge afterwards was there
    before with the same end points or joins the end points of a passed
    edge; and a well-formed graph stays well-formed, with the end points of
    every passed edge among its nodes. *)
Theorem mergeEdges_graph (edges : list SerializedEdge) (b r : bool) (w w' : WebGraph) :
  mergeEdges edgeKeyGenerator edges b w = Ok (r, w') →
  (r = false ↔ edges = []) ∧
  (edges = [] → w' = w) ∧
  multi (graphData w') = multi (graphData w) ∧
  (∀ k a, g_nodes (graphData w) !! k = Some a → g_nodes (graphData w') !! k = Some a) ∧
  (∀ k a, g_nodes (graphData w') !! k = Some a →
     g_nodes (graphData w) !! k = Some a
     ∨ (a = ∅ ∧ ∃ e, e ∈ edges ∧ (k = edge_source e ∨ k = edge_target e))) ∧
  (∀ e d, g_edges (graphData w') !! e = Some d →
     (∃ d0, g_edges (graphData w) !! e = Some d0
            ∧ source d0 = source d ∧ target d0 = target d)
     ∨ (∃ x, x ∈ edges ∧ source d = edge_source x ∧ target d = edge_target x)) ∧
  (wf_graph (graphData w) →
     wf_graph (graphData w') ∧
     ∀ e, e ∈ edges →
       is_Some (g_nodes (graphData w') !! edge_source e)
       ∧ is_Some (g_nodes (graphData w') !! edge_target e)).
Proof.
  intros H. destruct (graphData_mergeEdges _ _ _ _ _ H) as [ex Hloop].
  apply mergeEdges_Ok in H as (Hr & Hnil & _).
  split; [done|]. split; [done|]. by apply mergeEdges_loop_grow in Hloop.
Qed.

Lemma wf_graph_clearEdges g : wf_graph (Graphology.clearEdges g).
Proof. split; [by intros e d ?|]. by intros _ e1 e2 d1 d2 ?. Qed.

Lemma replaceEdges_Ok edges b w r w' :
  replaceEdges edgeKeyGenerator edges b w = Ok (r, w') →
  r = true ∧
  ∃ r1, mergeEdges edgeKeyGenerator edges false
          (set_graphData (Graphology.clearEdges (graphData w))
             (if isHistoryEnabled w && b
              then history_addAction
                     (mkData None None
                        (Some (edge_record <$> map_to_list (g_edges (graphData w))))
                        None None None)
                     REPLACE_EDGES (mkData None None (Some edges) None None None) w
              else w))
        = Ok (r1, w').
Proof.
  unfold replaceEdges. intros H.
  apply result_bind_Ok in H as ([r1 w1] & Hm & H). simpl in H. simplify_eq.
  split; [done|]. exists r1. rewrite <- Hm. f_equal. by destruct (_ && _).
Qed.

(** X9.  [replaceEdges] returns [true] whenever the store accepts every
    edge.  Afterwards no node is removed or changed, a new node is an end
    point of a passed edge with no attributes, every edge of the graph joins
    the end points of a passed edge (so an empty set clears the edges), and
    the graph is well-formed with the end points of every passed edge among
    its nodes, whatever it was before. *)
Theorem replaceEdges_graph (edges : list SerializedEdge) (b r : bool) (w w' : WebGraph) :
  replaceEdges edgeKeyGenerator edges b w = Ok (r, w') →
  r = true ∧
  multi (graphData w') = multi (graphData w) ∧
  (∀ k a, g_nodes (graphData w) !! k = Some a → g_nodes (graphData w') !! k = Some a) ∧
  (∀ k a, g_nodes (graphData w') !! k = Some a →
     g_nodes (graphData w) !! k = Some a
     ∨ (a = ∅ ∧ ∃ e, e ∈ edges ∧ (k = edge_source e ∨ k = edge_target e))) ∧
  (∀ e d, g_edges (graphData w') !! e = Some d →
     ∃ x, x ∈ edges ∧ source d = edge_source x ∧ target d = edge_target x) ∧
  (edges = [] → g_edges (graphData w') = ∅) ∧
  wf_graph (graphData w') ∧
  (∀ e, e ∈ edges →
     is_Some (g_nodes (graphData w') !! edge_source e)
     ∧ is_Some (g_nodes (graphData w') !! edge_target e)).
Proof.
  intros H. apply replaceEdges_Ok in H as [-> [r1 H]].
  destruct (graphData_mergeEdges _ _ _ _ _ H) as [ex Hloop].
  apply mergeEdges_loop_grow in Hloop as (Hm & Hmono & Hnew & Hed & Hwf).
  assert (graphData
            (set_graphData (Graphology.clearEdges (graphData w))
               (if isHistoryEnabled w && b
                then history_addAction
                       (mkData None None
                          (Some (edge_record <$> map_to_list (g_edges (graphData w))))
                          None None None)
                       REPLACE_EDGES (mkData None None (Some edges) None None None) w
                else w)) = Graphology.clearEdges (graphData w)) as Hg by done.
  rewrite Hg in Hm, Hmono, Hnew, Hed, Hwf. simpl in Hm, Hmono, Hnew, Hed.
  assert (∀ e d, g_edges (graphData w') !! e = Some d →
            ∃ x, x ∈ edges ∧ source d = edge_source x ∧ target d = edge_target x) as Hed'.
  { intros e d Hd. destruct (Hed e d Hd) as [(d0 & Hd0 & _)|?]; [|done].
    by rewrite lookup_empty in Hd0. }
  destruct (Hwf (wf_graph_clearEdges _)) as [Hwf' Hends].
  split_and!; try done.
  intros ->. apply map_empty. intros e.
  destruct (g_edges (graphData w') !! e) as [d|] eqn:Hd; [|done].
  destruct (Hed' e d Hd) as (x & []%elem_of_nil & _).
Qed.

Lemma replaceEdges_fresh (L : list (string * EdgeData)) b w :
  NoDup L.*1 →
  (∀ e, e ∈ L.*1 → e ≠ "") →
  (∀ p, p ∈ L →
     is_Some (g_nodes (graphData w) !! source p.2)
     ∧ is_Some (g_nodes (graphData w) !! target p.2)) →
  (multi (graphData w) = false → no_parallel (list_to_map L)) →
  replaceEdges edgeKeyGenerator (edge_record <$> L) b w
  = Ok (true,
        set_graphData
          (mkGraph (multi (graphData w)) (g_nodes (graphData w)) (list_to_map L))
          (if isHistoryEnabled w && b
           then history_addAction
                  (mkData None None
                     (Some (edge_record <$> map_to_list (g_edges (graphData w))))
                     None None None)
                  REPLACE_EDGES
                  (mkData None None (Some (edge_record <$> L)) None None None) w
           else w)).
Proof.
  intros Hnd Hkeys Hends Hpar. unfold replaceEdges. cbv zeta.
  match goal with
  | |- context [mergeEdges _ _ false ?w0] =>
      assert (graphData w0 = Graphology.clearEdges (graphData w)) as Hg0
        by (by destruct (_ && _));
      destruct (mergeEdges_replay edgeKeyGenerator (edge_record <$> L) w0
                  (mkGraph (multi (graphData w)) (g_nodes (graphData w)) (list_to_map L)))
        as [b1 ->]
  end.
  - rewrite Hg0, (mergeEdges_loop_restore edgeKeyGenerator L); simpl.
    + by rewrite (right_id_L ∅ (∪)).
    + done.
    + intros e He. split; [apply lookup_empty|by apply Hkeys].
    + done.
    + intros Hm. rewrite (right_id_L ∅ (∪)). by apply Hpar.
  - simpl. do 2 f_equal; by destruct (_ && _).
Qed.

(** X10.  Edges with pairwise distinct, non-empty keys whose end points are
    nodes of the graph, no two of them parallel when the graph is not a
    multigraph: [replaceEdges] accepts them, returns [true] and leaves the
    graph with exactly these edges and with the nodes it had. *)
Theorem replaceEdges_sets_edges
    (L : list (string * EdgeData)) (b : bool) (w : WebGraph) :
  NoDup L.*1 →
  (∀ e, e ∈ L.*1 → e ≠ "") →
  (∀ p, p ∈ L →
     is_Some (g_nodes (graphData w) !! source p.2)
     ∧ is_Some (g_nodes (graphData w) !! target p.2)) →
  (multi (graphData w) = false → no_parallel (list_to_map L)) →
  ∃ w', replaceEdges edgeKeyGenerator (edge_record <$> L) b w = Ok (true, w') ∧
        g_edges (graphData w') = list_to_map L ∧
        g_nodes (graphData w') = g_nodes (graphData w).
Proof.
  intros Hnd Hkeys Hends Hpar.
  rewrite replaceEdges_fresh by done. eexists. split; [reflexivity|]. done.
Qed.

(** X11.  With the history on, on a well-formed graph whose edges have
    non-empty keys: when [replaceEdges] succeeds, the [undo] that follows
    returns [true] and puts back exactly the edges the graph had, with their
    keys, end points and attributes.  End points that [replaceEdges] added
    as nodes stay. *)
Theorem replaceEdges_undo_restores
    (edges : list SerializedEdge) (r : bool) (w w1 : WebGraph) (h : HistoryManager.t) :
  is_Some (renderer w) →
  appState w = ACTIVE →
  isHistoryEnabled w = true →
  history w = Some h →
  wf_graph (graphData w) →
  (∀ e d, g_edges (graphData w) !! e = Some d → e ≠ "") →
  replaceEdges edgeKeyGenerator edges true w = Ok (r, w1) →
  ∃ w', undo edgeKeyGenerator w1 = Ok (true, w') ∧
        g_edges (graphData w') = g_edges (graphData w) ∧
        g_nodes (graphData w') = g_nodes (graphData w1).
Proof.
  intros [rd Hr] Ha Hen Hh [Hends Hpar] Hkeys H.
  apply replaceEdges_Ok in H as [-> [r1 H]].
  rewrite Hen in H. cbn [andb] in H.
  destruct (graphData_mergeEdges _ _ _ _ _ H) as [ex Hloop].
  apply mergeEdges_loop_grow in Hloop as (Hm & Hmono & _).
  simpl in Hm, Hmono.
  apply mergeEdges_Ok in H as (_ & _ & g1 & ex' & _ & ->).
  rewrite andb_false_r in *. simpl in Hm, Hmono.
  unfold undo, isRenderingActive. simpl. rewrite Hr, Ha, Hen, Hh. simpl.
  rewrite getLatestAction_addAction. simpl.
  unfold undo_switch. simpl.
  rewrite (replaceEdges_fresh (map_to_list (g_edges (graphData w)))).
  - simpl. eexists. split; [reflexivity|]. simpl.
    split; [|done]. apply list_to_map_to_list.
  - apply NoDup_fst_map_to_list.
  - intros e He. apply list_elem_of_fmap in He as ([e' d] & -> & Hin).
    apply elem_of_map_to_list in Hin. by apply (Hkeys e' d).
  - intros [e d] Hin. apply elem_of_map_to_list in Hin. simpl.
    destruct (Hends e d Hin) as [[a1 H1] [a2 H2]].
    split; eexists; by apply Hmono.
  - simpl. rewrite Hm. intros Hf. rewrite list_to_map_to_list. by apply Hpar.
Qed.

(** X12.  With the history on, [undo] right after a [mergeEdges] that
    merged at least one edge throws: the replay hands
    [JSON.parse(JSON.stringify(edges))] of a [Set] on, which is not a set of
    edges any more. *)
Theorem mergeEdges_undo_throws
    (edges : list SerializedEdge) (r : bool) (w w1 : WebGraph) (h : HistoryManager.t) :
  is_Some (renderer w) →
  appState w = ACTIVE →
  isHistoryEnabled w = true →
  history w = Some h →
  edges ≠ [] →
  mergeEdges edgeKeyGenerator edges true w = Ok (r, w1) →
  undo edgeKeyGenerator w1 = Throw TypeError.
Proof.
  intros [rd Hr] Ha Hen Hh Hne H.
  apply mergeEdges_Ok in H as (_ & _ & g1 & ex & _ & ->).
  rewrite Hen, (bool_decide_eq_true_2 _ Hne). simpl.
  unfold undo, isRenderingActive. simpl. rewrite Hr, Ha, Hen, Hh. simpl.
  by rewrite getLatestAction_addAction.
Qed.

End EdgeEffect.

(** Merging [new_edges] into [pair] adds the node [n3] with no attributes
    and keeps the graph well-formed. *)
Lemma mergeEdges_graph_witness :
  g_nodes (graphData Sample.edges_merged) !! "n1" = Some {["x" := VNum 1]} ∧
  wf_graph (graphData Sample.edges_merged) ∧
  is_Some (g_nodes (graphData Sample.edges_merged) !! "n3").
Proof.
  destruct (mergeEdges_graph Sample.keyGenerator Sample.new_edges true true
              (Sample.rendered Sample.pair Sample.config) Sample.edges_merged)
    as (_ & _ & _ & Hmono & _ & _ & Hwf).
  - vm_compute. reflexivity.
  - destruct Hwf as [Hwf Hends].
    + rewrite graphData_rendered_pair. apply wf_graph_pair.
    + split; [apply Hmono; vm_compute; reflexivity|]. split; [exact Hwf|].
      apply (Hends (mkEdge None "n1" "n3" None)).
      apply list_elem_of_further, list_elem_of_here.
Defined.

(** Replacing the edges of [pair] by [new_edges] leaves a well-formed graph
    in which the old edge [e1] is gone. *)
Lemma replaceEdges_graph_witness :
  wf_graph (graphData Sample.edges_replaced) ∧
  is_Some (g_nodes (graphData Sample.edges_replaced) !! "n3").
Proof.
  destruct (replaceEdges_graph Sample.keyGenerator Sample.new_edges true true
              (Sample.rendered Sample.pair Sample.config) Sample.edges_replaced)
    as (_ & _ & _ & _ & _ & _ & Hwf & Hends).
  - vm_compute. reflexivity.
  - split; [exact Hwf|].
    apply (Hends (mkEdge None "n1" "n3" None)).
    apply list_elem_of_further, list_elem_of_here.
Defined.

(** One new edge from [n2] to [n1] replaces the edges of [pair]. *)
Lemma replaceEdges_sets_edges_witness :
  ∃ w', replaceEdges Sample.keyGenerator
          (edge_record <$> [("e9", mkEdgeData "n2" "n1" ∅)]) true
          (Sample.rendered Sample.pair Sample.config) = Ok (true, w') ∧
        g_edges (graphData w') = {["e9" := mkEdgeData "n2" "n1" ∅]}.
Proof.
  destruct (replaceEdges_sets_edges Sample.keyGenerator
              [("e9", mkEdgeData "n2" "n1" ∅)] true
              (Sample.rendered Sample.pair Sample.config))
    as (w' & H1 & H2 & _).
  - apply NoDup_singleton.
  - intros e He. apply list_elem_of_singleton in He as ->. discriminate.
  - intros p Hp. apply list_elem_of_singleton in Hp as ->.
    split; vm_compute; eauto.
  - intros Hm. vm_compute in Hm. discriminate Hm.
  - exists w'. split; [exact H1|]. rewrite H2. simpl.
    by rewrite insert_empty.
Defined.

(** Replacing the edges of [pair] and undoing it brings [e1] back. *)
Lemma replaceEdges_undo_restores_witness :
  ∃ w', undo Sample.keyGenerator Sample.edges_replaced = Ok (true, w') ∧
        g_edges (graphData w') = g_edges Sample.pair.
Proof.
  destruct (replaceEdges_undo_restores Sample.keyGenerator Sample.new_edges true
              (Sample.rendered Sample.pair Sample.config) Sample.edges_replaced [])
    as (w' & H1 & H2 & _).
  - vm_compute. eauto.
  - vm_compute. reflexivity.
  - vm_compute. reflexivity.
  - vm_compute. reflexivity.
  - rewrite graphData_rendered_pair. apply wf_graph_pair.
  - rewrite graphData_rendered_pair. intros e d H ->. vm_compute in H. discriminate H.
  - vm_compute. reflexivity.
  - exists w'. split; [exact H1|]. by rewrite H2, graphData_rendered_pair.
Defined.

(** [undo] after merging [new_edges] into [pair] throws. *)
Lemma mergeEdges_undo_throws_witness :
  undo Sample.keyGenerator Sample.edges_merged = Throw TypeError.
Proof.
  apply (mergeEdges_undo_throws Sample.keyGenerator Sample.new_edges true
           (Sample.rendered Sample.pair Sample.config) Sample.edges_merged []).
  - vm_compute. eauto.
  - vm_compute. reflexivity.
  - vm_compute. reflexivity.
  - vm_compute. reflexivity.
  - discriminate.
  - vm_compute. reflexivity.
Defined.

(** * Undo and redo of the recorded operations *)

Section HistoryLog.

Lemma filter_nonreverted_idemp (h : HistoryManager.t) :
  filter (λ a, isReverted a = false) (filter (λ a, isReverted a = false) h)
  = filter (λ a, isReverted a = false) h.
Proof. rewrite list_filter_filter. apply list_filter_iff. intros a. tauto. Qed.

Lemma filter_reverted_nonreverted (h : HistoryManager.t) :
  filter (λ a, isReverted a = true) (filter (λ a, isReverted a = false) h) = [].
Proof.
  rewrite list_filter_filter. induction h as [|a h IH]; [done|].
  rewrite filter_cons. case_decide as H; [|done].
  destruct H as [H1 H2]. congruence.
Qed.

Lemma markLatestActionAsReverted_addAction old ty new (h : HistoryManager.t) :
  HistoryManager.markLatestActionAsReverted (HistoryManager.addAction old ty new h)
  = filter (λ a, isReverted a = false) h ++ [mkAction old ty new true].
Proof.
  unfold HistoryManager.markLatestActionAsReverted, HistoryManager.addAction.
  rewrite reverse_snoc. simpl. by rewrite reverse_cons, reverse_involutive.
Qed.

Lemma getLatestRevertedAction_snoc old ty new (h : HistoryManager.t) :
  HistoryManager.getLatestRevertedAction
    (filter (λ a, isReverted a = false) h ++ [mkAction old ty new true])
  = Some (mkAction old ty new true).
Proof.
  unfold HistoryManager.getLatestRevertedAction.
  by rewrite filter_app, filter_reverted_nonreverted.
Qed.

Lemma markFirst_false_snoc old ty new (h : HistoryManager.t) :
  Forall (λ a, isReverted a = false) h →
  HistoryManager.markFirst false (h ++ [mkAction old ty new true])
  = h ++ [mkAction old ty new false].
Proof.
  induction 1 as [|a h Ha _ IH]; [done|].
  simpl. rewrite Ha. simpl. by rewrite IH.
Qed.

Lemma markLatestRevertedActionAsNotReverted_snoc old ty new (h : HistoryManager.t) :
  HistoryManager.markLatestRevertedActionAsNotReverted
    (filter (λ a, isReverted a = false) h ++ [mkAction old ty new true])
  = HistoryManager.addAction old ty new h.
Proof.
  unfold HistoryManager.markLatestRevertedActionAsNotReverted.
  rewrite markFirst_false_snoc; [done|].
  apply Forall_forall. intros a Ha. by apply list_elem_of_filter in Ha as [? _].
Qed.

Lemma getLatestAction_snoc_reverted old ty new (h : HistoryManager.t) :
  HistoryManager.getLatestAction
    (filter (λ a, isReverted a = false) h ++ [mkAction old ty new true])
  = HistoryManager.getLatestAction h.
Proof.
  unfold HistoryManager.getLatestAction.
  rewrite filter_app, filter_nonreverted_idemp.
  replace (filter (λ a, isReverted a = false) [mkAction old ty new true])
    with (@nil Action) by done.
  by rewrite (right_id_L [] (++)).
Qed.

Lemma markLatestActionAsReverted_snoc (l : HistoryManager.t) a :
  isReverted a = false →
  HistoryManager.markLatestActionAsReverted (l ++ [a])
  = l ++ [HistoryManager.setReverted true a].
Proof.
  intros Ha. unfold HistoryManager.markLatestActionAsReverted.
  rewrite reverse_snoc. simpl. rewrite Ha. simpl.
  by rewrite reverse_cons, reverse_involutive.
Qed.

Lemma filter_nonreverted_snoc2 (l : HistoryManager.t) x y :
  isReverted x = false → isReverted y = false →
  filter (λ a, isReverted a = false) (filter (λ a, isReverted a = false) l ++ [x; y])
  = filter (λ a, isReverted a = false) l ++ [x; y].
Proof.
  intros Hx Hy. rewrite filter_app, filter_nonreverted_idemp. f_equal.
  rewrite filter_cons, decide_True by done.
  by rewrite filter_cons, decide_True by done.
Qed.

Lemma filter_nonreverted_snoc3 (l : HistoryManager.t) x y z :
  isReverted x = false → isReverted y = false → isReverted z = true →
  filter (λ a, isReverted a = false) (filter (λ a, isReverted a = false) l ++ [x; y; z])
  = filter (λ a, isReverted a = false) l ++ [x; y].
Proof.
  intros Hx Hy Hz. rewrite filter_app, filter_nonreverted_idemp. f_equal.
  rewrite filter_cons, decide_True by done.
  rewrite filter_cons, decide_True by done.
  rewrite filter_cons, decide_False; [done|]. congruence.
Qed.

End HistoryLog.

Section Scalars.

Context (edgeKeyGenerator : Graph → EdgeKey).

(** X13.  With the history on, [undo] after setting the application mode
    returns [true] and gives back the instance as it was, the log apart;
    the [redo] that follows returns [true] and gives the instance as it was
    right after the mode was set, the log included. *)
Theorem set_appMode_undo_redo (m : AppMode) (w : WebGraph) (h : HistoryManager.t) :
  is_Some (renderer w) →
  appState w = ACTIVE →
  isHistoryEnabled w = true →
  history w = Some h →
  ∃ w1, undo edgeKeyGenerator (set_appMode m w) = Ok (true, w1) ∧
        appMode w1 = appMode w ∧
        set_history (history w) w1 = w ∧
        redo edgeKeyGenerator w1 = Ok (true, set_appMode m w).
Proof.
  intros [r Hr] Ha Hen Hh.
  unfold set_appMode. simpl. rewrite Hen.
  unfold undo, isRenderingActive. simpl. rewrite Hr, Ha, Hen, Hh. simpl.
  rewrite getLatestAction_addAction. simpl.
  eexists. split; [reflexivity|]. split; [done|]. split.
  - destruct w as [g c]. destruct c. simpl in *. by subst.
  - unfold redo, isRenderingActive. simpl. rewrite Hr, Ha, Hen, Hh. simpl.
    rewrite markLatestActionAsReverted_addAction, getLatestRevertedAction_snoc. simpl.
    rewrite markLatestRevertedActionAsNotReverted_snoc.
    unfold history_addAction. simpl. by rewrite Hh.
Qed.

(** X14.  With the history on, [undo] after [toggleEdgeRendering] returns
    [true] and sets the flag back to what it was.  The [redo] that follows
    returns [true] and gives the instance as it was right after the toggle
    when the toggle was called with a value; when it was called without
    one, [redo] returns [false] and changes nothing. *)
Theorem toggleEdgeRendering_undo_redo
    (hide : option bool) (w : WebGraph) (h : HistoryManager.t) :
  is_Some (renderer w) →
  appState w = ACTIVE →
  isHistoryEnabled w = true →
  history w = Some h →
  ∃ w1, undo edgeKeyGenerator (toggleEdgeRendering hide true w) = Ok (true, w1) ∧
        isEdgeRenderingDisabled w1 = isEdgeRenderingDisabled w ∧
        graphData w1 = graphData w ∧
        redo edgeKeyGenerator w1 =
          match hide with
          | Some _ => Ok (true, toggleEdgeRendering hide true w)
          | None => Ok (false, w1)
          end.
Proof.
  intros [r Hr] Ha Hen Hh.
  unfold toggleEdgeRendering. simpl. rewrite Hen. simpl.
  unfold undo, isRenderingActive. simpl. rewrite Hr, Ha, Hen, Hh. simpl.
  rewrite getLatestAction_addAction. simpl.
  unfold toggleEdgeRendering. simpl. rewrite andb_false_r.
  eexists. split; [reflexivity|]. split; [done|]. split; [done|].
  unfold redo, isRenderingActive. simpl. rewrite ?Hr, ?Ha, ?Hen, ?Hh. simpl.
  rewrite markLatestActionAsReverted_addAction, getLatestRevertedAction_snoc. simpl.
  destruct hide as [b|]; simpl; [|done].
  unfold toggleEdgeRendering. simpl. rewrite andb_false_r. simpl.
  rewrite markLatestRevertedActionAsNotReverted_snoc.
  unfold history_addAction. simpl. by rewrite Hh.
Qed.

(** X15.  With the history on, [undo] after [setAndApplyDefaultNodeType]
    returns [true] and sets the default node type back, in the
    configuration and in the renderer's settings; the [redo] that follows
    returns [true] and gives the instance as it was right after the call. *)
Theorem setAndApplyDefaultNodeType_undo_redo
    (t : NodeType) (w : WebGraph) (h : HistoryManager.t) :
  is_Some (renderer w) →
  appState w = ACTIVE →
  isHistoryEnabled w = true →
  history w = Some h →
  (setAndApplyDefaultNodeType t true w).1 = true ∧
  ∃ w1, undo edgeKeyGenerator (setAndApplyDefaultNodeType t true w).2 = Ok (true, w1) ∧
        defaultNodeType (configuration w1) = defaultNodeType (configuration w) ∧
        s_defaultNodeType (sigmaSettings (configuration w1))
          = defaultNodeType (configuration w) ∧
        (settings <$> renderer w1) =
          (with_defaultNodeType (defaultNodeType (configuration w)) <$>
             (settings <$> renderer w)) ∧
        redo edgeKeyGenerator w1 = Ok (true, (setAndApplyDefaultNodeType t true w).2).
Proof.
  intros [r Hr] Ha Hen Hh.
  destruct w as [g c a r0 hn he hv vis drag en hi dis impo bd].
  simpl in Hr, Ha, Hen, Hh. subst r0 a en hi.
  destruct c as [c1 c2 c3 c4 c5 c6 c7 [s1 s2 s3 s4]]. destruct r as [[r1 r2 r3 r4]].
  split; [done|].
  pose (act := mkAction (mkData None None None (Some c3) None None) UPDATE_NODE_TYPE
                 (mkData None None None (Some t) None None)).
  exists (mkWebGraph g (mkConfiguration c1 c2 c3 c4 c5 c6 c7 (mkSettings s1 s2 s3 c3))
            ACTIVE (Some (mkRenderer (mkSettings r1 r2 r3 c3))) hn he hv vis drag true
            (Some (filter (λ a, isReverted a = false) h ++ [act true])) dis impo bd).
  assert ((setAndApplyDefaultNodeType t true
             (mkWebGraph g (mkConfiguration c1 c2 c3 c4 c5 c6 c7 (mkSettings s1 s2 s3 s4))
                ACTIVE (Some (mkRenderer (mkSettings r1 r2 r3 r4))) hn he hv vis drag true
                (Some h) dis impo bd)).2
          = mkWebGraph g (mkConfiguration c1 c2 t c4 c5 c6 c7 (mkSettings s1 s2 s3 t))
              ACTIVE (Some (mkRenderer (mkSettings r1 r2 r3 t))) hn he hv vis drag true
              (Some (filter (λ a, isReverted a = false) h ++ [act false])) dis impo bd)
    as -> by reflexivity.
  split; [|split; [done|split; [done|split; [done|]]]].
  - unfold undo, isRenderingActive, set_history.
    cbn [renderer appState isHistoryEnabled history negb bool_decide decide_rel
         mbind option_bind].
    change (filter (λ a, isReverted a = false) h ++ [act false])
      with (HistoryManager.addAction (mkData None None None (Some c3) None None)
              UPDATE_NODE_TYPE (mkData None None None (Some t) None None) h).
    rewrite getLatestAction_addAction.
    cbn -[HistoryManager.markLatestActionAsReverted HistoryManager.addAction].
    rewrite markLatestActionAsReverted_addAction.
    reflexivity.
  - unfold redo, isRenderingActive, set_history.
    cbn [renderer appState isHistoryEnabled history negb bool_decide decide_rel
         mbind option_bind].
    unfold act. rewrite getLatestRevertedAction_snoc.
    cbn -[HistoryManager.markLatestRevertedActionAsNotReverted].
    rewrite markLatestRevertedActionAsNotReverted_snoc.
    reflexivity.
Qed.

End Scalars.

Section Scalars2.

Context (edgeKeyGenerator : Graph → EdgeKey).

Lemma undo_step w a w' :
  is_Some (renderer w) →
  appState w = ACTIVE →
  isHistoryEnabled w = true →
  history w ≫= HistoryManager.getLatestAction = Some a →
  undo_switch edgeKeyGenerator a w = Ok (Some w') →
  undo edgeKeyGenerator w
  = Ok (true, set_history (HistoryManager.markLatestActionAsReverted <$> history w') w').
Proof.
  intros [r Hr] Ha Hen Hl Hs. unfold undo, isRenderingActive.
  rewrite Hr, Ha, Hen, Hl, Hs. reflexivity.
Qed.

(** X16.  With the history on, [undo] after
    [toggleJustImportantEdgeRendering] returns [true] and sets the flag
    back, but the replay logs a [TOGGLE_EDGE_RENDERING] action of its own
    and it is that one which gets marked as reverted: the
    [TOGGLE_IMPORTANT_EDGE_RENDERING] action stays the latest action that
    is not reverted, and a further [undo] returns [true] and changes
    nothing. *)
Theorem toggleJustImportantEdgeRendering_undo_stuck
    (imp : option bool) (w : WebGraph) (h : HistoryManager.t) :
  is_Some (renderer w) →
  appState w = ACTIVE →
  isHistoryEnabled w = true →
  history w = Some h →
  ∃ w2, undo edgeKeyGenerator (toggleJustImportantEdgeRendering imp true w)
          = Ok (true, w2) ∧
        isJustImportantEdgesEnabled w2 = isJustImportantEdgesEnabled w ∧
        history w2 ≫= HistoryManager.getLatestAction
          = Some (mkAction
                    (mkData None None None None (Some (isJustImportantEdgesEnabled w)) None)
                    TOGGLE_IMPORTANT_EDGE_RENDERING
                    (mkData None None None None imp None) false) ∧
        undo edgeKeyGenerator w2 = Ok (true, w2).
Proof.
  intros [r Hr] Ha Hen Hh.
  destruct w as [g c a r0 hn he hv vis drag en hi dis impo bd].
  simpl in Hr, Ha, Hen, Hh. subst r0 a en hi.
  destruct r as [[s1 s2 s3 s4]].
  pose (O1 := mkData None None None None (Some dis) None).
  pose (N1 := mkData None None None None (Some false) None).
  pose (O2 := mkData None None None None (Some impo) None).
  pose (N2 := mkData None None None None imp None).
  pose (v := match imp with Some b => b | None => negb impo end).
  pose (W := λ (j : bool) (s : bool) (l : HistoryManager.t),
          mkWebGraph g c ACTIVE (Some (mkRenderer (mkSettings false s s3 s4)))
            hn he hv vis drag true (Some l) false j bd).
  pose (L2 := filter (λ a, isReverted a = false) h
                ++ [mkAction O1 TOGGLE_EDGE_RENDERING N1 false;
                    mkAction O2 TOGGLE_IMPORTANT_EDGE_RENDERING N2 false]).
  pose (L3 := filter (λ a, isReverted a = false) h
                ++ [mkAction O1 TOGGLE_EDGE_RENDERING N1 false;
                    mkAction O2 TOGGLE_IMPORTANT_EDGE_RENDERING N2 false;
                    mkAction N1 TOGGLE_EDGE_RENDERING N1 true]).
  assert (filter (λ a, isReverted a = false) L2 = L2) as HL2
    by (by apply filter_nonreverted_snoc2).
  assert (filter (λ a, isReverted a = false) L3 = L2) as HL3
    by (by apply filter_nonreverted_snoc3).
  assert (HistoryManager.getLatestAction L2
          = Some (mkAction O2 TOGGLE_IMPORTANT_EDGE_RENDERING N2 false)) as Hlast2.
  { unfold HistoryManager.getLatestAction. rewrite HL2. unfold L2. by rewrite last_app. }
  assert (HistoryManager.getLatestAction L3
          = Some (mkAction O2 TOGGLE_IMPORTANT_EDGE_RENDERING N2 false)) as Hlast3.
  { unfold HistoryManager.getLatestAction. rewrite HL3. unfold L2. by rewrite last_app. }
  assert (∀ l, filter (λ a, isReverted a = false) l = L2 →
            HistoryManager.markLatestActionAsReverted
              (HistoryManager.addAction N1 TOGGLE_EDGE_RENDERING N1 l) = L3) as Hmark.
  { intros l Hl. rewrite markLatestActionAsReverted_addAction, Hl.
    unfold L2, L3. by rewrite <- (assoc_L (++)). }
  assert (toggleJustImportantEdgeRendering imp true
            (mkWebGraph g c ACTIVE (Some (mkRenderer (mkSettings s1 s2 s3 s4)))
               hn he hv vis drag true (Some h) dis impo bd)
          = W v v (HistoryManager.addAction O2 TOGGLE_IMPORTANT_EDGE_RENDERING N2
                     (HistoryManager.addAction O1 TOGGLE_EDGE_RENDERING N1 h)))
    as -> by reflexivity.
  rewrite addAction_addAction. fold L2.
  assert (∀ l, undo_switch edgeKeyGenerator
                 (mkAction O2 TOGGLE_IMPORTANT_EDGE_RENDERING N2 false) (W v v l)
               = Ok (Some (W impo impo
                             (HistoryManager.addAction N1 TOGGLE_EDGE_RENDERING N1 l))))
    as Hsw1 by reflexivity.
  assert (∀ l, undo_switch edgeKeyGenerator
                 (mkAction O2 TOGGLE_IMPORTANT_EDGE_RENDERING N2 false) (W impo impo l)
               = Ok (Some (W impo impo
                             (HistoryManager.addAction N1 TOGGLE_EDGE_RENDERING N1 l))))
    as Hsw2 by reflexivity.
  exists (W impo impo L3). split; [|split; [done|split; [exact Hlast3|]]].
  - rewrite (undo_step (W v v L2) _ _ ltac:(by eexists) eq_refl eq_refl Hlast2 (Hsw1 L2)).
    unfold set_history, W. cbn [history fmap option_fmap option_map graphData configuration
      appState renderer highlightedNodes highlightedEdges hoveredNode
      isNodeInfoBoxContainerVisible isNodeDragged isHistoryEnabled
      isEdgeRenderingDisabled isJustImportantEdgesEnabled isNodeBackdropRenderingEnabled].
    by rewrite (Hmark L2 HL2).
  - rewrite (undo_step (W impo impo L3) _ _ ltac:(by eexists) eq_refl eq_refl Hlast3
               (Hsw2 L3)).
    unfold set_history, W. cbn [history fmap option_fmap option_map graphData configuration
      appState renderer highlightedNodes highlightedEdges hoveredNode
      isNodeInfoBoxContainerVisible isNodeDragged isHistoryEnabled
      isEdgeRenderingDisabled isJustImportantEdgesEnabled isNodeBackdropRenderingEnabled].
    by rewrite (Hmark L3 HL3).
Qed.

End Scalars2.

Section LogFrame.

Context (edgeKeyGenerator : Graph → EdgeKey).

(** X17.  When the history is off or [addToHistory] is [false], none of
    [mergeNodes], [dropNodes], [mergeEdges], [replaceEdges],
    [toggleEdgeRendering] and [setAndApplyDefaultNodeType] touches the log.
    [toggleJustImportantEdgeRendering] is the exception: whenever the
    history is on it logs the [TOGGLE_EDGE_RENDERING] action of its inner
    call, also with [addToHistory = false]. *)
Theorem history_untouched (b : bool) (w : WebGraph) :
  isHistoryEnabled w && b = false →
  (∀ nodes, history (mergeNodes nodes b w).2 = history w) ∧
  (∀ refs, history (dropNodes refs b w).2 = history w) ∧
  (∀ edges r w', mergeEdges edgeKeyGenerator edges b w = Ok (r, w') →
     history w' = history w) ∧
  (∀ edges r w', replaceEdges edgeKeyGenerator edges b w = Ok (r, w') →
     history w' = history w) ∧
  (∀ hide, history (toggleEdgeRendering hide b w) = history w) ∧
  (∀ t, history (setAndApplyDefaultNodeType t b w).2 = history w) ∧
  (∀ imp, history (toggleJustImportantEdgeRendering imp b w) =
     if isHistoryEnabled w
     then HistoryManager.addAction
            (mkData None None None None (Some (isEdgeRenderingDisabled w)) None)
            TOGGLE_EDGE_RENDERING
            (mkData None None None None (Some false) None) <$> history w
     else history w).
Proof.
  intros H. split_and!.
  - intros nodes. unfold mergeNodes. destruct nodes as [|n nodes]; [done|].
    destruct (foldl _ _ _) as [g1 ex]. rewrite H. simpl. by destruct (negb b).
  - intros refs. rewrite dropNodes_unfold, H. simpl.
    by destruct (dropNodes_loop_nodes false refs w [] []) as [(_ & _ & _ & _ & ->) _].
  - intros edges r w' (_ & _ & g1 & ex & _ & ->)%mergeEdges_Ok. by rewrite H.
  - intros edges r w' [_ [r1 Hm]]%replaceEdges_Ok. rewrite H in Hm.
    apply mergeEdges_Ok in Hm as (_ & _ & g1 & ex & _ & ->).
    simpl. by rewrite andb_false_r.
  - intros hide. unfold toggleEdgeRendering. simpl. by rewrite H.
  - intros t. unfold setAndApplyDefaultNodeType.
    destruct (renderer w); [|done]. simpl. by rewrite H.
  - intros imp. unfold toggleJustImportantEdgeRendering, toggleEdgeRendering. simpl.
    destruct (isHistoryEnabled w) eqn:Hen; simpl in *; rewrite ?Hen; simpl;
      [by subst b|done].
Qed.

(** X18.  [clearHistory] returns [true] and changes nothing but the log;
    on a rendering instance with the history on, [undo] and [redo] right
    after it return [false] and change nothing. *)
Theorem clearHistory_undo_redo (w : WebGraph) :
  is_Some (renderer w) →
  appState w = ACTIVE →
  isHistoryEnabled w = true →
  (clearHistory w).1 = true ∧
  set_history (history w) (clearHistory w).2 = w ∧
  undo edgeKeyGenerator (clearHistory w).2 = Ok (false, (clearHistory w).2) ∧
  redo edgeKeyGenerator (clearHistory w).2 = Ok (false, (clearHistory w).2).
Proof.
  intros [r Hr] Ha Hen. split; [done|]. split; [by destruct w|].
  unfold undo, redo, clearHistory, isRenderingActive. simpl.
  by rewrite Hr, Ha, Hen.
Qed.

(** X19.  A successful [render] leaves the graph as it is, takes the
    history switch from the configuration and the three rendering flags
    from the renderer's settings, and starts with an empty log: [undo] and
    [redo] right after it return [false] when the history is enabled and
    throw when it is not. *)
Theorem render_fresh (w w' : WebGraph) :
  render w = Ok w' →
  graphData w' = graphData w ∧
  isHistoryEnabled w' = enableHistory (configuration w) ∧
  isEdgeRenderingDisabled w' = hideEdges (sigmaSettings (configuration w)) ∧
  isJustImportantEdgesEnabled w'
    = renderJustImportantEdges (sigmaSettings (configuration w)) ∧
  isNodeBackdropRenderingEnabled w'
    = renderNodeBackdrop (sigmaSettings (configuration w)) ∧
  highlightedNodes w' = highlightedNodes w ∧
  highlightedEdges w' = highlightedEdges w ∧
  (if enableHistory (configuration w)
   then history w' = Some [] ∧
        undo edgeKeyGenerator w' = Ok (false, w') ∧
        redo edgeKeyGenerator w' = Ok (false, w')
   else history w' = history w ∧
        undo edgeKeyGenerator w' = Throw HistoryDisabled ∧
        redo edgeKeyGenerator w' = Throw HistoryDisabled).
Proof.
  unfold render. destruct (isRenderingActive w); [done|]. intros [= <-].
  destruct w as [g c a r0 hn he hv vis drag en hi dis impo bd].
  destruct c as [c1 c2 c3 c4 c5 c6 c7 s].
  by destruct c2; unfold undo, redo, isRenderingActive; simpl.
Qed.

End LogFrame.

(** Switching the rendered [pair] to DYNAMIC and back. *)
Lemma set_appMode_undo_redo_witness :
  ∃ w1, undo Sample.keyGenerator
          (set_appMode DYNAMIC (Sample.rendered Sample.pair Sample.config))
        = Ok (true, w1) ∧
        appMode w1 = STATIC ∧
        redo Sample.keyGenerator w1
        = Ok (true, set_appMode DYNAMIC (Sample.rendered Sample.pair Sample.config)).
Proof.
  destruct (set_appMode_undo_redo Sample.keyGenerator DYNAMIC
              (Sample.rendered Sample.pair Sample.config) [])
    as (w1 & H1 & H2 & _ & H3).
  - vm_compute. eauto.
  - vm_compute. reflexivity.
  - vm_compute. reflexivity.
  - vm_compute. reflexivity.
  - exists w1. split; [exact H1|]. split; [|exact H3]. rewrite H2. reflexivity.
Defined.

(** Hiding the edges of the rendered [pair] and undoing it. *)
Lemma toggleEdgeRendering_undo_redo_witness :
  ∃ w1, undo Sample.keyGenerator
          (toggleEdgeRendering (Some true) true (Sample.rendered Sample.pair Sample.config))
        = Ok (true, w1) ∧
        isEdgeRenderingDisabled w1 = false.
Proof.
  destruct (toggleEdgeRendering_undo_redo Sample.keyGenerator (Some true)
              (Sample.rendered Sample.pair Sample.config) [])
    as (w1 & H1 & H2 & _).
  - vm_compute. eauto.
  - vm_compute. reflexivity.
  - vm_compute. reflexivity.
  - vm_compute. reflexivity.
  - exists w1. split; [exact H1|]. rewrite H2. reflexivity.
Defined.

(** Switching the rendered [pair] to rectangles and undoing it. *)
Lemma setAndApplyDefaultNodeType_undo_redo_witness :
  ∃ w1, undo Sample.keyGenerator
          (setAndApplyDefaultNodeType RECTANGLE true
             (Sample.rendered Sample.pair Sample.config)).2
        = Ok (true, w1) ∧
        defaultNodeType (configuration w1) = RING.
Proof.
  destruct (setAndApplyDefaultNodeType_undo_redo Sample.keyGenerator RECTANGLE
              (Sample.rendered Sample.pair Sample.config) [])
    as (_ & w1 & H1 & H2 & _).
  - vm_compute. eauto.
  - vm_compute. reflexivity.
  - vm_compute. reflexivity.
  - vm_compute. reflexivity.
  - exists w1. split; [exact H1|]. rewrite H2. reflexivity.
Defined.

(** On the rendered [pair], [undo] after the important-only toggle can be
    repeated without end. *)
Lemma toggleJustImportantEdgeRendering_undo_stuck_witness :
  ∃ w2, undo Sample.keyGenerator
          (toggleJustImportantEdgeRendering (Some true) true
             (Sample.rendered Sample.pair Sample.config))
        = Ok (true, w2) ∧
        undo Sample.keyGenerator w2 = Ok (true, w2).
Proof.
  destruct (toggleJustImportantEdgeRendering_undo_stuck Sample.keyGenerator (Some true)
              (Sample.rendered Sample.pair Sample.config) [])
    as (w2 & H1 & _ & _ & H2).
  - vm_compute. eauto.
  - vm_compute. reflexivity.
  - vm_compute. reflexivity.
  - vm_compute. reflexivity.
  - exists w2. split; [exact H1|exact H2].
Defined.

(** Replaying [mergeNodes] on the rendered [pair] leaves its empty log
    empty. *)
Lemma history_untouched_witness :
  history (mergeNodes Sample.two_nodes false (Sample.rendered Sample.pair Sample.config)).2
  = Some [].
Proof.
  destruct (history_untouched Sample.keyGenerator false
              (Sample.rendered Sample.pair Sample.config)) as (H & _).
  - vm_compute. reflexivity.
  - rewrite H. vm_compute. reflexivity.
Defined.

(** Clearing the log of the rendered [pair]. *)
Lemma clearHistory_undo_redo_witness :
  undo Sample.keyGenerator (clearHistory (Sample.rendered Sample.pair Sample.config)).2
  = Ok (false, (clearHistory (Sample.rendered Sample.pair Sample.config)).2).
Proof.
  destruct (clearHistory_undo_redo Sample.keyGenerator
              (Sample.rendered Sample.pair Sample.config)) as (_ & _ & H & _).
  - vm_compute. eauto.
  - vm_compute. reflexivity.
  - vm_compute. reflexivity.
  - exact H.
Defined.

(** Rendering [pair] with the history enabled. *)
Lemma render_fresh_witness :
  history (Sample.rendered Sample.pair Sample.config) = Some [] ∧
  graphData (Sample.rendered Sample.pair Sample.config) = Sample.pair.
Proof.
  destruct (render_fresh Sample.keyGenerator (new_WebGraph Sample.pair Sample.config)
              (Sample.rendered Sample.pair Sample.config))
    as (H1 & _ & _ & _ & _ & _ & _ & H2).
  - vm_compute. reflexivity.
  - split; [|exact H1]. simpl in H2. destruct H2 as [H2 _]. exact H2.
Defined.
